(** * PhishingEmail: mbox extraction and .eml export

    A shallow embedding of [extract.py] and [jsonTOeml.py].

    Python strings are sequences of Unicode code points, Python dictionaries
    are insertion-ordered association lists, and statements that can raise,
    print or touch the file system run in a small state-and-exception
    monad.  Standard output is an open text stream whose encoder is a
    parameter: [print] raises on a line the encoder refuses.  The first
    part of the file holds the embedding, the second the vocabulary of the
    properties, the third the properties themselves. *)

From Stdlib Require Import List NArith ZArith Bool Arith Lia.
From Stdlib Require Import Strings.String Strings.Ascii Strings.Byte.
From Stdlib Require Import Numbers.DecimalString.
Import ListNotations.

Set Implicit Arguments.
#[local] Set Warnings "-abstract-large-number,-register-all".

(* ================================================================== *)
(** * Part I: the embedding *)
(* ================================================================== *)

(** ** Python strings *)

(** A character is a Unicode code point, a [str] a list of them. *)
Definition char := N.
Definition str := list char.

(** Reading a literal of the development as a [str] (ASCII only). *)
Definition u (s : string) : str := map N_of_ascii (list_ascii_of_string s).

Definition TAB : char := 9%N.
Definition LF : char := 10%N.
Definition CR : char := 13%N.
Definition SPACE : char := 32%N.
Definition HYPHEN : char := 45%N.
Definition COLON : char := 58%N.
Definition UNDERSCORE : char := 95%N.

Definition char_eqb : char -> char -> bool := N.eqb.

Fixpoint str_eqb (a b : str) : bool :=
  match a, b with
  | [], [] => true
  | x :: a', y :: b' => char_eqb x y && str_eqb a' b'
  | _, _ => false
  end.

(** Truthiness of a string or of a list: non-empty. *)
Definition truthy {A} (l : list A) : bool :=
  match l with [] => false | _ :: _ => true end.

(** [s.startswith(p)] *)
Fixpoint startswith (p s : str) : bool :=
  match p, s with
  | [], _ => true
  | x :: p', y :: s' => char_eqb x y && startswith p' s'
  | _ :: _, [] => false
  end.

Fixpoint take_while {A} (f : A -> bool) (l : list A) : list A :=
  match l with
  | [] => []
  | x :: l' => if f x then x :: take_while f l' else []
  end.

Fixpoint drop_while {A} (f : A -> bool) (l : list A) : list A :=
  match l with
  | [] => []
  | x :: l' => if f x then drop_while f l' else l
  end.

Definition in_range (lo hi c : N) : bool := (lo <=? c)%N && (c <=? hi)%N.

Open Scope N_scope.

(** Unicode whitespace, as [str.isspace], [str.strip] and the pattern [\s]
    of a [str] regular expression all understand it. *)
Definition is_space (c : char) : bool :=
  in_range 9 13 c || in_range 28 32 c || char_eqb c 133 || char_eqb c 160
  || char_eqb c 5760 || in_range 8192 8202 c || char_eqb c 8232
  || char_eqb c 8233 || char_eqb c 8239 || char_eqb c 8287
  || char_eqb c 12288.

(** The line boundaries of [str.splitlines]. *)
Definition is_linebreak (c : char) : bool :=
  in_range 10 13 c || in_range 28 30 c || char_eqb c 133
  || char_eqb c 8232 || char_eqb c 8233.

Close Scope N_scope.

(** [s.strip()] *)
Definition lstrip (s : str) : str := drop_while is_space s.
Definition rstrip (s : str) : str := rev (drop_while is_space (rev s)).
Definition strip (s : str) : str := rstrip (lstrip s).

(** [s.splitlines()]: [after_cr] remembers that the previous character was
    a carriage return, whose line feed belongs to the same boundary. *)
Fixpoint splitlines_from (after_cr : bool) (s : str) : list str :=
  match s with
  | [] => []
  | c :: s' =>
      if after_cr && char_eqb c LF then splitlines_from false s'
      else if is_linebreak c then [] :: splitlines_from (char_eqb c CR) s'
      else match splitlines_from false s' with
           | [] => [[c]]
           | l :: ls => (c :: l) :: ls
           end
  end.

Definition splitlines (s : str) : list str := splitlines_from false s.

(** [sep.join(parts)] *)
Fixpoint join (sep : str) (parts : list str) : str :=
  match parts with
  | [] => []
  | [p] => p
  | p :: ps => p ++ sep ++ join sep ps
  end.

(** [str(n)] for a non-negative integer. *)
Definition str_of_nat (n : nat) : str :=
  u (NilEmpty.string_of_uint (Nat.to_uint n)).

(** The alphanumeric test of the Unicode database behind [\w]; the
    embedding consults it only outside ASCII. *)
Class UnicodeDB := { unicode_isalnum : char -> bool }.

Definition ascii_isalnum (c : char) : bool :=
  (in_range 48 57 c || in_range 65 90 c || in_range 97 122 c)%N.

(** [\w] of a [str] pattern. *)
Definition is_word `{UnicodeDB} (c : char) : bool :=
  if (c <? 128)%N then ascii_isalnum c || char_eqb c UNDERSCORE
  else unicode_isalnum c.

(** ** Python dictionaries *)

(** Insertion-ordered, with unique keys as long as it is built by
    [dict_set]. *)
Definition dict (V : Type) := list (str * V).

Fixpoint dict_get {V} (d : dict V) (k : str) : option V :=
  match d with
  | [] => None
  | (k', v) :: d' => if str_eqb k' k then Some v else dict_get d' k
  end.

(** [k in d] *)
Definition dict_mem {V} (k : str) (d : dict V) : bool :=
  match dict_get d k with Some _ => true | None => false end.

(** [d[k] = v]: in place when the key is there, at the end otherwise. *)
Fixpoint dict_set {V} (d : dict V) (k : str) (v : V) : dict V :=
  match d with
  | [] => [(k, v)]
  | (k', v') :: d' =>
      if str_eqb k' k then (k', v) :: d' else (k', v') :: dict_set d' k v
  end.

(** [d.get(k, default)] *)
Definition dict_get_default {V} (d : dict V) (k : str) (default : V) : V :=
  match dict_get d k with Some v => v | None => default end.

(** ** Statements: state and exceptions *)

Inductive exn : Type :=
| IndexError
| KeyError (key : str)
| TypeError
| UnicodeDecodeError
| UnicodeEncodeError (message : str)
| FileNotFoundError (message : str)
| OSError (message : str)
| Exception (message : str).

(** [str(e)], as the handlers print it. *)
Definition exn_text (e : exn) : str :=
  match e with
  | IndexError => u "list index out of range"
  | KeyError key => u "'" ++ key ++ u "'"
  | TypeError => u "expected string or bytes-like object"
  | UnicodeDecodeError => u "'utf-8' codec can't decode bytes"
  | UnicodeEncodeError m | FileNotFoundError m | OSError m | Exception m => m
  end.

Inductive outcome (A : Type) : Type :=
| Return (a : A)
| Raise (e : exn).
Arguments Return {A} a.
Arguments Raise {A} e.

(** A computation over a world [W]; what it did to the world stays done
    when it raises. *)
Definition Py (W A : Type) : Type := W -> outcome A * W.

Definition ret {W A} (a : A) : Py W A := fun w => (Return a, w).
Definition raise {W A} (e : exn) : Py W A := fun w => (Raise e, w).
Definition bind {W A B} (c : Py W A) (k : A -> Py W B) : Py W B :=
  fun w =>
    match c w with
    | (Return a, w') => k a w'
    | (Raise e, w') => (Raise e, w')
    end.

Notation "x <- c ;; k" := (bind c (fun x => k))
  (at level 61, c at next level, right associativity).
Notation "c ;;; k" := (bind c (fun _ => k))
  (at level 61, right associativity).

(** [try: c  except ... as e: handler e], the handlers together catching
    every exception; what a handler raises leaves the statement. *)
Definition try_except {W A} (c : Py W A) (handler : exn -> Py W A) : Py W A :=
  fun w =>
    match c w with
    | (Return a, w') => (Return a, w')
    | (Raise e, w') => handler e w'
    end.

(** A [for] loop that threads the variables it assigns. *)
Fixpoint for_each {W A S} (xs : list A) (body : S -> A -> Py W S) (s : S)
  : Py W S :=
  match xs with
  | [] => ret s
  | x :: xs' => s' <- body s x ;; for_each xs' body s'
  end.

(** [enumerate(l)] *)
Definition enumerate {A} (l : list A) : list (nat * A) :=
  combine (seq 0 (List.length l)) l.

(** [l[i]] *)
Definition getitem {W A} (l : list A) (i : nat) : Py W A :=
  match nth_error l i with
  | Some x => ret x
  | None => raise IndexError
  end.

(** [l.pop(0)], giving the list that is left. *)
Definition pop_first {W A} (l : list A) : Py W (list A) :=
  match l with
  | [] => raise IndexError
  | _ :: l' => ret l'
  end.

(** [d[k]] *)
Definition dict_getitem {W V} (d : dict V) (k : str) : Py W V :=
  match dict_get d k with
  | Some v => ret v
  | None => raise (KeyError k)
  end.

(** ** JSON documents, as [json.load] gives them *)

Inductive json : Type :=
| JNull
| JBool (b : bool)
| JInt (z : Z)
| JFloat (bits : N)          (* a Python float, as its binary64 pattern *)
| JStr (s : str)
| JArr (items : list json)
| JObj (members : list (str * json)).

(** Truthiness of a Python value. *)
Definition json_truthy (v : json) : bool :=
  match v with
  | JNull => false
  | JBool b => b
  | JInt z => negb (z =? 0)%Z
  | JFloat bits => negb ((bits =? 0)%N || (bits =? 2 ^ 63)%N)
  | JStr s => truthy s
  | JArr items => truthy items
  | JObj members => truthy members
  end.

(** [str(v)] for a value that is not a string already: the text Python
    builds for [None], numbers, lists and dictionaries. *)
Class PyBuiltins := { builtin_str : json -> str }.

(** [str(v)], and what an f-string makes of [{v}]. *)
Definition str_of `{PyBuiltins} (v : json) : str :=
  match v with
  | JStr s => s
  | _ => builtin_str v
  end.

(** ** The operating system *)

Inductive io_result : Type :=
| IoOk
| IoFileNotFound (message : str)  (* FileNotFoundError, an OSError *)
| IoOSError (message : str)       (* any other OSError, that is IOError *)
| IoException (message : str).    (* any other Exception *)

Inductive read_result : Type :=
| ReadOk (raw : list byte)
| ReadNotFound (message : str)
| ReadFailed (message : str).

(** What a call that asks the system for a text gives: the text, a
    [FileNotFoundError], or another [OSError]. *)
Inductive text_result : Type :=
| TextOk (text : str)
| TextNotFound (message : str)
| TextFailed (message : str).

Inductive load_result : Type :=
| Loaded (v : json)
| LoadFileNotFound
| LoadJSONDecodeError
| LoadFailed (message : str).

(** The calls the two scripts make, over a file system [FS]. *)
Class OS (FS : Type) := {
  os_path_exists : FS -> str -> bool;
  os_path_join : str -> str -> str;
  os_getcwd : FS -> text_result;
  os_listdir_text : FS -> text_result;                 (* str(os.listdir('.')) *)
  os_makedirs : FS -> str -> io_result * FS;
  read_bytes : FS -> str -> read_result;               (* open(p, 'r'), raw *)
  write_text : FS -> str -> str -> io_result * FS;     (* open(p, 'w') and write *)
  json_load : FS -> str -> load_result;                (* open(p) and json.load *)
  json_dump : FS -> str -> json -> io_result * FS      (* open(p, 'w') and json.dump *)
}.

(** What a run does that can be seen from outside, in order. *)
Inductive event : Type :=
| Print (line : str)
| Makedirs (path : str)
| WriteFile (path content : str)
| DumpJson (path : str) (data : json).

Record world (FS : Type) : Type := mk_world {
  trace : list event;
  disk : FS
}.
Arguments mk_world {FS} trace disk.

Definition emit {FS} (e : event) : Py (world FS) unit :=
  fun w => (Return tt, mk_world (trace w ++ [e]) (disk w)).

(** What the encoder of standard output accepts, and the text of the
    [UnicodeEncodeError] it raises on a line it refuses.  The embedding
    consults it only outside ASCII, which every encoding of a console
    holds. *)
Class Stdout := {
  stdout_encodes : char -> bool;
  stdout_error_text : str -> str
}.

Definition encodable {out : Stdout} (c : char) : bool :=
  (c <? 128)%N || stdout_encodes c.

Definition printable {out : Stdout} (line : str) : bool :=
  forallb encodable line.

(** [print(line)]: the line reaches standard output whole, or not at all
    when the encoder refuses it. *)
Definition print {out : Stdout} {FS} (line : str) : Py (world FS) unit :=
  if printable line then emit (Print line)
  else raise (UnicodeEncodeError (stdout_error_text line)).

(** A call that only looks at the file system. *)
Definition ask {FS A} (f : FS -> A) : Py (world FS) A :=
  fun w => (Return (f (disk w)), w).

(** A call that asks it for a text, and can fail. *)
Definition ask_text {FS} (f : FS -> text_result) : Py (world FS) str :=
  fun w =>
    match f (disk w) with
    | TextOk text => (Return text, w)
    | TextNotFound m => (Raise (FileNotFoundError m), w)
    | TextFailed m => (Raise (OSError m), w)
    end.

(** A call that changes it, recorded as [e]. *)
Definition perform {FS} (e : event) (f : FS -> io_result * FS)
  : Py (world FS) io_result :=
  fun w =>
    let (r, d) := f (disk w) in
    (Return r, mk_world (trace w ++ [e]) d).

(** ** Reading text: UTF-8 with an error handler, universal newlines *)

Inductive error_handler : Type := Strict | Ignore | Replace.

(** What the decoder makes of a stretch of bytes: a character, or bytes
    that cannot be decoded. *)
Inductive decoded : Type :=
| Char (c : char)
| Undecodable.

(** Between characters, or inside one: [need] more bytes, the next within
    [lo..hi], [acc] holding the bits read so far. *)
Inductive decoder_state : Type :=
| Start
| Pending (need : nat) (lo hi : N) (acc : N).

Open Scope N_scope.

(** The first byte of a character: an ASCII character by itself, the
    lead of a sequence of two, three or four bytes with the range its
    second byte must be in (no overlong form, no surrogate, nothing beyond
    U+10FFFF), or a byte that cannot start a character. *)
Definition lead_byte (b : N) : decoded + decoder_state :=
  if b <? 0x80 then inl (Char b)
  else if in_range 0xC2 0xDF b then inr (Pending 1 0x80 0xBF (N.land b 0x1F))
  else if b =? 0xE0 then inr (Pending 2 0xA0 0xBF (N.land b 0x0F))
  else if b =? 0xED then inr (Pending 2 0x80 0x9F (N.land b 0x0F))
  else if in_range 0xE1 0xEF b then inr (Pending 2 0x80 0xBF (N.land b 0x0F))
  else if b =? 0xF0 then inr (Pending 3 0x90 0xBF (N.land b 0x07))
  else if b =? 0xF4 then inr (Pending 3 0x80 0x8F (N.land b 0x07))
  else if in_range 0xF1 0xF3 b then inr (Pending 3 0x80 0xBF (N.land b 0x07))
  else inl Undecodable.

(** The decoder, byte by byte.  A byte that does not continue the
    character under way ends it as one undecodable stretch and is looked
    at again as a first byte; the input ending inside a character leaves
    one undecodable stretch. *)
Fixpoint utf8_scan (st : decoder_state) (raw : list byte) : list decoded :=
  match raw with
  | [] => match st with Start => [] | Pending _ _ _ _ => [Undecodable] end
  | b :: raw' =>
      let n := Byte.to_N b in
      let restart :=
        match lead_byte n with
        | inl d => d :: utf8_scan Start raw'
        | inr st' => utf8_scan st' raw'
        end in
      match st with
      | Start => restart
      | Pending need lo hi acc =>
          if in_range lo hi n
          then let acc' := acc * 64 + N.land n 0x3F in
               match need with
               | 1%nat => Char acc' :: utf8_scan Start raw'
               | _ => utf8_scan (Pending (need - 1) 0x80 0xBF acc') raw'
               end
          else Undecodable :: restart
      end
  end.

Definition REPLACEMENT : char := 0xFFFD.

Close Scope N_scope.

Definition is_undecodable (d : decoded) : bool :=
  match d with Undecodable => true | Char _ => false end.

(** [raw.decode('utf-8', errors=...)] *)
Definition utf8_decode {W} (errors : error_handler) (raw : list byte)
  : Py W str :=
  let ds := utf8_scan Start raw in
  match errors with
  | Strict =>
      if existsb is_undecodable ds then raise UnicodeDecodeError
      else ret (flat_map (fun d => match d with Char c => [c] | _ => [] end) ds)
  | Ignore =>
      ret (flat_map (fun d => match d with Char c => [c] | _ => [] end) ds)
  | Replace =>
      ret (map (fun d => match d with Char c => c | _ => REPLACEMENT end) ds)
  end.

(** The newline translation of a file opened for reading in text mode. *)
Fixpoint universal_newlines (after_cr : bool) (s : str) : str :=
  match s with
  | [] => []
  | c :: s' =>
      if after_cr && char_eqb c LF then universal_newlines false s'
      else if char_eqb c CR then LF :: universal_newlines true s'
      else c :: universal_newlines false s'
  end.

(** [open(path, 'r', encoding='utf-8', errors=...).read()] *)
Definition open_read {FS} `{OS FS} (path : str) (errors : error_handler)
  : Py (world FS) str :=
  r <- ask (fun d => read_bytes d path) ;;
  match r with
  | ReadOk raw =>
      s <- utf8_decode errors raw ;;
      ret (universal_newlines false s)
  | ReadNotFound m => raise (FileNotFoundError m)
  | ReadFailed m => raise (Exception m)
  end.

(** Raising what a changing call reported. *)
Definition check_io {W} (r : io_result) : Py W unit :=
  match r with
  | IoOk => ret tt
  | IoFileNotFound m => raise (FileNotFoundError m)
  | IoOSError m => raise (OSError m)
  | IoException m => raise (Exception m)
  end.

(* ------------------------------------------------------------------ *)
(** ** extract.py *)
(* ------------------------------------------------------------------ *)

(** One parsed message: [{'headers': {...}, 'body': '...'}]. *)
Record email : Type := mk_email { headers : dict str; body : str }.

Definition From_ : str := u "From ".

(** [re.split(r'(?=^From )', s, flags=re.MULTILINE)].  The pattern is
    empty and matches where a line starts (the start of the text, or just
    after a line feed) and the text goes on with [From ].  [bol] tells
    whether [s] starts a line.  The head of the result is the piece that
    runs from the start of [s] to the first match. *)
Fixpoint re_split_at (bol : bool) (s : str) : list str :=
  match s with
  | [] => [[]]
  | c :: s' =>
      let rest := re_split_at (char_eqb c LF) s' in
      let piece := c :: hd [] rest in
      if bol && startswith From_ s then [] :: piece :: tl rest
      else piece :: tl rest
  end.

Definition re_split_From (mbox_content : str) : list str :=
  re_split_at true mbox_content.

(** The [re.match] of a header line against the pattern of the source (a
    run of word characters and hyphens, a colon, optional whitespace, the
    rest of the line), giving its two groups.  A colon is not a word
    character, so the longest run of key characters is the only candidate
    for the first group; the dot of the second stops at a line feed. *)
Definition is_key_char `{UnicodeDB} (c : char) : bool :=
  is_word c || char_eqb c HYPHEN.

Definition re_match_header `{UnicodeDB} (line : str) : option (str * str) :=
  let key := take_while is_key_char line in
  match key, drop_while is_key_char line with
  | _ :: _, c :: rest =>
      if char_eqb c COLON
      then Some (key, take_while (fun x => negb (char_eqb x LF))
                                 (drop_while is_space rest))
      else None
  | _, _ => None
  end.

Section ParseMbox.
Context `{UnicodeDB} {FS : Type} {out : Stdout}.

(** The variables of the first inner loop of [parse_mbox]. *)
Record scan_state : Type := mk_scan {
  header_section : bool;
  header_lines : list str;
  body_lines : list str
}.

(** Its body, for one index [i] of [range(1, len(lines))]. *)
Definition scan_line (lines : list str) (st : scan_state) (i : nat)
  : Py (world FS) scan_state :=
  line <- getitem lines i ;;
  if header_section st && negb (truthy (strip line))
  then ret (mk_scan false (header_lines st) (body_lines st))
  else if header_section st
  then ret (mk_scan (header_section st) (header_lines st ++ [line])
                    (body_lines st))
  else ret (mk_scan (header_section st) (header_lines st)
                    (body_lines st ++ [line])).

(** The variables of the header loop: [email_data['headers']] and
    [current_header_key]. *)
Definition header_state : Type := (dict str * option str)%type.

Definition is_continuation (header_line : str) : bool :=
  truthy header_line
  && (startswith [SPACE] header_line || startswith [TAB] header_line).

(** Its body. *)
Definition header_step (st : header_state) (header_line : str)
  : Py (world FS) header_state :=
  let '(hdrs, current_header_key) := st in
  if is_continuation header_line
  then match current_header_key with
       | Some k =>
           if truthy k && dict_mem k hdrs
           then v <- dict_getitem hdrs k ;;
                ret (dict_set hdrs k (v ++ [LF] ++ strip header_line),
                     current_header_key)
           else ret st
       | None => ret st
       end
  else match re_match_header header_line with
       | Some (key, value) =>
           if negb (dict_mem key hdrs)
           then ret (dict_set hdrs key (strip value), Some key)
           else ret st
       | None => ret st
       end.

(** The body of the loop over [email_parts]: [emails] is the list built
    so far, a [continue] leaves it as it is. *)
Definition parse_part (emails : list email) (email_text : str)
  : Py (world FS) (list email) :=
  if negb (truthy (strip email_text)) then ret emails
  else
    let lines := splitlines email_text in
    if negb (truthy lines) then ret emails
    else
      st <- for_each (seq 1 (List.length lines - 1)) (scan_line lines)
                     (mk_scan true [] []) ;;
      hs <- for_each (header_lines st) header_step ([], None) ;;
      ret (emails ++ [mk_email (fst hs) (join [LF] (body_lines st))]).

Definition no_emails_found : str :=
  u "No emails found in the provided content.".

Definition parse_mbox (mbox_content : str) : Py (world FS) (list email) :=
  let emails := [] in
  let email_parts := re_split_From mbox_content in
  email_parts <-
    (if truthy email_parts
     then first <- getitem email_parts 0 ;;
          if negb (truthy (strip first)) then pop_first email_parts
          else ret email_parts
     else ret email_parts) ;;
  if negb (truthy email_parts)
  then print no_emails_found ;;; ret emails
  else for_each email_parts parse_part emails.

(** The list of records as [json.dump] receives it. *)
Definition json_of_email (e : email) : json :=
  JObj [(u "headers", JObj (map (fun kv => (fst kv, JStr (snd kv))) (headers e)));
        (u "body", JStr (body e))].

Context `{OS FS}.

(** The [try] block of [extract_emails_to_json]. *)
Definition extract_try (input_filename output_filename : str)
  : Py (world FS) unit :=
  found <- ask (fun d => os_path_exists d input_filename) ;;
  if negb found
  then print (u "Error: Input file '" ++ input_filename ++ u "' not found.") ;;;
       cwd <- ask_text os_getcwd ;;
       print (u "Current directory: " ++ cwd) ;;;
       listing <- ask_text os_listdir_text ;;
       print (u "Files in current directory: " ++ listing)
  else
    mbox_content <- open_read input_filename Ignore ;;
    emails_data <- parse_mbox mbox_content ;;
    if negb (truthy emails_data)
    then print (u "No emails were parsed.")
    else
      r <- perform (DumpJson output_filename
                             (JArr (map json_of_email emails_data)))
                   (fun d => json_dump d output_filename
                                       (JArr (map json_of_email emails_data))) ;;
      check_io r ;;;
      print (u "Successfully extracted "
               ++ str_of_nat (List.length emails_data)
               ++ u " emails to '" ++ output_filename ++ u "'").

(** Its two [except] clauses. *)
Definition extract_except (input_filename : str) (e : exn)
  : Py (world FS) unit :=
  match e with
  | FileNotFoundError _ =>
      print (u "Error: Input file '" ++ input_filename ++ u "' not found.")
  | _ => print (u "An error occurred: " ++ exn_text e)
  end.

Definition extract_emails_to_json (input_filename output_filename : str)
  : Py (world FS) unit :=
  try_except (extract_try input_filename output_filename)
             (extract_except input_filename).

End ParseMbox.

(* ------------------------------------------------------------------ *)
(** ** jsonTOeml.py *)
(* ------------------------------------------------------------------ *)

Definition DQUOTE : char := 34%N.

(** The class of the first [re.sub] of [sanitize_filename]: backslash,
    slash, star, question mark, colon, double quote, angle brackets and
    bar. *)
Definition is_invalid_char (c : char) : bool :=
  existsb (char_eqb c) (u "\/*?:" ++ [DQUOTE] ++ u "<>|").

(** The first [re.sub]: every character of the class goes. *)
Definition remove_invalid (s : str) : str :=
  filter (fun c => negb (is_invalid_char c)) s.

(** The second [re.sub]: every run of whitespace becomes one underscore.
    [in_run] tells that the previous character was whitespace. *)
Fixpoint collapse_whitespace (in_run : bool) (s : str) : str :=
  match s with
  | [] => []
  | c :: s' =>
      if is_space c
      then if in_run then collapse_whitespace true s'
           else UNDERSCORE :: collapse_whitespace true s'
      else c :: collapse_whitespace false s'
  end.

Definition sanitize_filename {W} (filename : json) : Py W str :=
  if negb (json_truthy filename) then ret []
  else match filename with
       | JStr s =>
           let s := remove_invalid s in
           let s := collapse_whitespace false s in
           ret (firstn 200 s)
       | _ => raise TypeError   (* re.sub on a value that is not a string *)
       end.

Section ConvertJsonToEml.
Context {FS : Type} `{OS FS} `{PyBuiltins} {out : Stdout}.

(** The lines one header contributes to the file. *)
Definition header_text (key : str) (value : json) : str :=
  match value with
  | JStr s => key ++ u ": " ++ s ++ [LF]
  | JArr items =>
      flat_map (fun v_line => key ++ u ": " ++ str_of v_line ++ [LF]) items
  | _ => []
  end.

(** [eml_content]: the headers, a blank line, the body. *)
Definition eml_content_of (hdrs : dict json) (body : json) : str :=
  flat_map (fun kv => header_text (fst kv) (snd kv)) hdrs
  ++ [LF] ++ str_of body.

(** [k in hdrs and hdrs[k]], as a condition. *)
Definition present_and_truthy (hdrs : dict json) (k : str)
  : Py (world FS) bool :=
  if dict_mem k hdrs
  then v <- dict_getitem hdrs k ;; ret (json_truthy v)
  else ret false.

Definition X_CCC_HASH : str := u "X-CCC-HASH".
Definition Subject : str := u "Subject".

(** [eml_filename]: the hash, else the sanitized subject, else the
    position. *)
Definition eml_filename_of (hdrs : dict json) (i : nat)
  : Py (world FS) str :=
  let filename_base := JStr [] in
  by_hash <- present_and_truthy hdrs X_CCC_HASH ;;
  filename_base <-
    (if by_hash then dict_getitem hdrs X_CCC_HASH
     else
       by_subject <- present_and_truthy hdrs Subject ;;
       if by_subject
       then v <- dict_getitem hdrs Subject ;;
            s <- sanitize_filename v ;;
            ret (JStr s)
       else ret filename_base) ;;
  let filename_base :=
    if negb (json_truthy filename_base)
    then JStr (u "email_" ++ str_of_nat (i + 1))
    else filename_base in
  ret (str_of filename_base ++ u ".eml").

Definition warning_not_dict (i : nat) : str :=
  u "Warning: Skipping item at index " ++ str_of_nat i
    ++ u " as it's not a dictionary (email object).".

Definition warning_headers (i : nat) : str :=
  u "Warning: Headers for email at index " ++ str_of_nat i
    ++ u " are not in the expected dictionary format. Skipping.".

(** The body of the loop over [enumerate(emails_data)]. *)
Definition export_email (output_dir : str) (_ : unit) (item : nat * json)
  : Py (world FS) unit :=
  let '(i, email_obj) := item in
  match email_obj with
  | JObj obj =>
      let hdrs := dict_get_default obj (u "headers") (JObj []) in
      let body := dict_get_default obj (u "body") (JStr []) in
      match hdrs with
      | JObj hdrs =>
          let eml_content := eml_content_of hdrs body in
          eml_filename <- eml_filename_of hdrs i ;;
          let eml_file_path := os_path_join (FS := FS) output_dir eml_filename in
          try_except
            (r <- perform (WriteFile eml_file_path eml_content)
                          (fun d => write_text d eml_file_path eml_content) ;;
             check_io r ;;;
             print (u "Successfully created '" ++ eml_file_path ++ u "'"))
            (fun e =>
               match e with
               | FileNotFoundError _ | OSError _ =>   (* IOError *)
                   print (u "Error writing .eml file '" ++ eml_file_path
                            ++ u "': " ++ exn_text e)
               | _ =>
                   print (u "An unexpected error occurred while writing '"
                            ++ eml_file_path ++ u "': " ++ exn_text e)
               end)
      | _ => print (warning_headers i)
      end
  | _ => print (warning_not_dict i)
  end.

(** The loop itself. *)
Definition export_all (output_dir : str) (emails_data : list json)
  : Py (world FS) unit :=
  for_each (enumerate emails_data) (export_email output_dir) tt.

Definition convert_json_to_eml (json_file_path output_dir : str)
  : Py (world FS) unit :=
  loaded <- ask (fun d => json_load d json_file_path) ;;
  match loaded with
  | LoadFileNotFound =>
      print (u "Error: JSON file not found at '" ++ json_file_path ++ u "'")
  | LoadJSONDecodeError =>
      print (u "Error: Could not decode JSON from '" ++ json_file_path
               ++ u "'. Make sure it's a valid JSON file.")
  | LoadFailed e =>
      print (u "An unexpected error occurred while reading the JSON file: "
               ++ e)
  | Loaded (JArr emails_data) =>
      found <- ask (fun d => os_path_exists d output_dir) ;;
      ready <-
        (if negb found
         then r <- perform (Makedirs output_dir)
                           (fun d => os_makedirs d output_dir) ;;
              match r with
              | IoOk =>
                  print (u "Created output directory: '" ++ output_dir
                           ++ u "'") ;;;
                  ret true
              | IoFileNotFound e | IoOSError e =>
                  print (u "Error creating output directory '" ++ output_dir
                           ++ u "': " ++ e) ;;;
                  ret false
              | IoException e => raise (Exception e)
              end
         else ret true) ;;
      if ready
      then
        print (u "Found " ++ str_of_nat (List.length emails_data)
                 ++ u " emails in '" ++ json_file_path
                 ++ u "'. Starting conversion...") ;;;
        export_all output_dir emails_data ;;;
        print ([LF] ++ u "Conversion complete. "
                 ++ str_of_nat (List.length emails_data)
                 ++ u " .eml files generated in '" ++ output_dir ++ u "'.")
      else ret tt
  | Loaded _ =>
      print (u "Error: JSON file should contain a list of email objects.")
  end.

End ConvertJsonToEml.

(* ------------------------------------------------------------------ *)
(** ** The two scripts run as programs *)
(* ------------------------------------------------------------------ *)

Section MainBlocks.
Context `{UnicodeDB} {FS : Type} `{OS FS} `{PyBuiltins} {out : Stdout}.

Definition INPUT_MBOX_FILE : str := u "year2005.txt".
Definition OUTPUT_JSON_FILE : str := u "emails.json".

(** The main block of [extract.py]. *)
Definition extract_main : Py (world FS) unit :=
  extract_emails_to_json INPUT_MBOX_FILE OUTPUT_JSON_FILE.

Definition INPUT_JSON_FILE : str := u "emails_filtered.json".
Definition OUTPUT_EML_DIR : str := u "eml_files".

(** The main block of [jsonTOeml.py]. *)
Definition json_to_eml_main : Py (world FS) unit :=
  found <- ask (fun d => os_path_exists d INPUT_JSON_FILE) ;;
  if negb found
  then print (u "Error: Input JSON file '" ++ INPUT_JSON_FILE
                ++ u "' not found in the current directory.") ;;;
       print (u "Please make sure the file exists or provide the correct path.")
  else convert_json_to_eml INPUT_JSON_FILE OUTPUT_EML_DIR.

End MainBlocks.

(* ------------------------------------------------------------------ *)
(** ** Instances for worked examples *)
(* ------------------------------------------------------------------ *)

(** A Unicode database that knows no alphanumeric outside ASCII; on ASCII
    text every database gives the same parse. *)
Definition ascii_only : UnicodeDB := {| unicode_isalnum := fun _ => false |}.

(** [str()] for the values whose text is fixed. *)
Definition sample_builtins : PyBuiltins :=
  {| builtin_str := fun v =>
       match v with
       | JNull => u "None"
       | JBool true => u "True"
       | JBool false => u "False"
       | JInt (Z.neg p) => u "-" ++ str_of_nat (Pos.to_nat p)
       | JInt z => str_of_nat (Z.to_nat z)
       | _ => u "..."
       end |}.

(** A console in UTF-8: every character but a surrogate goes through. *)
Definition is_surrogate (c : char) : bool := in_range 0xD800 0xDFFF c.

Definition utf8_stdout : Stdout :=
  {| stdout_encodes := fun c => negb (is_surrogate c);
     stdout_error_text := fun _ =>
       u "'utf-8' codec can't encode character: surrogates not allowed" |}.

(** A file system on which every call succeeds: the directories made, the
    raw files to read, the documents [json.load] finds and [json.dump]
    leaves, and the text files written, a later write to a path replacing
    the earlier one. *)
Record simple_fs : Type := mk_fs {
  directories : list str;
  raw_files : dict (list byte);
  documents : dict json;
  text_files : dict str
}.

Definition SLASH : char := 47%N.

(** [posixpath.join] *)
Definition posix_join (a b : str) : str :=
  if startswith [SLASH] b then b
  else if negb (truthy a) || startswith [SLASH] (rev a) then a ++ b
  else a ++ [SLASH] ++ b.

Definition simple_os : OS simple_fs := {|
  os_path_exists := fun d p =>
    existsb (str_eqb p) (directories d) || dict_mem p (raw_files d)
    || dict_mem p (documents d) || dict_mem p (text_files d);
  os_path_join := posix_join;
  os_getcwd := fun _ => TextOk (u "/");
  os_listdir_text := fun _ => TextOk (u "[]");
  os_makedirs := fun d p =>
    (IoOk, mk_fs (directories d ++ [p]) (raw_files d) (documents d)
                 (text_files d));
  read_bytes := fun d p =>
    match dict_get (raw_files d) p with
    | Some raw => ReadOk raw
    | None => ReadNotFound (u "No such file or directory")
    end;
  write_text := fun d p content =>
    (IoOk, mk_fs (directories d) (raw_files d) (documents d)
                 (dict_set (text_files d) p content));
  json_load := fun d p =>
    match dict_get (documents d) p with
    | Some v => Loaded v
    | None => LoadFileNotFound
    end;
  json_dump := fun d p v =>
    (IoOk, mk_fs (directories d) (raw_files d) (dict_set (documents d) p v)
                 (text_files d))
|}.

Definition empty_fs : simple_fs := mk_fs [] [] [] [].

Definition fresh {FS} (d : FS) : world FS := mk_world [] d.

(** A text of the development, given line by line. *)
Definition text (ls : list string) : str := join [LF] (map u ls).

(** The lines printed, among the events of a run. *)
Definition printed (es : list event) : list str :=
  flat_map (fun e => match e with Print l => [l] | _ => [] end) es.

(** The warnings among them. *)
Definition is_warning (e : event) : bool :=
  match e with
  | Print l => startswith (u "Warning:") l
  | _ => false
  end.

(** The calls to write a file, each with the path and the text. *)
Definition writes (es : list event) : list (str * str) :=
  flat_map (fun e => match e with WriteFile p c => [(p, c)] | _ => [] end) es.

Open Scope string_scope.

(** A mailbox of two messages. *)
Definition sample_segments : list str :=
  [ text ["From alice@example.com Mon Jan  1 00:00:00 2005";
          "Subject: Hi"; "X-CCC-HASH: deadbeef"; ""; "Hello there."; ""];
    text ["From bob@example.com Tue Jan  2 00:00:00 2005";
          "Subject: Re: Hi"; ""; "Bye."] ].

(** A mailbox of one message, with a line of other text before it. *)
Definition junk_mailbox : str :=
  text ["junk"; "From bob@example.com Tue Jan  2 00:00:00 2005";
        "Subject: Hi"; ""; "Bye."].

(** A message with a folded header. *)
Definition folded_message : str :=
  text ["From carol@example.com"; "To: a@example.com,";
        " b@example.com,"; "	c@example.com"; "Subject: three"; ""; "x"].

(** A message that gives one key twice, the second time with a
    continuation line. *)
Definition duplicate_message : str :=
  text ["From dave@example.com"; "A: 1"; "B: 2"; "A: 3"; " more"].

(** A message in two parts: up to the blank line that ends the header
    block, and after it. *)
Definition sample_head : str :=
  text ["From a@example.com"; "Subject: Hi"; ""; ""].
Definition sample_trailing : str :=
  text ["Hello there."; ""; "Bye."; ""].

(** Headers and records of the data model, from literals. *)
Definition string_headers (hdrs : list (string * string)) : dict json :=
  map (fun kv => (u (fst kv), JStr (u (snd kv)))) hdrs.

Definition record (hdrs : list (string * string)) (b : string) : json :=
  JObj [(u "headers", JObj (string_headers hdrs)); (u "body", JStr (u b))].

(** A file system that holds one document, [emails.json]. *)
Definition disk_with (emails_data : list json) : simple_fs :=
  mk_fs [] [] [(u "emails.json", JArr emails_data)] [].

(** Two records that share their subject, after an element that is not a
    record. *)
Definition clashing_records : list json :=
  [record [("Subject", "Hi")] "first"; record [("Subject", "Hi")] "second"].

Definition clashing_run : outcome unit * world simple_fs :=
  convert_json_to_eml (H := simple_os) (H0 := sample_builtins)
    (out := utf8_stdout) (u "emails.json") (u "eml_files")
    (fresh (disk_with (JInt 7 :: clashing_records))).

(** A record of the data model whose subject is one lone surrogate, as
    [json.load] makes of the escape [\ud800]. *)
Definition surrogate_record : json :=
  JObj [(u "headers", JObj [(u "Subject", JStr [0xD800%N])]);
        (u "body", JStr (u "x"))].

Definition surrogate_records : list json :=
  [record [("Subject", "one")] "1"; surrogate_record;
   record [("Subject", "two")] "2"].

(** A file with a byte that is not UTF-8 between two letters. *)
Definition disk_with_raw : simple_fs :=
  mk_fs [] [(u "year2005.txt", [x41; xff; x42])] [] [].

Close Scope string_scope.

(** A file system that holds the mailbox [year2005.txt]. *)
Definition disk_with_file (raw : list byte) : simple_fs :=
  mk_fs [] [(u "year2005.txt", raw)] [] [].

Definition read_only : str := u "Read-only file system".

(** The same file system when it cannot be written to: every call that
    would change it fails with an [OSError]. *)
Definition readonly_os : OS simple_fs := {|
  os_path_exists := os_path_exists (OS := simple_os);
  os_path_join := posix_join;
  os_getcwd := fun _ => TextOk (u "/");
  os_listdir_text := fun _ => TextOk (u "[]");
  os_makedirs := fun d _ => (IoOSError read_only, d);
  read_bytes := read_bytes (OS := simple_os);
  write_text := fun d _ _ => (IoOSError read_only, d);
  json_load := json_load (OS := simple_os);
  json_dump := fun d _ _ => (IoOSError read_only, d)
|}.

(** The same file system seen from a working directory that has been
    removed. *)
Definition adrift_os : OS simple_fs := {|
  os_path_exists := os_path_exists (OS := simple_os);
  os_path_join := posix_join;
  os_getcwd := fun _ => TextNotFound (u "[Errno 2] No such file or directory");
  os_listdir_text := fun _ =>
    TextNotFound (u "[Errno 2] No such file or directory: '.'");
  os_makedirs := os_makedirs (OS := simple_os);
  read_bytes := read_bytes (OS := simple_os);
  write_text := write_text (OS := simple_os);
  json_load := json_load (OS := simple_os);
  json_dump := json_dump (OS := simple_os)
|}.

(** The names a POSIX file system takes: a surrogate goes through only
    when it stands for a byte. *)
Definition fs_encodable (c : char) : bool :=
  negb (is_surrogate c) || in_range 0xDC80 0xDCFF c.

(** The same file system when [open] refuses the other names with a
    [UnicodeEncodeError]. *)
Definition strict_os : OS simple_fs := {|
  os_path_exists := os_path_exists (OS := simple_os);
  os_path_join := posix_join;
  os_getcwd := os_getcwd (OS := simple_os);
  os_listdir_text := os_listdir_text (OS := simple_os);
  os_makedirs := os_makedirs (OS := simple_os);
  read_bytes := read_bytes (OS := simple_os);
  write_text := fun d p content =>
    if forallb fs_encodable p then write_text (OS := simple_os) d p content
    else (IoException
            (u "'utf-8' codec can't encode character: surrogates not allowed"),
          d);
  json_load := json_load (OS := simple_os);
  json_dump := json_dump (OS := simple_os)
|}.

(** The run on an element that is not a record and [surrogate_records]. *)
Definition surrogate_run : outcome unit * world simple_fs :=
  convert_json_to_eml (H := strict_os) (H0 := sample_builtins)
    (out := utf8_stdout) (u "emails.json") (u "eml_files")
    (fresh (disk_with (JInt 7 :: surrogate_records))).

(** The members of a record whose subject is a number. *)
Definition numeric_subject : dict json :=
  [(u "headers", JObj [(u "Subject", JInt 5)])].

(* ================================================================== *)
(** * Part II: the vocabulary of the properties *)
(* ================================================================== *)

(** ** Texts and their lines *)

(** A text is blank when [strip] leaves nothing of it. *)
Definition blank (s : str) : bool := forallb is_space s.
Definition nonblank (s : str) : bool := negb (blank s).

(** A text that ends where a line ends: empty, or closed by a line feed. *)
Definition line_complete (s : str) : bool :=
  match rev s with
  | [] => true
  | c :: _ => char_eqb c LF
  end.

(** A text closed by a line boundary. *)
Definition line_closed (a : str) : bool :=
  match rev a with
  | c :: _ => is_linebreak c
  | [] => false
  end.

(** A carriage return and its line feed, one at the end of [a] and the
    other at the start of [b]. *)
Definition breaks_crlf (a b : str) : bool :=
  match rev a with
  | c :: _ => char_eqb c CR && startswith [LF] b
  | [] => false
  end.

(** The number of places where the pattern matches. *)
Fixpoint anchors (bol : bool) (s : str) : nat :=
  match s with
  | [] => 0
  | c :: s' =>
      (if bol && startswith From_ s then 1 else 0)
      + anchors (char_eqb c LF) s'
  end.

(** One message: an envelope line and no other. *)
Definition is_segment (seg : str) : bool :=
  startswith From_ seg && (anchors true seg =? 1).

(** ** Dictionaries *)

Definition keys {V} (d : dict V) : list str := map fst d.

(** How many entries a dictionary has under a key. *)
Definition count_key {V} (k : str) (d : dict V) : nat :=
  List.length (filter (fun kv => str_eqb (fst kv) k) d).

(** ** The loops of [parse_mbox], on the lines themselves *)

Section ParseVocabulary.
Context `{UnicodeDB}.

(** One turn of the first inner loop, on the line itself. *)
Definition scan_pure (st : scan_state) (line : str) : scan_state :=
  if header_section st && blank line
  then mk_scan false (header_lines st) (body_lines st)
  else if header_section st
  then mk_scan true (header_lines st ++ [line]) (body_lines st)
  else mk_scan false (header_lines st) (body_lines st ++ [line]).

(** One turn of the header loop. *)
Definition header_pure (st : header_state) (header_line : str)
  : header_state :=
  let '(hdrs, current_header_key) := st in
  if is_continuation header_line
  then match current_header_key with
       | Some k =>
           if truthy k && dict_mem k hdrs
           then (dict_set hdrs k (dict_get_default hdrs k []
                                    ++ [LF] ++ strip header_line),
                 current_header_key)
           else st
       | None => st
       end
  else match re_match_header header_line with
       | Some (key, value) =>
           if negb (dict_mem key hdrs)
           then (dict_set hdrs key (strip value), Some key)
           else st
       | None => st
       end.

Definition parse_headers (ls : list str) : header_state :=
  fold_left header_pure ls ([], None).

(** The record [parse_mbox] makes of one piece that is not blank. *)
Definition record_of (email_text : str) : email :=
  let rest := tl (splitlines email_text) in
  mk_email (fst (parse_headers (take_while nonblank rest)))
           (join [LF] (tl (drop_while nonblank rest))).

(** What a run of [parse_mbox] returns and prints. *)
Definition records_of (mbox_content : str) : list email :=
  map record_of (filter nonblank (re_split_From mbox_content)).

Definition nothing_found (mbox_content : str) : bool :=
  match re_split_From mbox_content with
  | [first] => blank first
  | _ => false
  end.

(** The key a line gives, if it has the form [key: value]. *)
Definition key_of (line : str) : option str :=
  option_map fst (re_match_header line).

(** What a continuation line adds to a value. *)
Definition folded (conts : list str) : str :=
  flat_map (fun c => LF :: strip c) conts.

(** Where the folding of continuation lines under [key] stops: at the end
    of the lines, at a blank line, or at a line that brings a new key. *)
Definition folding_ends (key : str) (before after : list str) : Prop :=
  match after with
  | [] => True
  | p :: _ =>
      blank p = true
      \/ exists k2, key_of p = Some k2 /\ k2 <> key
                    /\ Forall (fun l => key_of l <> Some k2) before
  end.

End ParseVocabulary.

(** ** Records and the files made of them *)

(** The three steps on a string. *)
Definition sanitized (s : str) : str :=
  firstn 200 (collapse_whitespace false (remove_invalid s)).

(** A header that is there with a truthy value. *)
Definition usable (hdrs : dict json) (k : str) : bool :=
  match dict_get hdrs k with
  | Some v => json_truthy v
  | None => false
  end.

Definition fallback_name (i : nat) : str :=
  u "email_" ++ str_of_nat (i + 1) ++ u ".eml".

Definition headers_of (obj : dict json) : json :=
  dict_get_default obj (u "headers") (JObj []).

Definition body_of (obj : dict json) : json :=
  dict_get_default obj (u "body") (JStr []).

(** An element the loop does not skip: an object whose headers, when it
    has any, are an object. *)
Definition is_record (v : json) : bool :=
  match v with
  | JObj obj => match headers_of obj with JObj _ => true | _ => false end
  | _ => false
  end.

Definition string_valued (hdrs : dict json) : bool :=
  forallb (fun kv => match snd kv with JStr _ => true | _ => false end) hdrs.

(** A record of the data model: its headers map names to strings. *)
Definition valid_record (v : json) : bool :=
  match v with
  | JObj obj =>
      match headers_of obj with
      | JObj hdrs => string_valued hdrs
      | _ => false
      end
  | _ => false
  end.

(** The text of a failure, empty when there is none. *)
Definition io_message (r : io_result) : str :=
  match r with
  | IoOk => []
  | IoFileNotFound m | IoOSError m | IoException m => m
  end.

Section ExportVocabulary.
Context {FS : Type} `{OS FS} `{PyBuiltins} {out : Stdout}.

(** The name of the file of a record with string headers. *)
Definition filename_for (hdrs : dict json) (i : nat) : str :=
  if usable hdrs X_CCC_HASH
  then str_of (dict_get_default hdrs X_CCC_HASH (JStr [])) ++ u ".eml"
  else match dict_get hdrs Subject with
       | Some (JStr s) =>
           if truthy (sanitized s) then sanitized s ++ u ".eml"
           else fallback_name i
       | _ => fallback_name i
       end.

(** The file the loop writes for one element of the array, if any. *)
Definition write_for (output_dir : str) (item : nat * json)
  : list (str * str) :=
  match snd item with
  | JObj obj =>
      match headers_of obj with
      | JObj hdrs =>
          [(os_path_join (FS := FS) output_dir (filename_for hdrs (fst item)),
            eml_content_of hdrs (body_of obj))]
      | _ => []
      end
  | _ => []
  end.

(** What the loop prints about one element can be encoded by standard
    output: the path of its file and, should the write fail, the text of
    the failure. *)
Definition reportable (output_dir : str) (item : nat * json) : Prop :=
  Forall (fun pc =>
            printable (fst pc) = true
            /\ forall d,
                 printable (io_message (fst (write_text d (fst pc) (snd pc))))
                 = true)
         (write_for output_dir item).

(** The output directory is there, or can be made. *)
Definition directory_ready (d : FS) (output_dir : str) : Prop :=
  os_path_exists d output_dir = true
  \/ fst (os_makedirs d output_dir) = IoOk.

Definition conversion_complete (n : nat) (output_dir : str) : str :=
  [LF] ++ u "Conversion complete. " ++ str_of_nat n
       ++ u " .eml files generated in '" ++ output_dir ++ u "'.".

End ExportVocabulary.

(** ** Decoded bytes *)

(** The characters kept when errors are ignored, and the text when they
    are replaced. *)
Definition kept (ds : list decoded) : str :=
  flat_map (fun d => match d with Char c => [c] | _ => [] end) ds.

Definition replaced (ds : list decoded) : str :=
  map (fun d => match d with Char c => c | _ => REPLACEMENT end) ds.

(** A byte that cannot start a character: a continuation byte, or a lead
    byte that UTF-8 does not use. *)
Definition undecodable_byte (b : byte) : bool :=
  match lead_byte (Byte.to_N b) with
  | inl Undecodable => true
  | _ => false
  end.

(** ** Further vocabulary *)

(** The text before the first envelope line. *)
Definition preamble (mbox_content : str) : str :=
  hd [] (re_split_From mbox_content).

(** The lines of the header block of a message: those after the envelope
    line, up to the first blank one. *)
Definition header_block (segment : str) : list str :=
  take_while nonblank (tl (splitlines segment)).

(** A line of text: no line boundary in it. *)
Definition one_line (l : str) : bool :=
  forallb (fun c => negb (is_linebreak c)) l.

(** A name fit to be a file name as [sanitize_filename] sees it. *)
Definition clean_name (s : str) : Prop :=
  Forall (fun c => is_invalid_char c = false) s
  /\ Forall (fun c => is_space c = false) s
  /\ List.length s <= 200.

(** The text of the file made of a parsed record. *)
Definition eml_text (e : email) : str :=
  flat_map (fun kv => fst kv ++ u ": " ++ snd kv ++ [LF]) (headers e)
  ++ [LF] ++ body e.

(** The headers of a parsed record, as [json.dump] and [json.load] pass
    them on. *)
Definition json_headers (e : email) : dict json :=
  map (fun kv => (fst kv, JStr (snd kv))) (headers e).

(** The lines of the two handlers of [extract_emails_to_json]. *)
Definition input_not_found (input_filename : str) : str :=
  u "Error: Input file '" ++ input_filename ++ u "' not found.".

Definition error_occurred (message : str) : str :=
  u "An error occurred: " ++ message.

(** The line printed for a call that failed. *)
Definition failure_line (input_filename : str) (r : io_result) : str :=
  match r with
  | IoFileNotFound _ => input_not_found input_filename
  | _ => error_occurred (io_message r)
  end.

(** The dumps among the events of a run. *)
Definition dumps (es : list event) : list event :=
  filter (fun e => match e with DumpJson _ _ => true | _ => false end) es.

(** The events of a run of [extract_emails_to_json]: lines printed, and
    the dump to the output file. *)
Definition extract_event (output_filename : str) (e : event) : Prop :=
  match e with
  | Print _ => True
  | DumpJson p _ => p = output_filename
  | _ => False
  end.

(* ================================================================== *)
(** * Part III: properties *)
(* ================================================================== *)

(** ** Strings and lists *)

Lemma char_eqb_eq (a b : char) : char_eqb a b = true <-> a = b.
Proof. apply N.eqb_eq. Qed.

Lemma char_eqb_refl (a : char) : char_eqb a a = true.
Proof. apply N.eqb_refl. Qed.

Lemma str_eqb_eq (a b : str) : str_eqb a b = true <-> a = b.
Proof.
  revert b; induction a as [|x a IH]; intros [|y b]; simpl;
    try (split; [discriminate | discriminate]); [tauto|].
  rewrite andb_true_iff, char_eqb_eq, IH.
  split; [intros [-> ->]; reflexivity | intros E; inversion E; auto].
Qed.

Lemma str_eqb_refl (a : str) : str_eqb a a = true.
Proof. apply str_eqb_eq; reflexivity. Qed.

Lemma str_eqb_neq (a b : str) : str_eqb a b = false <-> a <> b.
Proof.
  rewrite <- str_eqb_eq. destruct (str_eqb a b); split; congruence.
Qed.

Lemma take_drop_while {A} (f : A -> bool) (l : list A) :
  take_while f l ++ drop_while f l = l.
Proof.
  induction l as [|x l IH]; simpl; [reflexivity|].
  destruct (f x); simpl; [rewrite IH|]; reflexivity.
Qed.

Lemma take_while_all {A} (f : A -> bool) (l : list A) :
  Forall (fun x => f x = true) (take_while f l).
Proof.
  induction l as [|x l IH]; simpl; [constructor|].
  destruct (f x) eqn:E; constructor; assumption.
Qed.

Lemma drop_while_nil {A} (f : A -> bool) (l : list A) :
  drop_while f l = [] <-> forallb f l = true.
Proof.
  induction l as [|x l IH]; simpl; [tauto|].
  destruct (f x); simpl; [exact IH | split; discriminate].
Qed.

Lemma take_while_app {A} (f : A -> bool) (l1 l2 : list A) :
  Forall (fun x => f x = true) l1 ->
  take_while f (l1 ++ l2) = l1 ++ take_while f l2.
Proof.
  induction 1 as [|x l1 Hx _ IH]; simpl; [reflexivity|].
  rewrite Hx, IH; reflexivity.
Qed.

Lemma drop_while_app {A} (f : A -> bool) (l1 l2 : list A) :
  Forall (fun x => f x = true) l1 ->
  drop_while f (l1 ++ l2) = drop_while f l2.
Proof.
  induction 1 as [|x l1 Hx _ IH]; simpl; [reflexivity|].
  rewrite Hx, IH; reflexivity.
Qed.

Lemma truthy_strip (s : str) : truthy (strip s) = negb (blank s).
Proof.
  unfold strip, rstrip, lstrip, blank.
  destruct (forallb is_space s) eqn:E.
  - apply drop_while_nil in E. rewrite E. reflexivity.
  - simpl.
    destruct (drop_while is_space s) as [|c t] eqn:D.
    + apply drop_while_nil in D. congruence.
    + assert (Hc : is_space c = false).
      { clear E. induction s as [|x s IH]; simpl in D; [discriminate|].
        destruct (is_space x) eqn:X; [auto|]. inversion D; subst; exact X. }
      destruct (drop_while is_space (rev (c :: t))) as [|c' t'] eqn:D'.
      * apply drop_while_nil in D'. rewrite forallb_forall in D'.
        rewrite (D' c) in Hc; [discriminate|].
        apply in_rev. rewrite rev_involutive. left; reflexivity.
      * destruct (rev (c' :: t')) eqn:R; [|reflexivity].
        apply (f_equal (@rev _)) in R. rewrite rev_involutive in R.
        discriminate.
Qed.

Lemma startswith_app (p s : str) : startswith p (p ++ s) = true.
Proof.
  induction p as [|x p IH]; simpl; [reflexivity|].
  rewrite char_eqb_refl; exact IH.
Qed.

Lemma startswith_inv (p s : str) :
  startswith p s = true -> exists t, s = p ++ t.
Proof.
  revert s; induction p as [|x p IH]; intros s Hs; simpl in *.
  - exists s; reflexivity.
  - destruct s as [|y s]; [discriminate|].
    apply andb_true_iff in Hs as [E Hs]. apply char_eqb_eq in E; subst.
    destruct (IH _ Hs) as [t ->]. exists t; reflexivity.
Qed.

Lemma From_not_blank (s : str) : startswith From_ s = true -> blank s = false.
Proof.
  intros Hs. apply startswith_inv in Hs as [t ->]. reflexivity.
Qed.

Lemma splitlines_from_nil (b : bool) (s : str) :
  splitlines_from b s = [] -> blank s = true.
Proof.
  revert b; induction s as [|c s IH]; intros b; simpl; [reflexivity|].
  destruct (b && char_eqb c LF) eqn:E.
  - intros Hs. apply andb_true_iff in E as [_ E]. apply char_eqb_eq in E.
    subst c. simpl. eauto.
  - destruct (is_linebreak c); [discriminate|].
    destruct (splitlines_from false s); discriminate.
Qed.

Lemma splitlines_truthy (s : str) :
  blank s = false -> truthy (splitlines s) = true.
Proof.
  intros Hs. destruct (splitlines s) eqn:E; [|reflexivity].
  apply splitlines_from_nil in E. congruence.
Qed.

(** ** Running statements *)

Lemma bind_Return {W A B} (c : Py W A) (k : A -> Py W B) w a w' :
  c w = (Return a, w') -> bind c k w = k a w'.
Proof. intros E. unfold bind. rewrite E. reflexivity. Qed.

(** ** Printing *)

Section Printing.
Context {out : Stdout} {FS : Type}.

Lemma printable_app (a b : str) :
  printable (a ++ b) = printable a && printable b.
Proof. apply forallb_app. Qed.

Lemma printable_digits (d : Decimal.uint) :
  printable (u (NilEmpty.string_of_uint d)) = true.
Proof. induction d; simpl; auto. Qed.

Lemma printable_str_of_nat (n : nat) : printable (str_of_nat n) = true.
Proof. apply printable_digits. Qed.

Lemma print_run (line : str) (w : world FS) :
  printable line = true ->
  print line w = (Return tt, mk_world (trace w ++ [Print line]) (disk w)).
Proof. intros P. unfold print. rewrite P. reflexivity. Qed.

Lemma print_refused (line : str) (w : world FS) :
  printable line = false ->
  print line w = (Raise (UnicodeEncodeError (stdout_error_text line)), w).
Proof. intros P. unfold print. rewrite P. reflexivity. Qed.

(** A line is printed, or refused. *)
Lemma print_cases (line : str) (w : world FS) :
  print line w = (Return tt, mk_world (trace w ++ [Print line]) (disk w))
  \/ (printable line = false
      /\ print line w = (Raise (UnicodeEncodeError (stdout_error_text line)), w)).
Proof.
  destruct (printable line) eqn:P.
  - left. apply print_run. exact P.
  - right. split; [reflexivity|]. apply print_refused. exact P.
Qed.

End Printing.

(** A line put together from constant text, numbers and texts known to
    be printable. *)
Ltac solve_printable :=
  rewrite ?printable_app, ?printable_str_of_nat;
  repeat match goal with
         | P : printable _ = true |- _ => rewrite P
         end;
  reflexivity.

(** The lines about the elements of a concrete array, on a concrete file
    system. *)
Ltac solve_reportable :=
  repeat first [ apply Forall_nil | apply Forall_cons
               | progress unfold reportable
               | split | intro | reflexivity ].

(** A loop whose body always returns what a pure step gives, and leaves
    the world alone, is a fold. *)
Lemma for_each_pure {W A S} (body : S -> A -> Py W S) (step : S -> A -> S)
      (xs : list A) :
  (forall s x w, In x xs -> body s x w = (Return (step s x), w)) ->
  forall s w, for_each xs body s w = (Return (fold_left step xs s), w).
Proof.
  induction xs as [|x xs IH]; intros Hb s w; simpl; [reflexivity|].
  rewrite (bind_Return _ _ _ (Hb s x w (or_introl eq_refl))).
  apply IH. intros; apply Hb; right; assumption.
Qed.

(** ** The loops of [parse_mbox], as folds *)

Section ParseMboxRuns.
Context `{UnicodeDB} {FS : Type} {out : Stdout}.

Lemma scan_line_pure (lines : list str) (st : scan_state) (i : nat)
      (x : str) (w : world FS) :
  nth_error lines i = Some x ->
  scan_line lines st i w = (Return (scan_pure st x), w).
Proof.
  intros E. unfold scan_line, getitem, bind. rewrite E. unfold ret at 1.
  rewrite truthy_strip, negb_involutive. unfold scan_pure.
  destruct (header_section st) eqn:Hs; simpl; [destruct (blank x)|];
    reflexivity.
Qed.

Lemma scan_loop (pre rest : list str) :
  forall (st : scan_state) (w : world FS),
    for_each (seq (List.length pre) (List.length rest))
             (scan_line (FS := FS) (pre ++ rest)) st w
    = (Return (fold_left scan_pure rest st), w).
Proof.
  revert pre; induction rest as [|x rest IH]; intros pre st w;
    [reflexivity|].
  cbn [for_each seq List.length fold_left].
  erewrite bind_Return; cycle 1.
  { apply scan_line_pure. rewrite nth_error_app2, Nat.sub_diag by lia.
    reflexivity. }
  specialize (IH (pre ++ [x])). rewrite <- app_assoc in IH. simpl in IH.
  rewrite length_app in IH. simpl in IH. rewrite Nat.add_1_r in IH.
  apply IH.
Qed.

Lemma scan_body_mode (rest : list str) hl bl :
  fold_left scan_pure rest (mk_scan false hl bl) = mk_scan false hl (bl ++ rest).
Proof.
  revert bl; induction rest as [|x rest IH]; intros bl; simpl.
  - rewrite app_nil_r; reflexivity.
  - unfold scan_pure at 2; simpl. rewrite IH, <- app_assoc. reflexivity.
Qed.

(** The header block is the run of non-blank lines, the body what follows
    the blank line that ends it. *)
Lemma scan_header_mode (rest : list str) hl bl :
  fold_left scan_pure rest (mk_scan true hl bl)
  = mk_scan (match drop_while nonblank rest with [] => true | _ => false end)
            (hl ++ take_while nonblank rest)
            (bl ++ tl (drop_while nonblank rest)).
Proof.
  revert hl; induction rest as [|x rest IH]; intros hl; simpl.
  - rewrite !app_nil_r; reflexivity.
  - unfold scan_pure at 2; simpl.
    unfold nonblank at 1 3 5.
    destruct (blank x) eqn:B; simpl.
    + rewrite scan_body_mode, app_nil_r. reflexivity.
    + rewrite IH, <- app_assoc. reflexivity.
Qed.

Lemma header_step_pure (st : header_state) (l : str) (w : world FS) :
  header_step st l w = (Return (header_pure st l), w).
Proof.
  destruct st as [d cur]. unfold header_step, header_pure.
  destruct (is_continuation l).
  - destruct cur as [k|]; [|reflexivity].
    destruct (truthy k && dict_mem k d) eqn:E; [|reflexivity].
    apply andb_true_iff in E as [_ E]. unfold dict_mem in E.
    unfold dict_getitem, dict_get_default, bind.
    destruct (dict_get d k); [reflexivity | discriminate].
  - destruct (re_match_header l) as [[key value]|]; [|reflexivity].
    destruct (negb (dict_mem key d)); reflexivity.
Qed.

Lemma parse_part_run (emails : list email) (email_text : str) (w : world FS) :
  parse_part emails email_text w
  = (Return (if blank email_text then emails
             else emails ++ [record_of email_text]), w).
Proof.
  unfold parse_part. rewrite truthy_strip, negb_involutive.
  destruct (blank email_text) eqn:B; [reflexivity|].
  rewrite (splitlines_truthy _ B). simpl negb. cbv iota.
  unfold record_of.
  destruct (splitlines email_text) as [|env rest] eqn:L.
  { apply splitlines_from_nil in L. congruence. }
  cbn [negb tl List.length]. rewrite Nat.sub_succ, Nat.sub_0_r.
  pose proof (scan_loop [env] rest (mk_scan true [] []) w) as S.
  cbn [List.length app] in S. rewrite (bind_Return _ _ _ S).
  rewrite scan_header_mode. cbn [header_lines body_lines app].
  erewrite bind_Return
    by (apply for_each_pure; intros; apply header_step_pure).
  reflexivity.
Qed.

Lemma parse_parts_run (parts : list str) :
  forall (emails : list email) (w : world FS),
    for_each parts parse_part emails w
    = (Return (emails ++ map record_of (filter nonblank parts)), w).
Proof.
  induction parts as [|p parts IH]; intros emails w; simpl.
  - rewrite app_nil_r; reflexivity.
  - rewrite (bind_Return _ _ _ (parse_part_run emails p w)).
    rewrite IH. unfold nonblank at 2.
    destruct (blank p); simpl; [reflexivity|].
    rewrite <- app_assoc. reflexivity.
Qed.

Lemma re_split_at_truthy (b : bool) (s : str) : truthy (re_split_at b s) = true.
Proof.
  destruct s as [|c s]; simpl; [reflexivity|].
  destruct (b && _); reflexivity.
Qed.

Lemma parse_mbox_run (mbox_content : str) (w : world FS) :
  parse_mbox mbox_content w
  = (Return (records_of mbox_content),
     if nothing_found mbox_content
     then mk_world (trace w ++ [Print no_emails_found]) (disk w)
     else w).
Proof.
  unfold parse_mbox, records_of, nothing_found, re_split_From.
  pose proof (re_split_at_truthy true mbox_content) as T.
  destruct (re_split_at true mbox_content) as [|first parts]; [discriminate|].
  clear T. cbn [truthy].
  erewrite bind_Return with (a := if blank first then parts else first :: parts);
    cycle 1.
  { unfold getitem. cbn [nth_error]. unfold bind, ret at 1.
    rewrite truthy_strip, negb_involutive.
    destruct (blank first); reflexivity. }
  cbn [filter].
  replace (nonblank first) with (negb (blank first)) by reflexivity.
  destruct (blank first) eqn:B; cbn [negb].
  - destruct parts as [|p parts]; cbn [truthy negb].
    + reflexivity.
    + rewrite parse_parts_run. reflexivity.
  - cbn [truthy negb]. rewrite parse_parts_run. cbn [app map filter].
    replace (nonblank first) with (negb (blank first)) by reflexivity.
    rewrite B. destruct parts; reflexivity.
Qed.

End ParseMboxRuns.

(** ** Splitting at the envelope lines *)

Lemma re_split_at_concat (b : bool) (s : str) : List.concat (re_split_at b s) = s.
Proof.
  revert b; induction s as [|c s IH]; intros b; [reflexivity|].
  cbn [re_split_at]. specialize (IH (char_eqb c LF)).
  pose proof (re_split_at_truthy (char_eqb c LF) s) as T.
  destruct (re_split_at (char_eqb c LF) s) as [|p ps]; [discriminate|].
  cbn [hd tl]. simpl in IH.
  destruct (b && startswith From_ (c :: s)); simpl; rewrite IH; reflexivity.
Qed.

Lemma re_split_at_length (b : bool) (s : str) :
  List.length (re_split_at b s) = S (anchors b s).
Proof.
  revert b; induction s as [|c s IH]; intros b; [reflexivity|].
  cbn [re_split_at anchors]. specialize (IH (char_eqb c LF)).
  pose proof (re_split_at_truthy (char_eqb c LF) s) as T.
  destruct (re_split_at (char_eqb c LF) s) as [|p ps]; [discriminate|].
  cbn [hd tl]. simpl in IH.
  destruct (b && startswith From_ (c :: s)); simpl; lia.
Qed.

(** Every piece but the first starts with an envelope line. *)
Lemma re_split_at_anchored (b : bool) (s : str) :
  Forall (fun p => startswith From_ p = true) (tl (re_split_at b s)).
Proof.
  revert b; induction s as [|c s IH]; intros b; [constructor|].
  cbn [re_split_at]. specialize (IH (char_eqb c LF)).
  pose proof (re_split_at_concat (char_eqb c LF) s) as C.
  pose proof (re_split_at_truthy (char_eqb c LF) s) as T.
  destruct (re_split_at (char_eqb c LF) s) as [|p ps]; cbn [hd tl] in *.
  - discriminate T.
  - clear T. destruct (b && startswith From_ (c :: s)) eqn:E; cbn [tl]; [|assumption].
    constructor; [|assumption].
    apply andb_true_iff in E as [_ E].
    apply startswith_inv in E as [t E].
    assert (L : (5 <= List.length (c :: p))%nat).
    { (* the piece reaches at least to the end of the envelope marker *)
      destruct p as [|c1 [|c2 [|c3 [|c4 p]]]]; simpl; try lia;
        exfalso; rewrite <- C in E; clear C;
        (destruct ps as [|q ps];
         [ discriminate E
         | inversion IH as [|? ? Hq _];
           apply startswith_inv in Hq as [t' ->];
           simpl in E; injection E; intros; discriminate ]). }
    assert (P : c :: p = firstn (List.length (c :: p)) (c :: s)).
    { rewrite <- C. cbn [List.concat].
      change (c :: p ++ List.concat ps) with ((c :: p) ++ List.concat ps).
      rewrite firstn_app, firstn_all, Nat.sub_diag. simpl.
      rewrite app_nil_r. reflexivity. }
    rewrite P, E. clear - L.
    destruct (List.length (c :: p)) as [|[|[|[|[|n]]]]]; try lia.
    reflexivity.
Qed.

Lemma re_split_at_blank (b : bool) (s : str) :
  blank s = true -> re_split_at b s = [s].
Proof.
  revert b; induction s as [|c s IH]; intros b Hs; [reflexivity|].
  simpl in Hs. apply andb_true_iff in Hs as [Hc Hs].
  cbn [re_split_at]. rewrite (IH _ Hs). cbn [hd tl].
  destruct (startswith From_ (c :: s)) eqn:E.
  - apply startswith_inv in E as [t E]. injection E as -> _.
    discriminate Hc.
  - rewrite andb_false_r. reflexivity.
Qed.

Lemma line_complete_cons (c : char) (s : str) :
  line_complete (c :: s) = true ->
  (s = [] /\ c = LF) \/ (s <> [] /\ line_complete s = true).
Proof.
  unfold line_complete. simpl.
  destruct (rev s) as [|x r] eqn:R; simpl.
  - intros E. apply char_eqb_eq in E. left. split; [|assumption].
    apply (f_equal (@rev _)) in R. rewrite rev_involutive in R. assumption.
  - intros E. right. split; [|assumption]. intros ->. discriminate.
Qed.

(** A complete line cannot lend the beginning of an envelope marker to the
    text that follows it. *)
Lemma startswith_From_app (s t : str) :
  s <> [] -> line_complete s = true ->
  startswith From_ (s ++ t) = startswith From_ s.
Proof.
  intros Hs Hl.
  assert (G : forall p, ~ In LF p ->
            startswith p (s ++ t) = startswith p s).
  { destruct s as [|c s]; [congruence|]. clear Hs.
    revert c Hl. induction s as [|c' s IH]; intros c Hl p Hp;
      (destruct p as [|x p]; [reflexivity|]);
      destruct (line_complete_cons _ _ Hl) as [[E ->]|[Hn Hl']];
      try discriminate E; try congruence.
    - simpl. replace (char_eqb x LF) with false; [reflexivity|].
      symmetry. apply N.eqb_neq. intros ->. apply Hp. left; reflexivity.
    - change (char_eqb x c && startswith p ((c' :: s) ++ t)
              = char_eqb x c && startswith p (c' :: s)).
      rewrite (IH _ Hl'); [reflexivity|].
      intros Hi. apply Hp. right; exact Hi. }
  apply G. vm_compute. intuition discriminate.
Qed.

Lemma re_split_at_head_anchor (s : str) :
  startswith From_ s = true -> hd [] (re_split_at true s) = [].
Proof.
  destruct s as [|c s]; [reflexivity|]. intros E.
  cbn [re_split_at]. rewrite E. reflexivity.
Qed.

(** Splitting a text that continues, after a complete line, with an
    envelope line (or with nothing). *)
Lemma re_split_at_app (s1 s2 : str) :
  forall b,
    line_complete s1 = true -> (s1 = [] -> b = true) ->
    s2 = [] \/ startswith From_ s2 = true ->
    re_split_at b (s1 ++ s2) = re_split_at b s1 ++ tl (re_split_at true s2).
Proof.
  induction s1 as [|c s1 IH]; intros b Hl Hb H2.
  - rewrite (Hb eq_refl). simpl app at 1.
    pose proof (re_split_at_truthy true s2) as T.
    destruct H2 as [->|H2]; [reflexivity|].
    apply re_split_at_head_anchor in H2.
    destruct (re_split_at true s2); [discriminate T|].
    simpl in H2; subst. reflexivity.
  - change ((c :: s1) ++ s2) with (c :: (s1 ++ s2)).
    cbn [re_split_at].
    change (c :: s1 ++ s2) with ((c :: s1) ++ s2).
    rewrite startswith_From_app by (congruence || assumption).
    assert (R : re_split_at (char_eqb c LF) (s1 ++ s2)
                = re_split_at (char_eqb c LF) s1 ++ tl (re_split_at true s2)).
    { destruct (line_complete_cons _ _ Hl) as [[-> ->]|[Hn Hl']].
      - apply IH; auto.
      - apply IH; auto; congruence. }
    rewrite R.
    pose proof (re_split_at_truthy (char_eqb c LF) s1) as T.
    destruct (re_split_at (char_eqb c LF) s1) as [|p ps]; [discriminate T|].
    cbn [hd tl app].
    destruct (b && startswith From_ (c :: s1)); reflexivity.
Qed.

Lemma re_split_segment (seg : str) :
  is_segment seg = true -> re_split_at true seg = [[]; seg].
Proof.
  unfold is_segment. intros E. apply andb_true_iff in E as [E1 E2].
  apply Nat.eqb_eq in E2.
  pose proof (re_split_at_length true seg) as L. rewrite E2 in L.
  pose proof (re_split_at_concat true seg) as C.
  pose proof (re_split_at_head_anchor _ E1) as Hd.
  destruct (re_split_at true seg) as [|p0 [|p1 [|p2 ps]]]; try discriminate L.
  simpl in Hd, C. subst p0. rewrite app_nil_r in C. simpl in C. subst.
  reflexivity.
Qed.

Lemma segment_anchored (seg : str) :
  is_segment seg = true -> startswith From_ seg = true.
Proof. unfold is_segment. intros E. apply andb_true_iff in E. tauto. Qed.

(** A well-formed mailbox splits into its messages. *)
Lemma re_split_segments (segs : list str) :
  forall (s1 : str) (b : bool),
    line_complete s1 = true -> (s1 = [] -> b = true) ->
    Forall (fun seg => is_segment seg = true) segs ->
    Forall (fun seg => line_complete seg = true) (removelast segs) ->
    re_split_at b (s1 ++ List.concat segs) = re_split_at b s1 ++ segs.
Proof.
  induction segs as [|seg segs IH]; intros s1 b Hl Hb Hs Hc.
  - simpl. rewrite !app_nil_r. reflexivity.
  - inversion Hs as [|? ? Hseg Hs']; subst.
    cbn [List.concat]. rewrite re_split_at_app; auto.
    2:{ right. apply segment_anchored in Hseg.
        apply startswith_inv in Hseg as [t ->]. rewrite <- app_assoc.
        apply startswith_app. }
    f_equal.
    destruct segs as [|seg' segs].
    + simpl. rewrite app_nil_r, (re_split_segment _ Hseg). reflexivity.
    + cbn [removelast] in Hc. inversion Hc as [|? ? Hl1 Hc']; subst.
      rewrite IH; auto; try (intros ->; discriminate Hseg).
      rewrite (re_split_segment _ Hseg). reflexivity.
Qed.

(* ------------------------------------------------------------------ *)
(** ** Claims on [parse_mbox] *)
(* ------------------------------------------------------------------ *)

Section ParseMboxClaims.
Context `{UnicodeDB} {FS : Type} {out : Stdout}.

(** C1.  The claim does not hold of the code: a text without any
    envelope line that is not blank is taken as one piece, and the piece
    becomes a record (its first line dropped as if it were the envelope
    line), without the diagnostic. *)
Theorem parse_mbox_text_without_envelope (w : world FS) :
  anchors true (u "hello") = 0
  /\ parse_mbox (u "hello") w = (Return [mk_email [] []], w).
Proof.
  split; [reflexivity|]. rewrite parse_mbox_run. reflexivity.
Qed.

(** What does hold: the pieces after the first all start with an envelope
    line, and the first one is dropped only when it is blank. *)
Lemma parse_mbox_records_of_pieces (mbox_content : str) (w : world FS) :
  exists first rest w',
    re_split_From mbox_content = first :: rest
    /\ Forall (fun p => startswith From_ p = true) rest
    /\ List.concat (first :: rest) = mbox_content
    /\ parse_mbox mbox_content w
       = (Return ((if blank first then [] else [record_of first])
                  ++ map record_of rest), w').
Proof.
  pose proof (re_split_at_anchored true mbox_content) as A.
  pose proof (re_split_at_concat true mbox_content) as C.
  rewrite parse_mbox_run. unfold records_of, re_split_From in *.
  destruct (re_split_at true mbox_content) as [|first rest] eqn:E.
  { pose proof (re_split_at_truthy true mbox_content) as T.
    rewrite E in T. discriminate T. }
  eexists first, rest, _. repeat split; try assumption.
  f_equal. f_equal. cbn [filter tl] in *.
  replace (filter nonblank rest) with rest.
  - unfold nonblank. destruct (blank first); reflexivity.
  - clear - A. induction A as [|p rest Hp _ IH]; [reflexivity|].
    simpl. unfold nonblank at 1. rewrite (From_not_blank _ Hp). simpl.
    f_equal. exact IH.
Qed.

(** C7.  The claim does not hold of the code: text that is not blank
    before the first envelope line becomes a record of its own, so that a
    mailbox of one message after one such line gives two records.  The
    defect is that of C1. *)
Theorem parse_mbox_text_before_first_envelope (w : world FS) :
  anchors true junk_mailbox = 1
  /\ parse_mbox junk_mailbox w
     = (Return [mk_email [] [];
                mk_email [(u "Subject", u "Hi")] (u "Bye.")], w).
Proof.
  split; [reflexivity|]. rewrite parse_mbox_run. reflexivity.
Qed.

(** X24.  A mailbox made of N messages, each starting with an envelope
    line at the start of a line, with nothing but blank lines before the
    first, gives exactly N records, and the i-th record is what the loop
    body makes of the i-th message. *)
Theorem parse_mbox_one_record_per_segment
        (pre : str) (segs : list str) (w : world FS) :
  blank pre = true -> line_complete pre = true ->
  Forall (fun seg => is_segment seg = true) segs ->
  Forall (fun seg => line_complete seg = true) (removelast segs) ->
  exists emails w',
    parse_mbox (pre ++ List.concat segs) w = (Return emails, w')
    /\ List.length emails = List.length segs
    /\ forall i seg, nth_error segs i = Some seg ->
         exists e, nth_error emails i = Some e
                   /\ parse_part [] seg w = (Return [e], w).
Proof.
  intros Hb Hl Hs Hc. rewrite parse_mbox_run.
  exists (map record_of segs). eexists. split; [|split].
  - f_equal. unfold records_of, re_split_From.
    rewrite re_split_segments; auto.
    rewrite re_split_at_blank by exact Hb. cbn [app filter].
    unfold nonblank at 1. rewrite Hb. cbn [negb]. f_equal.
    clear - Hs. induction Hs as [|seg segs Hseg _ IH]; [reflexivity|].
    simpl. unfold nonblank at 1.
    rewrite (From_not_blank _ (segment_anchored _ Hseg)). simpl.
    f_equal. exact IH.
  - apply length_map.
  - intros i seg Hi. exists (record_of seg). split.
    + apply map_nth_error. exact Hi.
    + rewrite parse_part_run.
      assert (Hseg : is_segment seg = true).
      { rewrite Forall_forall in Hs. apply Hs.
        eapply nth_error_In; eassumption. }
      rewrite (From_not_blank _ (segment_anchored _ Hseg)). reflexivity.
Qed.

(** C9.  [parse_mbox] returns a list on every text, and leaves the file
    system alone; a header line that is neither a continuation nor of the
    form [key: value] leaves the variables of the header loop as they
    were, so that the loop runs as if the line were not there. *)
Theorem parse_mbox_never_raises (mbox_content : str) (w : world FS) :
  (exists emails w',
      parse_mbox mbox_content w = (Return emails, w') /\ disk w' = disk w)
  /\ (forall st l,
         is_continuation l = false -> re_match_header l = None ->
         header_step st l w = (Return st, w))
  /\ (forall before l after st,
         is_continuation l = false -> re_match_header l = None ->
         for_each (before ++ l :: after) header_step st w
         = for_each (before ++ after) header_step st w
         /\ exists st', for_each (before ++ after) header_step st w
                        = (Return st', w)).
Proof.
  split; [|split].
  - rewrite parse_mbox_run. do 2 eexists. split; [reflexivity|].
    destruct (nothing_found mbox_content); reflexivity.
  - intros [d cur] l Hc Hm. unfold header_step. rewrite Hc, Hm. reflexivity.
  - intros before l after st Hc Hm.
    rewrite !(for_each_pure header_step header_pure)
      by (intros; apply header_step_pure).
    rewrite !fold_left_app. cbn [fold_left].
    replace (header_pure (fold_left header_pure before st) l)
      with (fold_left header_pure before st).
    + split; [reflexivity | eexists; reflexivity].
    + destruct (fold_left header_pure before st) as [d cur].
      unfold header_pure. rewrite Hc, Hm. reflexivity.
Qed.

End ParseMboxClaims.

(** ** Dictionaries *)

Lemma dict_get_set_same {V} (d : dict V) k v :
  dict_get (dict_set d k v) k = Some v.
Proof.
  induction d as [|[k' v'] d IH]; simpl.
  - rewrite str_eqb_refl; reflexivity.
  - destruct (str_eqb k' k) eqn:E; simpl; rewrite E; auto.
Qed.

Lemma dict_get_set_other {V} (d : dict V) k v k' :
  k <> k' -> dict_get (dict_set d k v) k' = dict_get d k'.
Proof.
  intros N. induction d as [|[k0 v0] d IH]; simpl.
  - apply str_eqb_neq in N. rewrite N; reflexivity.
  - destruct (str_eqb k0 k) eqn:E; simpl.
    + apply str_eqb_eq in E; subst k0.
      apply str_eqb_neq in N. rewrite N; reflexivity.
    + destruct (str_eqb k0 k'); auto.
Qed.

Lemma dict_mem_In {V} (d : dict V) k : dict_mem k d = true <-> In k (keys d).
Proof.
  unfold dict_mem. induction d as [|[k' v'] d IH]; simpl.
  - split; [discriminate | tauto].
  - destruct (str_eqb k' k) eqn:E.
    + apply str_eqb_eq in E. split; auto.
    + apply str_eqb_neq in E. rewrite IH. split; [auto | intros [?|?]; tauto].
Qed.

Lemma keys_dict_set {V} (d : dict V) k v :
  keys (dict_set d k v) = if dict_mem k d then keys d else keys d ++ [k].
Proof.
  unfold dict_mem. induction d as [|[k' v'] d IH]; simpl; [reflexivity|].
  destruct (str_eqb k' k) eqn:E; simpl; [reflexivity|].
  rewrite IH. destruct (dict_get d k); reflexivity.
Qed.

Lemma count_key_NoDup {V} (d : dict V) k :
  NoDup (keys d) -> dict_mem k d = true -> count_key k d = 1.
Proof.
  unfold count_key. induction d as [|[k' v'] d IH]; simpl; intros N M.
  - discriminate M.
  - inversion N as [|? ? Hn N']; subst.
    unfold dict_mem in M. simpl in M.
    destruct (str_eqb k' k) eqn:E; simpl.
    + apply str_eqb_eq in E; subst k'. f_equal.
      clear - Hn. induction d as [|[k0 v0] d IH]; simpl; [reflexivity|].
      simpl in Hn. destruct (str_eqb k0 k) eqn:E; simpl.
      * apply str_eqb_eq in E. tauto.
      * apply IH. tauto.
    + apply IH; assumption.
Qed.

(** ** The header loop *)

Section HeaderLoop.
Context `{UnicodeDB}.

Lemma re_match_header_inv (l k v : str) :
  re_match_header l = Some (k, v) ->
  truthy k = true /\ is_continuation l = false /\ blank l = false.
Proof.
  unfold re_match_header. intros E.
  pose proof (take_drop_while is_key_char l) as TD.
  destruct (take_while is_key_char l) as [|c key] eqn:T; [discriminate|].
  destruct (drop_while is_key_char l) as [|x rest] eqn:D; [discriminate|].
  destruct (char_eqb x COLON) eqn:X; [|discriminate].
  apply char_eqb_eq in X. subst x. inversion E; subst k v.
  split; [reflexivity|]. split.
  - assert (K : is_key_char c = true).
    { pose proof (take_while_all is_key_char l) as A. rewrite T in A.
      inversion A; assumption. }
    rewrite <- TD. unfold is_continuation.
    cbn [app truthy startswith andb].
    destruct (char_eqb SPACE c) eqn:S1.
    { apply char_eqb_eq in S1. subst c. discriminate K. }
    destruct (char_eqb TAB c) eqn:S2.
    { apply char_eqb_eq in S2. subst c. discriminate K. }
    reflexivity.
  - rewrite <- TD. unfold blank.
    change ((c :: key) ++ COLON :: rest) with ((c :: key) ++ [COLON] ++ rest).
    rewrite !forallb_app. simpl. rewrite andb_false_r. reflexivity.
Qed.

(** The dictionary has unique keys all along. *)
Lemma header_pure_NoDup (st : header_state) (l : str) :
  NoDup (keys (fst st)) -> NoDup (keys (fst (header_pure st l))).
Proof.
  destruct st as [d cur]. unfold header_pure. simpl. intros N.
  destruct (is_continuation l).
  - destruct cur as [k|]; [|assumption].
    destruct (truthy k && dict_mem k d) eqn:E; [|assumption].
    apply andb_true_iff in E as [_ E]. simpl.
    rewrite keys_dict_set, E. assumption.
  - destruct (re_match_header l) as [[key value]|]; [|assumption].
    destruct (dict_mem key d) eqn:E; simpl; [assumption|].
    rewrite keys_dict_set, E.
    apply NoDup_app; [assumption | repeat constructor; simpl; tauto |].
    intros a Ha [<-|[]]. apply dict_mem_In in Ha. congruence.
Qed.

Lemma header_fold_NoDup (ls : list str) (st : header_state) :
  NoDup (keys (fst st)) -> NoDup (keys (fst (fold_left header_pure ls st))).
Proof.
  revert st; induction ls as [|l ls IH]; intros st N; simpl; [assumption|].
  apply IH, header_pure_NoDup, N.
Qed.

(** A key in the dictionary stays there, and its value only grows, by the
    continuation lines met on the way. *)
Lemma header_fold_grows (ls : list str) :
  forall (d : dict str) (cur : option str) (k v : str),
    dict_get d k = Some v ->
    exists cs,
      incl cs (filter is_continuation ls)
      /\ dict_get (fst (fold_left header_pure ls (d, cur))) k
         = Some (v ++ folded cs).
Proof.
  induction ls as [|l ls IH]; intros d cur k v G.
  - exists []. simpl. rewrite app_nil_r. split; [apply incl_refl | assumption].
  - cbn [fold_left filter]. unfold header_pure at 2.
    destruct (is_continuation l) eqn:C.
    + destruct cur as [k0|].
      * destruct (truthy k0 && dict_mem k0 d) eqn:E.
        -- destruct (list_eq_dec N.eq_dec k0 k) as [->|Nk].
           ++ destruct (IH (dict_set d k (dict_get_default d k [] ++ [LF] ++ strip l))
                           (Some k) k (v ++ [LF] ++ strip l)) as [cs [I G']].
              { rewrite dict_get_set_same. unfold dict_get_default.
                rewrite G. reflexivity. }
              exists (l :: cs). split.
              ** intros x [<-|Hx]; [left; reflexivity | right; apply I, Hx].
              ** rewrite G'. unfold folded. simpl.
                 rewrite <- !app_assoc. reflexivity.
           ++ destruct (IH (dict_set d k0 (dict_get_default d k0 [] ++ [LF] ++ strip l))
                           (Some k0) k v) as [cs [I G']].
              { rewrite dict_get_set_other; assumption. }
              exists cs. split; [apply incl_tl, I | exact G'].
        -- destruct (IH d (Some k0) k v G) as [cs [I G']].
           exists cs. split; [apply incl_tl, I | exact G'].
      * destruct (IH d None k v G) as [cs [I G']].
        exists cs. split; [apply incl_tl, I | exact G'].
    + destruct (re_match_header l) as [[key value]|].
      * destruct (dict_mem key d) eqn:E; simpl.
        -- apply (IH d cur k v G).
        -- apply IH. rewrite dict_get_set_other; [assumption|].
           intros ->. unfold dict_mem in E. rewrite G in E. discriminate.
      * apply (IH d cur k v G).
Qed.

(** Once another key is current, the value of a key does not change. *)
Lemma header_fold_frozen (ls : list str) :
  forall (d : dict str) (cur : option str) (k : str),
    cur <> Some k -> dict_mem k d = true ->
    dict_get (fst (fold_left header_pure ls (d, cur))) k = dict_get d k.
Proof.
  induction ls as [|l ls IH]; intros d cur k Nc M; [reflexivity|].
  cbn [fold_left]. unfold header_pure at 2.
  destruct (is_continuation l).
  - destruct cur as [k0|]; [|apply IH; assumption].
    destruct (truthy k0 && dict_mem k0 d); [|apply IH; assumption].
    assert (Nk : k0 <> k) by congruence.
    rewrite IH; [apply dict_get_set_other; assumption | assumption |].
    apply dict_mem_In. rewrite keys_dict_set.
    apply dict_mem_In in M. destruct (dict_mem k0 d); [|apply in_or_app]; auto.
  - destruct (re_match_header l) as [[key value]|]; [|apply IH; assumption].
    destruct (dict_mem key d) eqn:E; simpl; [apply IH; assumption|].
    assert (Nk : key <> k) by congruence.
    rewrite IH; [apply dict_get_set_other; assumption | congruence |].
    apply dict_mem_In. rewrite keys_dict_set, E.
    apply dict_mem_In in M. apply in_or_app; auto.
Qed.

(** The keys of the dictionary come from lines of the form [key: value]. *)
Lemma header_fold_keys (ls : list str) :
  forall (d : dict str) (cur : option str) (k : str),
    In k (keys (fst (fold_left header_pure ls (d, cur)))) ->
    In k (keys d) \/ exists l, In l ls /\ key_of l = Some k.
Proof.
  induction ls as [|l ls IH]; intros d cur k; [simpl; auto|].
  cbn [fold_left]. unfold header_pure at 2.
  assert (Later : forall d' cur',
             (In k (keys d') -> In k (keys d) \/ key_of l = Some k) ->
             In k (keys (fst (fold_left header_pure ls (d', cur')))) ->
             In k (keys d) \/ exists l0, In l0 (l :: ls) /\ key_of l0 = Some k).
  { intros d' cur' Hd Hk. destruct (IH _ _ _ Hk) as [Hk'|[l0 [Hl Hm]]].
    - destruct (Hd Hk'); [left; assumption|].
      right. exists l. split; [left; reflexivity | assumption].
    - right. exists l0. split; [right; assumption | assumption]. }
  destruct (is_continuation l).
  - destruct cur as [k0|]; [|apply Later; auto].
    destruct (truthy k0 && dict_mem k0 d) eqn:E; [|apply Later; auto].
    apply andb_true_iff in E as [_ E].
    apply Later. rewrite keys_dict_set, E. auto.
  - unfold key_of in *.
    destruct (re_match_header l) as [[key value]|]; [|apply Later; auto].
    destruct (dict_mem key d) eqn:E; simpl; [apply Later; auto|].
    apply Later. rewrite keys_dict_set, E. intros Hk.
    apply in_app_or in Hk as [Hk|[<-|[]]]; auto.
Qed.

(** A run of continuation lines under the current key. *)
Lemma header_fold_conts (conts : list str) :
  forall (d : dict str) (k v : str),
    truthy k = true -> dict_get d k = Some v ->
    Forall (fun c => is_continuation c = true) conts ->
    exists d',
      fold_left header_pure conts (d, Some k) = (d', Some k)
      /\ dict_get d' k = Some (v ++ folded conts)
      /\ keys d' = keys d.
Proof.
  induction conts as [|c conts IH]; intros d k v T G F.
  - exists d. simpl. rewrite app_nil_r. auto.
  - inversion F as [|? ? Hc F']; subst.
    cbn [fold_left]. unfold header_pure at 2.
    assert (M : dict_mem k d = true) by (unfold dict_mem; rewrite G; reflexivity).
    rewrite Hc, T, M. cbn [andb].
    destruct (IH (dict_set d k (dict_get_default d k [] ++ [LF] ++ strip c))
                 k (v ++ [LF] ++ strip c) T) as [d' [E [G' K]]]; auto.
    { rewrite dict_get_set_same. unfold dict_get_default. rewrite G.
      reflexivity. }
    exists d'. split; [exact E|]. split.
    + rewrite G'. unfold folded. simpl. rewrite <- !app_assoc. reflexivity.
    + rewrite K, keys_dict_set, M. reflexivity.
Qed.

End HeaderLoop.

(** ** Lines of a text that goes on *)

Lemma splitlines_from_skip (b : str) :
  startswith [LF] b = false -> splitlines_from true b = splitlines_from false b.
Proof.
  destruct b as [|c b]; [reflexivity|].
  cbn [startswith splitlines_from andb]. rewrite andb_true_r.
  unfold char_eqb. rewrite (N.eqb_sym LF c). intros ->. reflexivity.
Qed.

Lemma splitlines_from_app (a b : str) :
  line_closed a = true -> breaks_crlf a b = false ->
  forall f, splitlines_from f (a ++ b)
            = splitlines_from f a ++ splitlines_from false b.
Proof.
  unfold line_closed, breaks_crlf.
  induction a as [|c a IH]; [discriminate|].
  destruct a as [|x a'].
  - cbn [rev app]. intros Hc Hb f. cbn [splitlines_from].
    destruct (f && char_eqb c LF); [reflexivity|]. rewrite Hc.
    cbn [app]. f_equal. destruct (char_eqb c CR); [|reflexivity].
    apply splitlines_from_skip. exact Hb.
  - intros Hc Hb f.
    assert (R : rev (c :: x :: a') = rev (x :: a') ++ [c]) by reflexivity.
    rewrite R in Hc, Hb.
    destruct (rev (x :: a')) as [|y r] eqn:E.
    { apply (f_equal (@rev _)) in E. rewrite rev_involutive in E.
      discriminate E. }
    cbn [app] in Hc, Hb. specialize (IH Hc Hb).
    assert (Ne : splitlines_from false (x :: a') <> []).
    { simpl. destruct (is_linebreak x); [discriminate|].
      destruct (splitlines_from false a'); discriminate. }
    change ((c :: x :: a') ++ b) with (c :: ((x :: a') ++ b)).
    remember (x :: a') as a1 eqn:Ea. clear Ea.
    cbn [splitlines_from]. rewrite !IH.
    destruct (f && char_eqb c LF); [reflexivity|].
    destruct (is_linebreak c); [reflexivity|].
    destruct (splitlines_from false a1); [congruence | reflexivity].
Qed.

(* ------------------------------------------------------------------ *)
(** ** Claims on one message *)
(* ------------------------------------------------------------------ *)

Section MessageClaims.
Context `{UnicodeDB} {FS : Type} {out : Stdout}.

(** The record of a message whose lines after the envelope line start with
    [hs], none of them blank. *)
Lemma record_of_header_lines (segment env : str) (hs post : list str) :
  splitlines segment = env :: hs ++ post ->
  Forall (fun l => blank l = false) hs ->
  record_of segment
  = mk_email (fst (fold_left header_pure (take_while nonblank post)
                             (parse_headers hs)))
             (join [LF] (tl (drop_while nonblank post))).
Proof.
  intros L F. unfold record_of. rewrite L. cbn [tl].
  assert (F' : Forall (fun l => nonblank l = true) hs).
  { eapply Forall_impl; [|exact F]. intros l B. unfold nonblank.
    rewrite B. reflexivity. }
  rewrite take_while_app, drop_while_app by exact F'.
  unfold parse_headers. rewrite fold_left_app. reflexivity.
Qed.

(** C6.  When the text of a message is a header block closed by a blank
    line, followed by a trailing text, the body of its record is the
    trailing text with its lines joined by line feeds; the blank line is
    not part of it. *)
Theorem body_is_text_after_blank_line
        (emails : list email) (head trailing env blank_line : str)
        (hdrs : list str) (w : world FS) :
  blank (head ++ trailing) = false ->
  splitlines head = env :: hdrs ++ [blank_line] ->
  line_closed head = true -> breaks_crlf head trailing = false ->
  Forall (fun l => blank l = false) hdrs ->
  blank blank_line = true ->
  exists e,
    parse_part emails (head ++ trailing) w = (Return (emails ++ [e]), w)
    /\ body e = join [LF] (splitlines trailing)
    /\ headers e = fst (parse_headers hdrs).
Proof.
  intros Hn L Hc Hb F B. rewrite parse_part_run, Hn.
  eexists. split; [reflexivity|].
  assert (L' : splitlines (head ++ trailing)
               = env :: hdrs ++ blank_line :: splitlines trailing).
  { unfold splitlines in *. rewrite splitlines_from_app, L by assumption.
    cbn [app]. rewrite <- app_assoc. reflexivity. }
  rewrite (record_of_header_lines _ _ L' F).
  cbn [take_while drop_while]. unfold nonblank. rewrite B.
  split; reflexivity.
Qed.

Lemma fresh_key (ls : list str) (k : str) :
  Forall (fun l => key_of l <> Some k) ls ->
  dict_mem k (fst (parse_headers ls)) = false.
Proof.
  intros F. destruct (dict_mem k (fst (parse_headers ls))) eqn:M;
    [|reflexivity].
  apply dict_mem_In in M. unfold parse_headers in M.
  apply header_fold_keys in M as [[]|[l [Hl Hk]]].
  rewrite Forall_forall in F. destruct (F l Hl Hk).
Qed.

(** C4, as amended.  A header line that brings a new key, followed by
    lines that start with a space or a tab, gives one entry under the
    key, whose value is the trimmed value of the line followed by the
    trimmed continuation lines, each after a line feed; a continuation
    line met while no key is current changes nothing. *)
Theorem continuation_lines_fold
        (emails : list email) (segment env hl key value : str)
        (before conts after : list str) (w : world FS) :
  blank segment = false ->
  splitlines segment = env :: before ++ hl :: conts ++ after ->
  Forall (fun l => blank l = false) before ->
  Forall (fun l => key_of l <> Some key) before ->
  re_match_header hl = Some (key, value) ->
  Forall (fun c => is_continuation c = true /\ blank c = false) conts ->
  folding_ends key before after ->
  (exists e,
      parse_part emails segment w = (Return (emails ++ [e]), w)
      /\ dict_get (headers e) key = Some (strip value ++ folded conts)
      /\ count_key key (headers e) = 1)
  /\ (forall d l,
         is_continuation l = true ->
         header_step (d, None) l w = (Return (d, None), w)).
Proof.
  intros Hn L Fb Ff Hm Fc He. split.
  2:{ intros d l Hc. unfold header_step. rewrite Hc. reflexivity. }
  rewrite parse_part_run, Hn. eexists. split; [reflexivity|].
  destruct (re_match_header_inv _ Hm) as [Tk [Ch Bh]].
  assert (L' : splitlines segment = env :: (before ++ hl :: conts) ++ after).
  { rewrite L, <- app_assoc. reflexivity. }
  assert (F : Forall (fun l => blank l = false) (before ++ hl :: conts)).
  { apply Forall_app. split; [assumption|]. constructor; [assumption|].
    eapply Forall_impl; [|exact Fc]. simpl. tauto. }
  rewrite (record_of_header_lines _ _ L' F). cbn [headers].
  (* the state when the continuation lines have been read *)
  unfold parse_headers. rewrite fold_left_app. cbn [fold_left].
  pose proof (fresh_key Ff) as M0.
  pose proof (header_fold_NoDup before ([], None) (NoDup_nil _)) as N0.
  unfold parse_headers in M0.
  destruct (fold_left header_pure before ([], None)) as [d0 c0] eqn:E0.
  cbn [fst] in M0, N0.
  assert (E1 : header_pure (d0, c0) hl
               = (dict_set d0 key (strip value), Some key)).
  { unfold header_pure. rewrite Ch, Hm, M0. reflexivity. }
  rewrite E1.
  destruct (@header_fold_conts _ conts (dict_set d0 key (strip value))
                               key (strip value))
    as [d2 [E2 [G2 K2]]]; auto.
  { apply dict_get_set_same. }
  { eapply Forall_impl; [|exact Fc]. simpl. tauto. }
  rewrite E2.
  assert (N2 : NoDup (keys d2)).
  { rewrite K2. apply (header_pure_NoDup (d0, c0) hl) in N0.
    rewrite E1 in N0. exact N0. }
  assert (M2 : dict_mem key d2 = true).
  { unfold dict_mem. rewrite G2. reflexivity. }
  (* what comes after leaves the entry alone *)
  assert (G : dict_get (fst (fold_left header_pure (take_while nonblank after)
                                       (d2, Some key))) key
              = Some (strip value ++ folded conts)).
  { destruct after as [|p after']; [exact G2|].
    cbn [take_while]. unfold nonblank at 1.
    destruct He as [Bp|[k2 [Hk2 [Nk Fk]]]].
    - rewrite Bp. exact G2.
    - unfold key_of in Hk2.
      destruct (re_match_header p) as [[k2' v2]|] eqn:Hp; [|discriminate].
      simpl in Hk2. inversion Hk2; subst k2'.
      destruct (re_match_header_inv _ Hp) as [_ [Cp Bp]].
      rewrite Bp. cbn [negb fold_left].
      assert (M : dict_mem k2 d2 = false).
      { destruct (dict_mem k2 d2) eqn:M; [|reflexivity].
        apply dict_mem_In in M. rewrite K2, keys_dict_set, M0 in M.
        apply in_app_or in M as [M|[M|[]]]; [|congruence].
        apply dict_mem_In in M. pose proof (fresh_key Fk) as M'.
        unfold parse_headers in M'. rewrite E0 in M'. simpl in M'.
        congruence. }
      assert (E3 : header_pure (d2, Some key) p
                   = (dict_set d2 k2 (strip v2), Some k2)).
      { unfold header_pure. rewrite Cp, Hp, M. reflexivity. }
      rewrite E3, header_fold_frozen.
      + rewrite dict_get_set_other; [exact G2 | assumption].
      + congruence.
      + apply dict_mem_In. rewrite keys_dict_set, M.
        apply in_or_app. left. apply dict_mem_In. exact M2. }
  split; [exact G|].
  apply count_key_NoDup.
  - apply header_fold_NoDup. exact N2.
  - unfold dict_mem. rewrite G. reflexivity.
Qed.



(** On [duplicate_message] the continuation line goes to [B], whatever
    the Unicode database: the text is ASCII. *)
Lemma duplicate_message_record (emails : list email) (w : world FS) :
  parse_part emails duplicate_message w
  = (Return (emails ++ [mk_email [(u "A", u "1");
                                  (u "B", u "2" ++ [LF] ++ u "more")] []]),
     w).
Proof. rewrite parse_part_run. reflexivity. Qed.


End MessageClaims.

(** ** Worked examples on [parse_mbox] *)

Section ParseMboxExamples.
#[local] Existing Instance utf8_stdout.
#[local] Existing Instance ascii_only.

Lemma parse_mbox_one_record_per_segment_witness :
  exists emails w',
    parse_mbox ([] ++ List.concat sample_segments) (fresh empty_fs)
    = (Return emails, w')
    /\ List.length emails = List.length sample_segments
    /\ forall i seg, nth_error sample_segments i = Some seg ->
         exists e, nth_error emails i = Some e
                   /\ parse_part [] seg (fresh empty_fs)
                      = (Return [e], fresh empty_fs).
Proof.
  apply (parse_mbox_one_record_per_segment (H := ascii_only));
    try reflexivity; repeat constructor.
Defined.

Lemma parse_mbox_never_raises_witness :
  header_step ([], None) (u "no colon here") (fresh empty_fs)
  = (Return ([], None), fresh empty_fs).
Proof.
  apply (proj1 (proj2 (parse_mbox_never_raises (H := ascii_only) [] (fresh empty_fs))));
    reflexivity.
Defined.

Lemma body_is_text_after_blank_line_witness :
  exists e,
    parse_part [] (sample_head ++ sample_trailing) (fresh empty_fs)
    = (Return ([] ++ [e]), fresh empty_fs)
    /\ body e = join [LF] (splitlines sample_trailing)
    /\ headers e = fst (parse_headers [u "Subject: Hi"]).
Proof.
  apply (body_is_text_after_blank_line (H := ascii_only)) with
    (env := u "From a@example.com") (blank_line := []);
    try reflexivity; repeat constructor.
Defined.

Lemma continuation_lines_fold_witness :
  exists e,
    parse_part [] folded_message (fresh empty_fs)
    = (Return ([] ++ [e]), fresh empty_fs)
    /\ dict_get (headers e) (u "To")
       = Some (strip (u "a@example.com,")
                 ++ folded [u " b@example.com,"; TAB :: u "c@example.com"])
    /\ count_key (u "To") (headers e) = 1.
Proof.
  refine (proj1 (@continuation_lines_fold ascii_only simple_fs
            [] folded_message (u "From carol@example.com")
            (u "To: a@example.com,") (u "To") (u "a@example.com,") []
            [u " b@example.com,"; TAB :: u "c@example.com"]
            [u "Subject: three"; []; u "x"] (fresh empty_fs)
            _ _ _ _ _ _ _));
    try reflexivity; try (repeat constructor; fail).
  right. exists (u "Subject").
  split; [reflexivity | split; [discriminate | constructor]].
Defined.

(** C4, as the claim states it, fails on [duplicate_message]: the line
    [A: 3] is a header line and [ more] follows it, but nothing in the
    record has the value made of the two; the continuation line went to
    [B], the key that was current. *)
Lemma continuation_after_duplicate_counterexample :
  splitlines duplicate_message
  = [u "From dave@example.com"; u "A: 1"; u "B: 2"; u "A: 3"; u " more"]
  /\ re_match_header (u "A: 3") = Some (u "A", u "3")
  /\ is_continuation (u " more") = true
  /\ exists e,
       parse_part [] duplicate_message (fresh empty_fs)
       = (Return [e], fresh empty_fs)
       /\ headers e = [(u "A", u "1"); (u "B", u "2" ++ [LF] ++ u "more")]
       /\ dict_get (headers e) (u "A")
          <> Some (strip (u "3") ++ folded [u " more"])
       /\ ~ In (strip (u "3") ++ folded [u " more"]) (map snd (headers e)).
Proof.
  repeat split; try reflexivity.
  eexists. split; [reflexivity|]. split; [reflexivity|].
  split; [discriminate|].
  simpl. intros [E|[E|[]]]; discriminate E.
Defined.


End ParseMboxExamples.

(* ------------------------------------------------------------------ *)
(** ** Claims on [sanitize_filename] *)
(* ------------------------------------------------------------------ *)

Lemma sanitize_filename_run {W} (s : str) (w : W) :
  sanitize_filename (JStr s) w = (Return (sanitized s), w).
Proof.
  unfold sanitize_filename. destruct s; reflexivity.
Qed.

Lemma collapse_whitespace_no_space (b : bool) (s : str) :
  Forall (fun c => is_space c = false) (collapse_whitespace b s).
Proof.
  revert b; induction s as [|c s IH]; intros b; simpl; [constructor|].
  destruct (is_space c) eqn:E.
  - destruct b; [apply IH|]. constructor; [reflexivity | apply IH].
  - constructor; [exact E | apply IH].
Qed.

Lemma collapse_whitespace_valid (b : bool) (s : str) :
  Forall (fun c => is_invalid_char c = false) s ->
  Forall (fun c => is_invalid_char c = false) (collapse_whitespace b s).
Proof.
  intros F. revert b. induction F as [|c s Hc _ IH]; intros b; simpl;
    [constructor|].
  destruct (is_space c).
  - destruct b; [apply IH|]. constructor; [reflexivity | apply IH].
  - constructor; [exact Hc | apply IH].
Qed.

Lemma remove_invalid_valid (s : str) :
  Forall (fun c => is_invalid_char c = false) (remove_invalid s).
Proof.
  unfold remove_invalid. apply Forall_forall. intros c Hc.
  apply filter_In in Hc as [_ Hc]. apply negb_true_iff. exact Hc.
Qed.

Lemma remove_invalid_id (s : str) :
  Forall (fun c => is_invalid_char c = false) s -> remove_invalid s = s.
Proof.
  induction 1 as [|c s Hc _ IH]; simpl; [reflexivity|].
  rewrite Hc. simpl. f_equal. exact IH.
Qed.

Lemma collapse_whitespace_id (s : str) :
  Forall (fun c => is_space c = false) s -> collapse_whitespace false s = s.
Proof.
  induction 1 as [|c s Hc _ IH]; simpl; [reflexivity|].
  rewrite Hc. f_equal. exact IH.
Qed.

Lemma Forall_firstn {A} (P : A -> Prop) (n : nat) (l : list A) :
  Forall P l -> Forall P (firstn n l).
Proof.
  intros F. revert n. induction F as [|x l Hx _ IH]; intros [|n]; simpl;
    constructor; auto.
Qed.

Lemma sanitized_clean (s : str) :
  Forall (fun c => is_invalid_char c = false) (sanitized s)
  /\ Forall (fun c => is_space c = false) (sanitized s)
  /\ List.length (sanitized s) <= 200.
Proof.
  unfold sanitized. split; [|split].
  - apply Forall_firstn, collapse_whitespace_valid, remove_invalid_valid.
  - apply Forall_firstn, collapse_whitespace_no_space.
  - apply firstn_le_length.
Qed.

Lemma sanitized_idempotent (s : str) : sanitized (sanitized s) = sanitized s.
Proof.
  destruct (sanitized_clean s) as [V [S L]].
  unfold sanitized at 1.
  rewrite (remove_invalid_id V), (collapse_whitespace_id S).
  apply firstn_all2. exact L.
Qed.

(** C10.  [sanitize_filename] is idempotent on strings: it returns, and
    on what it returned it returns the same; what it returns has none of
    the stripped characters, no whitespace, and at most 200 characters. *)
Theorem sanitize_filename_idempotent (W : Type) (s : str) (w : W) :
  exists t,
    sanitize_filename (JStr s) w = (Return t, w)
    /\ sanitize_filename (JStr t) w = (Return t, w)
    /\ Forall (fun c => is_invalid_char c = false) t
    /\ Forall (fun c => is_space c = false) t
    /\ List.length t <= 200.
Proof.
  exists (sanitized s). rewrite !sanitize_filename_run, sanitized_idempotent.
  destruct (sanitized_clean s) as [V [S L]]. auto.
Qed.

(* ------------------------------------------------------------------ *)
(** ** Claims on [convert_json_to_eml] *)
(* ------------------------------------------------------------------ *)

Section ConvertClaims.
Context {FS : Type} `{OS FS} `{PyBuiltins} {out : Stdout}.

Lemma present_and_truthy_run (hdrs : dict json) (k : str) (w : world FS) :
  present_and_truthy hdrs k w = (Return (usable hdrs k), w).
Proof.
  unfold present_and_truthy, usable, dict_mem, dict_getitem, bind.
  destruct (dict_get hdrs k); reflexivity.
Qed.

Lemma filename_by_hash (hdrs : dict json) (i : nat) (v : json) (w : world FS) :
  dict_get hdrs X_CCC_HASH = Some v -> json_truthy v = true ->
  eml_filename_of hdrs i w = (Return (str_of v ++ u ".eml"), w).
Proof.
  intros G T. unfold eml_filename_of.
  rewrite (bind_Return _ _ _ (present_and_truthy_run hdrs X_CCC_HASH w)).
  unfold usable. rewrite G, T.
  unfold dict_getitem. rewrite G. unfold bind, ret. rewrite T. reflexivity.
Qed.

Lemma filename_by_subject (hdrs : dict json) (i : nat) (s : str)
      (w : world FS) :
  usable hdrs X_CCC_HASH = false ->
  dict_get hdrs Subject = Some (JStr s) ->
  eml_filename_of hdrs i w
  = (Return (if truthy (sanitized s) then sanitized s ++ u ".eml"
             else fallback_name i), w).
Proof.
  intros Uh G. unfold eml_filename_of.
  rewrite (bind_Return _ _ _ (present_and_truthy_run hdrs X_CCC_HASH w)), Uh.
  erewrite bind_Return with (a := JStr (sanitized s)).
  - unfold ret. simpl json_truthy.
    destruct (sanitized s); reflexivity.
  - rewrite (bind_Return _ _ _ (present_and_truthy_run hdrs Subject w)).
    unfold usable. rewrite G.
    destruct s as [|c s]; [reflexivity|]. cbn [json_truthy truthy].
    unfold dict_getitem. rewrite G.
    unfold bind at 1, ret at 1.
    erewrite bind_Return by apply sanitize_filename_run. reflexivity.
Qed.

Lemma filename_by_position (hdrs : dict json) (i : nat) (w : world FS) :
  usable hdrs X_CCC_HASH = false -> usable hdrs Subject = false ->
  eml_filename_of hdrs i w = (Return (fallback_name i), w).
Proof.
  intros Uh Us. unfold eml_filename_of.
  rewrite (bind_Return _ _ _ (present_and_truthy_run hdrs X_CCC_HASH w)), Uh.
  erewrite bind_Return with (a := JStr []).
  - reflexivity.
  - rewrite (bind_Return _ _ _ (present_and_truthy_run hdrs Subject w)), Us.
    reflexivity.
Qed.

(** C2, as amended.  The name of the file is the value of [X-CCC-HASH]
    when the header is there and truthy; otherwise the sanitized
    [Subject], when that header is a string of which something is left
    after sanitizing; [email_] and the position counted from one when
    nothing is left of the string, and when [Subject] is absent or falsy;
    with [.eml] at the end in each case. *)
Theorem filename_precedence (hdrs : dict json) (i : nat) (w : world FS) :
  (forall v,
      dict_get hdrs X_CCC_HASH = Some v -> json_truthy v = true ->
      eml_filename_of hdrs i w = (Return (str_of v ++ u ".eml"), w))
  /\ (forall s t,
         usable hdrs X_CCC_HASH = false ->
         dict_get hdrs Subject = Some (JStr s) ->
         sanitize_filename (JStr s) w = (Return t, w) -> t <> [] ->
         eml_filename_of hdrs i w = (Return (t ++ u ".eml"), w))
  /\ (forall s,
         usable hdrs X_CCC_HASH = false ->
         dict_get hdrs Subject = Some (JStr s) ->
         sanitize_filename (JStr s) w = (Return [], w) ->
         eml_filename_of hdrs i w
         = (Return (u "email_" ++ str_of_nat (i + 1) ++ u ".eml"), w))
  /\ (usable hdrs X_CCC_HASH = false -> usable hdrs Subject = false ->
      eml_filename_of hdrs i w
      = (Return (u "email_" ++ str_of_nat (i + 1) ++ u ".eml"), w)).
Proof.
  split; [|split; [|split]].
  - intros v. apply filename_by_hash.
  - intros s t Uh G S Nt. rewrite sanitize_filename_run in S.
    inversion S; subst t. erewrite filename_by_subject by eassumption.
    destruct (sanitized s); [congruence | reflexivity].
  - intros s Uh G S. rewrite sanitize_filename_run in S.
    erewrite filename_by_subject by eassumption.
    inversion S as [E]. rewrite E. reflexivity.
  - apply filename_by_position.
Qed.

End ConvertClaims.

Unset Implicit Arguments.

Section SkipClaims.
Context {FS : Type} `{OS FS} `{PyBuiltins} {out : Stdout}.

Lemma string_valued_get (hdrs : dict json) (k : str) (v : json) :
  string_valued hdrs = true -> dict_get hdrs k = Some v ->
  exists s, v = JStr s.
Proof.
  unfold string_valued. induction hdrs as [|[k' v'] hdrs IH]; simpl;
    [discriminate|].
  intros F G. apply andb_true_iff in F as [Fv F].
  destruct (str_eqb k' k).
  - inversion G; subst v'. destruct v; try discriminate Fv. eauto.
  - apply IH; assumption.
Qed.

Lemma filename_of_valid (hdrs : dict json) (i : nat) (w : world FS) :
  string_valued hdrs = true ->
  eml_filename_of hdrs i w = (Return (filename_for hdrs i), w).
Proof.
  intros V. unfold filename_for.
  destruct (usable hdrs X_CCC_HASH) eqn:Uh.
  - unfold usable in Uh. unfold dict_get_default.
    destruct (dict_get hdrs X_CCC_HASH) as [v|] eqn:G; [|discriminate].
    apply filename_by_hash; assumption.
  - destruct (dict_get hdrs Subject) as [v|] eqn:G.
    + destruct (@string_valued_get hdrs Subject v V G) as [s ->].
      apply filename_by_subject; assumption.
    + apply filename_by_position; [assumption|].
      unfold usable. rewrite G. reflexivity.
Qed.

Lemma valid_is_record (v : json) : valid_record v = true -> is_record v = true.
Proof.
  destruct v; simpl; try discriminate.
  destruct (headers_of members); try discriminate. reflexivity.
Qed.

(** An element that is skipped costs one warning, and nothing else. *)
Lemma export_email_skip (output_dir : str) (i : nat) (v : json)
      (w : world FS) :
  is_record v = false ->
  exists msg,
    export_email output_dir tt (i, v) w
    = (Return tt, mk_world (trace w ++ [Print msg]) (disk w))
    /\ is_warning (Print msg) = true.
Proof.
  intros R. unfold export_email.
  assert (Pd : printable (warning_not_dict i) = true)
    by (unfold warning_not_dict; solve_printable).
  assert (Ph : printable (warning_headers i) = true)
    by (unfold warning_headers; solve_printable).
  destruct v as [| | | | | |members];
    try (eexists; split; [apply print_run; exact Pd | reflexivity]).
  simpl in R. unfold headers_of in R.
  destruct (dict_get_default members (u "headers") (JObj []));
    try (eexists; split; [apply print_run; exact Ph | reflexivity]).
  discriminate R.
Qed.

(** A record is written, and reported by a line that is not a warning. *)
Lemma export_email_valid (output_dir : str) (i : nat) (v : json)
      (w : world FS) :
  valid_record v = true ->
  reportable output_dir (i, v) ->
  exists p c msg d,
    write_for output_dir (i, v) = [(p, c)]
    /\ export_email output_dir tt (i, v) w
       = (Return tt, mk_world (trace w ++ [WriteFile p c; Print msg]) d)
    /\ is_warning (Print msg) = false.
Proof.
  intros V Rp. unfold export_email, reportable, write_for in *.
  cbn [snd fst] in *.
  destruct v as [| | | | | |members]; try discriminate V.
  simpl in V. unfold headers_of, body_of in *.
  destruct (dict_get_default members (u "headers") (JObj [])) as
    [| | | | | |hdrs]; try discriminate V.
  inversion Rp as [|pc l [Pp Pm] _]; subst pc l. cbn [fst snd] in Pp, Pm.
  erewrite bind_Return by (apply filename_of_valid; exact V).
  unfold try_except, perform, bind. cbn [disk trace].
  specialize (Pm (disk w)).
  destruct (write_text (disk w) _ _) as [r d] eqn:Wr. cbn [fst] in Pm.
  destruct r; cbn [io_message] in Pm; cbn [check_io];
    unfold ret, raise; cbn [exn_text];
    do 4 eexists; (split; [reflexivity|]);
    (split; [rewrite print_run by solve_printable; cbn [trace disk];
             rewrite <- app_assoc; reflexivity
            | reflexivity]).
Qed.

Lemma export_loop (output_dir : str) (vs : list json) :
  forall (k : nat) (w : world FS),
    Forall (fun v => is_record v = false \/ valid_record v = true) vs ->
    Forall (reportable output_dir) (combine (seq k (List.length vs)) vs) ->
    exists w' es,
      for_each (combine (seq k (List.length vs)) vs)
               (export_email output_dir) tt w
      = (Return tt, w')
      /\ trace w' = trace w ++ es
      /\ List.length (filter is_warning es)
         = List.length (filter (fun v => negb (is_record v)) vs)
      /\ writes es
         = flat_map (write_for output_dir) (combine (seq k (List.length vs)) vs)
      /\ List.length (writes es) = List.length (filter is_record vs).
Proof.
  induction vs as [|v vs IH]; intros k w F Rp.
  - exists w, []. simpl. rewrite app_nil_r. auto.
  - inversion F as [|? ? Hv F']; subst.
    cbn [List.length seq combine] in Rp.
    inversion Rp as [|? ? Rv Rp']; subst.
    cbn [List.length seq combine for_each flat_map filter].
    destruct Hv as [R|V].
    + destruct (export_email_skip output_dir k v w R) as [msg [E Wm]].
      rewrite (bind_Return _ _ _ E).
      destruct (IH (S k) (mk_world (trace w ++ [Print msg]) (disk w)) F' Rp')
        as [w' [es [E' [T [Cw [Cf Cl]]]]]].
      exists w', (Print msg :: es). split; [exact E'|].
      split; [rewrite T; cbn [trace]; rewrite <- app_assoc; reflexivity|].
      change (writes (Print msg :: es)) with (writes es).
      split; [|split].
      * cbn [filter]. rewrite Wm, R. simpl. f_equal. exact Cw.
      * rewrite Cf.
        replace (write_for output_dir (k, v)) with (@nil (str * str)).
        -- reflexivity.
        -- unfold write_for. cbn [snd]. destruct v; try reflexivity.
           simpl in R. destruct (headers_of members); try reflexivity.
           discriminate R.
      * rewrite R. exact Cl.
    + destruct (export_email_valid output_dir k v w V Rv)
        as [p [c [msg [d [Wf [E Wm]]]]]].
      rewrite (bind_Return _ _ _ E).
      destruct (IH (S k) (mk_world (trace w ++ [WriteFile p c; Print msg]) d)
                   F' Rp')
        as [w' [es [E' [T [Cw [Cf Cl]]]]]].
      exists w', (WriteFile p c :: Print msg :: es). split; [exact E'|].
      split; [rewrite T; cbn [trace]; rewrite <- app_assoc; reflexivity|].
      change (writes (WriteFile p c :: Print msg :: es))
        with ((p, c) :: writes es).
      split; [|split].
      * cbn [filter is_warning]. cbn [is_warning] in Wm. rewrite Wm.
        rewrite (valid_is_record _ V). simpl. exact Cw.
      * rewrite Wf, Cf. reflexivity.
      * rewrite (valid_is_record _ V). simpl. f_equal. exact Cl.
Qed.

Lemma filter_all {A} (f : A -> bool) (l : list A) :
  Forall (fun x => f x = true) l -> filter f l = l.
Proof.
  induction 1 as [|x l Hx _ IH]; simpl; [reflexivity|].
  rewrite Hx, IH. reflexivity.
Qed.

Lemma filter_none {A} (f : A -> bool) (l : list A) :
  Forall (fun x => f x = true) l -> filter (fun x => negb (f x)) l = [].
Proof.
  induction 1 as [|x l Hx _ IH]; simpl; [reflexivity|].
  rewrite Hx, IH. reflexivity.
Qed.

(** A run of [convert_json_to_eml] on a document that is an array: the
    output directory is seen to, and then the records are exported. *)
Lemma convert_loaded (json_file_path output_dir : str)
      (emails_data : list json) (w : world FS) :
  json_load (disk w) json_file_path = Loaded (JArr emails_data) ->
  convert_json_to_eml json_file_path output_dir w
  = let export :=
      print (u "Found " ++ str_of_nat (List.length emails_data)
               ++ u " emails in '" ++ json_file_path
               ++ u "'. Starting conversion...") ;;;
      export_all output_dir emails_data ;;;
      print (conversion_complete (List.length emails_data) output_dir) in
    if os_path_exists (disk w) output_dir then export w
    else
      match os_makedirs (disk w) output_dir with
      | (IoOk, d) =>
          (print (u "Created output directory: '" ++ output_dir ++ u "'") ;;;
           export) (mk_world (trace w ++ [Makedirs output_dir]) d)
      | (IoFileNotFound e, d) | (IoOSError e, d) =>
          print (u "Error creating output directory '" ++ output_dir
                   ++ u "': " ++ e)
                (mk_world (trace w ++ [Makedirs output_dir]) d)
      | (IoException e, d) =>
          (Raise (Exception e), mk_world (trace w ++ [Makedirs output_dir]) d)
      end.
Proof.
  intros L. unfold convert_json_to_eml, ask. unfold bind at 1. rewrite L.
  unfold bind at 1.
  destruct (os_path_exists (disk w) output_dir); cbn [negb].
  - reflexivity.
  - unfold perform. unfold bind at 1. unfold bind at 1.
    destruct (os_makedirs (disk w) output_dir) as [r d].
    destruct r; cbn zeta.
    + unfold bind, ret.
      destruct (print (u "Created output directory: '" ++ _) _)
        as [[[]|e] w']; reflexivity.
    + unfold bind, ret.
      destruct (print (u "Error creating output directory '" ++ _) _)
        as [[[]|e] w']; reflexivity.
    + unfold bind, ret.
      destruct (print (u "Error creating output directory '" ++ _) _)
        as [[[]|e] w']; reflexivity.
    + reflexivity.
Qed.

(** The export itself, on an array of which every element is either
    skipped or a record with string headers, when every line about them
    can be printed. *)
Lemma export_run (json_file_path output_dir : str)
      (emails_data : list json) (w : world FS) :
  printable json_file_path = true ->
  printable output_dir = true ->
  Forall (fun v => is_record v = false \/ valid_record v = true)
         emails_data ->
  Forall (reportable output_dir) (enumerate emails_data) ->
  exists w' es,
    (print (u "Found " ++ str_of_nat (List.length emails_data)
              ++ u " emails in '" ++ json_file_path
              ++ u "'. Starting conversion...") ;;;
     export_all output_dir emails_data ;;;
     print (conversion_complete (List.length emails_data) output_dir)) w
    = (Return tt, w')
    /\ trace w' = trace w ++ es
    /\ List.length (filter is_warning es)
       = List.length (filter (fun v => negb (is_record v)) emails_data)
    /\ writes es = flat_map (write_for output_dir) (enumerate emails_data)
    /\ List.length (writes es) = List.length (filter is_record emails_data)
    /\ last (printed es) []
       = conversion_complete (List.length emails_data) output_dir.
Proof.
  intros Pj Po F Rp. unfold bind at 1.
  rewrite print_run by solve_printable.
  destruct (export_loop output_dir emails_data 0
              (mk_world (trace w ++ [Print (u "Found "
                 ++ str_of_nat (List.length emails_data)
                 ++ u " emails in '" ++ json_file_path
                 ++ u "'. Starting conversion...")]) (disk w)) F Rp)
    as [w2 [es2 [E2 [T2 [Cw [Cf Cl]]]]]].
  unfold export_all, enumerate. rewrite (bind_Return _ _ _ E2).
  rewrite print_run by (unfold conversion_complete; solve_printable).
  do 2 eexists. split; [reflexivity|].
  cbn [trace]. rewrite T2. cbn [trace]. rewrite <- !app_assoc.
  split; [reflexivity|].
  cbn [app].
  match goal with
  | |- context [Print ?f :: es2 ++ [Print ?c]] =>
      assert (W : filter is_warning (Print f :: es2 ++ [Print c])
                  = filter is_warning es2);
      [|assert (R : writes (Print f :: es2 ++ [Print c]) = writes es2);
        [|assert (P : printed (Print f :: es2 ++ [Print c])
                      = (f :: printed es2) ++ [c])]]
  end.
  - cbn [filter]. rewrite filter_app.
    replace (is_warning (Print _)) with false by reflexivity.
    cbn [filter]. unfold conversion_complete.
    replace (is_warning (Print _)) with false by reflexivity.
    apply app_nil_r.
  - unfold writes. cbn [flat_map app]. rewrite flat_map_app.
    cbn [flat_map]. apply app_nil_r.
  - unfold printed. cbn [flat_map app]. rewrite flat_map_app. reflexivity.
  - rewrite W, R, P. split; [exact Cw|]. split; [exact Cf|].
    split; [exact Cl|]. apply last_last.
Qed.

(** The whole run on such an array, with the output directory there or
    made. *)
Lemma convert_records_run (json_file_path output_dir : str)
      (emails_data : list json) (w : world FS) :
  json_load (disk w) json_file_path = Loaded (JArr emails_data) ->
  directory_ready (disk w) output_dir ->
  printable json_file_path = true ->
  printable output_dir = true ->
  Forall (fun v => is_record v = false \/ valid_record v = true)
         emails_data ->
  Forall (reportable output_dir) (enumerate emails_data) ->
  exists w' es,
    convert_json_to_eml json_file_path output_dir w = (Return tt, w')
    /\ trace w' = trace w ++ es
    /\ List.length (filter is_warning es)
       = List.length (filter (fun v => negb (is_record v)) emails_data)
    /\ writes es = flat_map (write_for output_dir) (enumerate emails_data)
    /\ List.length (writes es) = List.length (filter is_record emails_data)
    /\ last (printed es) []
       = conversion_complete (List.length emails_data) output_dir.
Proof.
  intros L D Pj Po F Rp. rewrite (convert_loaded _ output_dir _ _ L). cbn zeta.
  destruct (os_path_exists (disk w) output_dir) eqn:Ex.
  - apply export_run; assumption.
  - destruct D as [D|D]; [congruence|].
    destruct (os_makedirs (disk w) output_dir) as [r d]. simpl in D. subst r.
    unfold bind at 1. rewrite print_run by solve_printable.
    cbn [trace disk]. rewrite <- app_assoc. cbn [app].
    match goal with
    | |- context [mk_world (trace w ++ [?a; ?b]) d] =>
        destruct (export_run json_file_path output_dir emails_data
                    (mk_world (trace w ++ [a; b]) d) Pj Po F Rp)
          as [w' [es [E [T [Cw [Cf [Cl P]]]]]]];
        exists w', (a :: b :: es)
    end.
    split; [exact E|]. cbn [trace] in T.
    split; [rewrite T, <- app_assoc; reflexivity|].
    split; [exact Cw|]. split; [exact Cf|]. split; [exact Cl|].
    unfold printed in *. cbn [flat_map app].
    destruct (flat_map _ es) eqn:Ep; [|exact P].
    simpl in P. unfold conversion_complete in P. discriminate P.
Qed.

(** C8, as amended.  On an array with one element that is not a record
    (not an object, or with headers that are not an object) among N
    records with string headers, with the output directory there or made,
    and with every line of the run one that standard output can encode,
    the run returns, prints one warning, and calls for N files to be
    written, one per record and in the order of the array, each under the
    name and with the text derived from its record; the last line it
    prints is the closing one. *)
Theorem malformed_element_is_skipped
        (json_file_path output_dir : str) (before after : list json)
        (bad : json) (w : world FS) :
  json_load (disk w) json_file_path = Loaded (JArr (before ++ bad :: after)) ->
  directory_ready (disk w) output_dir ->
  is_record bad = false ->
  Forall (fun v => valid_record v = true) (before ++ after) ->
  printable json_file_path = true ->
  printable output_dir = true ->
  Forall (reportable output_dir) (enumerate (before ++ bad :: after)) ->
  exists w' es,
    convert_json_to_eml json_file_path output_dir w = (Return tt, w')
    /\ trace w' = trace w ++ es
    /\ List.length (filter is_warning es) = 1
    /\ List.length (writes es) = List.length (before ++ after)
    /\ writes es
       = flat_map (write_for output_dir) (enumerate (before ++ bad :: after))
    /\ last (printed es) []
       = conversion_complete (List.length (before ++ bad :: after)) output_dir.
Proof.
  intros Hl Hd Hb Hv Pj Po Rp.
  apply Forall_app in Hv as [Hvb Hva].
  assert (Fok : Forall (fun v => is_record v = false \/ valid_record v = true)
                       (before ++ bad :: after)).
  { apply Forall_app. split; [|constructor; [left; exact Hb|]];
      (eapply Forall_impl; [|eassumption]); simpl; auto. }
  assert (Frec : forall l, Forall (fun v => valid_record v = true) l ->
                           Forall (fun v => is_record v = true) l).
  { intros l F. eapply Forall_impl; [|exact F]. apply valid_is_record. }
  assert (Cbad : List.length (filter (fun v => negb (is_record v))
                                     (before ++ bad :: after)) = 1).
  { rewrite filter_app. cbn [filter]. rewrite Hb. cbn [negb].
    rewrite !filter_none by auto. reflexivity. }
  assert (Crec : List.length (filter is_record (before ++ bad :: after))
                 = List.length (before ++ after)).
  { rewrite filter_app. cbn [filter]. rewrite Hb.
    rewrite !filter_all by auto. reflexivity. }
  destruct (convert_records_run json_file_path output_dir _ w
              Hl Hd Pj Po Fok Rp)
    as [w' [es [E [T [Cw [Cf [Cl P]]]]]]].
  exists w', es. split; [exact E|]. split; [exact T|].
  split; [rewrite Cw; exact Cbad|]. split; [rewrite Cl; exact Crec|].
  split; [exact Cf | exact P].
Qed.

End SkipClaims.

(** ** Worked examples on [convert_json_to_eml] *)

Section ConvertExamples.
#[local] Existing Instance utf8_stdout.
#[local] Existing Instance simple_os.
#[local] Existing Instance sample_builtins.

Open Scope string_scope.

Lemma filename_precedence_witness :
  eml_filename_of
    (string_headers [("X-CCC-HASH", "abc123"); ("Subject", "Hello World")])
    0 (fresh empty_fs)
  = (Return (u "abc123.eml"), fresh empty_fs)
  /\ eml_filename_of (string_headers [("Subject", "Hello World!!")])
                     0 (fresh empty_fs)
     = (Return (u "Hello_World!!.eml"), fresh empty_fs)
  /\ eml_filename_of (string_headers [("Subject", "?:*")]) 4 (fresh empty_fs)
     = (Return (u "email_5.eml"), fresh empty_fs)
  /\ eml_filename_of (string_headers [("To", "a@example.com")])
                     0 (fresh empty_fs)
     = (Return (u "email_1.eml"), fresh empty_fs).
Proof.
  split; [|split; [|split]].
  - apply (proj1 (filename_precedence _ 0 (fresh empty_fs))
             (JStr (u "abc123"))); reflexivity.
  - apply (proj1 (proj2 (filename_precedence _ 0 (fresh empty_fs)))
             (u "Hello World!!") (u "Hello_World!!"));
      try reflexivity; discriminate.
  - apply (proj1 (proj2 (proj2 (filename_precedence _ 4 (fresh empty_fs))))
             (u "?:*")); reflexivity.
  - apply (proj2 (proj2 (proj2 (filename_precedence _ 0 (fresh empty_fs)))));
      reflexivity.
Defined.

(** C2, as the claim states it, fails on three subjects that are present
    and not empty.  On [Hello World!!] the exclamation marks stay, not
    being among the characters that are stripped.  Of [?:*] nothing is
    left after sanitizing, and the name is the positional one, not the
    sanitized subject.  On the number 5 no name is derived at all. *)
Lemma filename_precedence_counterexample :
  (eml_filename_of (string_headers [("Subject", "Hello World!!")])
                   0 (fresh empty_fs)
   = (Return (u "Hello_World!!.eml"), fresh empty_fs)
   /\ u "Hello_World!!.eml" <> u "Hello_World.eml")
  /\ (sanitize_filename (JStr (u "?:*")) (fresh empty_fs)
      = (Return [], fresh empty_fs)
      /\ eml_filename_of (string_headers [("Subject", "?:*")])
                         0 (fresh empty_fs)
         = (Return (u "email_1.eml"), fresh empty_fs)
      /\ u "email_1.eml" <> u ".eml")
  /\ (usable [(Subject, JInt 5)] Subject = true
      /\ eml_filename_of [(Subject, JInt 5)] 0 (fresh empty_fs)
         = (Raise TypeError, fresh empty_fs)).
Proof.
  repeat split; try reflexivity; discriminate.
Defined.

Lemma malformed_element_is_skipped_witness :
  exists w' es,
    convert_json_to_eml (u "emails.json") (u "eml_files")
      (fresh (disk_with ([record [("X-CCC-HASH", "abc123")] "one"]
                           ++ JNull :: [record [("Subject", "Hi")] "two"])%list))
    = (Return tt, w')
    /\ trace w' = (trace (fresh (disk_with
                     ([record [("X-CCC-HASH", "abc123")] "one"]
                        ++ JNull :: [record [("Subject", "Hi")] "two"])%list))
                   ++ es)%list
    /\ List.length (filter is_warning es) = 1
    /\ List.length (writes es)
       = List.length ([record [("X-CCC-HASH", "abc123")] "one"]
                        ++ [record [("Subject", "Hi")] "two"])%list
    /\ writes es
       = flat_map (write_for (u "eml_files"))
           (enumerate ([record [("X-CCC-HASH", "abc123")] "one"]
                         ++ JNull :: [record [("Subject", "Hi")] "two"])%list)
    /\ last (printed es) []
       = conversion_complete
           (List.length ([record [("X-CCC-HASH", "abc123")] "one"]
                           ++ JNull :: [record [("Subject", "Hi")] "two"])%list)
           (u "eml_files").
Proof.
  apply (malformed_element_is_skipped (u "emails.json") (u "eml_files")).
  - reflexivity.
  - right. reflexivity.
  - reflexivity.
  - repeat constructor.
  - reflexivity.
  - reflexivity.
  - solve_reportable.
Defined.

(** C8, as the claim states it, fails in two ways.  On
    [clashing_records] the run skips the number with one warning and goes
    on to the end, but the two records give the same name, the second
    file replaces the first, and one file is left where the claim counts
    two.  On [surrogate_records] the file of the second record cannot be
    opened, the line about it cannot be printed either, and the run ends
    there in a [UnicodeEncodeError]: one file is left where the claim
    counts three, and the third record is never reached. *)
Lemma written_files_counterexample :
  (is_record (JInt 7) = false
   /\ forallb valid_record clashing_records = true
   /\ List.length clashing_records = 2
   /\ fst clashing_run = Return tt
   /\ List.length (filter is_warning (trace (snd clashing_run))) = 1
   /\ map fst (writes (trace (snd clashing_run)))
      = [u "eml_files/Hi.eml"; u "eml_files/Hi.eml"]
   /\ text_files (disk (snd clashing_run))
      = [(u "eml_files/Hi.eml", text ["Subject: Hi"; ""; "second"])]
   /\ List.length (text_files (disk (snd clashing_run))) <> 2)
  /\ (forallb valid_record surrogate_records = true
      /\ List.length surrogate_records = 3
      /\ (exists m, fst surrogate_run = Raise (UnicodeEncodeError m))
      /\ map fst (writes (trace (snd surrogate_run)))
         = [u "eml_files/one.eml"; (u "eml_files/" ++ [0xD800%N] ++ u ".eml")%list]
      /\ map fst (text_files (disk (snd surrogate_run)))
         = [u "eml_files/one.eml"]).
Proof.
  split.
  - repeat split; try reflexivity. vm_compute. discriminate.
  - repeat split; try reflexivity. eexists. reflexivity.
Defined.

Close Scope string_scope.

End ConvertExamples.

(* ------------------------------------------------------------------ *)
(** ** Claims on reading the mailbox *)
(* ------------------------------------------------------------------ *)

Lemma utf8_scan_app (a rest : list byte) :
  forall st,
    existsb is_undecodable (utf8_scan st a) = false ->
    utf8_scan st (a ++ rest) = utf8_scan st a ++ utf8_scan Start rest.
Proof.
  induction a as [|b a IH]; intros st V.
  - destruct st; [reflexivity | discriminate V].
  - cbn [app utf8_scan] in *.
    destruct st as [|need lo hi acc].
    + destruct (lead_byte (Byte.to_N b)) as [d|st'].
      * cbn [existsb] in V. apply orb_false_iff in V as [_ V].
        rewrite (IH _ V). reflexivity.
      * apply IH, V.
    + destruct (in_range lo hi (Byte.to_N b)); [|discriminate V].
      destruct need as [|[|need]].
      * apply IH, V.
      * cbn [existsb] in V. apply orb_false_iff in V as [_ V].
        rewrite (IH _ V). reflexivity.
      * apply IH, V.
Qed.

Lemma utf8_scan_undecodable (x rest : list byte) :
  forallb undecodable_byte x = true ->
  utf8_scan Start (x ++ rest)
  = map (fun _ => Undecodable) x ++ utf8_scan Start rest.
Proof.
  induction x as [|b x IH]; intros U; [reflexivity|].
  cbn [forallb] in U. apply andb_true_iff in U as [Ub U].
  cbn [app utf8_scan map]. unfold undecodable_byte in Ub.
  destruct (lead_byte (Byte.to_N b)) as [[c|]|st']; try discriminate Ub.
  rewrite (IH U). reflexivity.
Qed.

Lemma kept_app (a b : list decoded) : kept (a ++ b) = kept a ++ kept b.
Proof. apply flat_map_app. Qed.

Lemma replaced_app (a b : list decoded) :
  replaced (a ++ b) = replaced a ++ replaced b.
Proof. apply map_app. Qed.

Lemma replaced_valid (ds : list decoded) :
  existsb is_undecodable ds = false -> replaced ds = kept ds.
Proof.
  induction ds as [|[c|] ds IH]; simpl; intros V;
    [reflexivity | f_equal; auto | discriminate V].
Qed.

Lemma kept_undecodable {A} (x : list A) :
  kept (map (fun _ => Undecodable) x) = [].
Proof. induction x; simpl; auto. Qed.

Lemma replaced_undecodable {A} (x : list A) :
  replaced (map (fun _ => Undecodable) x) = repeat REPLACEMENT (List.length x).
Proof. induction x; simpl; [|f_equal]; auto. Qed.

Section ReadClaims.
Context {FS : Type} `{OS FS} {out : Stdout}.

(** C3, as amended.  Reading the mailbox never fails on what the file
    holds, and gives the text a strict decoding gives when there is one;
    bytes that cannot be decoded are dropped: after a stretch that is
    valid UTF-8, a run of bytes that cannot start a character adds
    nothing to the text, where replacing would add one replacement
    character for each. *)
Theorem undecodable_bytes_are_dropped
        (path : str) (raw : list byte) (w : world FS) :
  read_bytes (disk w) path = ReadOk raw ->
  (exists s, open_read path Ignore w = (Return s, w))
  /\ (forall s, open_read path Strict w = (Return s, w) ->
                open_read path Ignore w = (Return s, w))
  /\ (forall a x b sa,
         raw = a ++ x ++ b ->
         utf8_decode Strict a w = (Return sa, w) ->
         forallb undecodable_byte x = true ->
         exists sb sb',
           utf8_decode Ignore b w = (Return sb, w)
           /\ utf8_decode Replace b w = (Return sb', w)
           /\ utf8_decode Ignore raw w = (Return (sa ++ sb), w)
           /\ utf8_decode Replace raw w
              = (Return (sa ++ repeat REPLACEMENT (List.length x) ++ sb'), w)).
Proof.
  intros R. unfold open_read, ask, bind. cbn [fst snd]. rewrite R.
  split; [|split].
  - eexists. reflexivity.
  - intros s. unfold utf8_decode.
    destruct (existsb is_undecodable (utf8_scan Start raw)).
    + discriminate.
    + intros E. exact E.
  - intros a x b sa -> Sa Ux. unfold utf8_decode in *.
    destruct (existsb is_undecodable (utf8_scan Start a)) eqn:Va.
    { discriminate Sa. }
    unfold ret in Sa. inversion Sa as [Ea]. clear Sa.
    fold (kept (utf8_scan Start a)) in *.
    do 2 eexists. split; [reflexivity|]. split; [reflexivity|].
    rewrite (utf8_scan_app a (x ++ b) Start Va).
    rewrite (utf8_scan_undecodable x b Ux).
    fold (kept (utf8_scan Start b)). fold (replaced (utf8_scan Start b)).
    split; unfold ret; do 2 f_equal.
    + change (kept (utf8_scan Start a
                      ++ map (fun _ => Undecodable) x ++ utf8_scan Start b)
              = kept (utf8_scan Start a) ++ kept (utf8_scan Start b)).
      rewrite !kept_app, kept_undecodable. reflexivity.
    + change (replaced (utf8_scan Start a
                          ++ map (fun _ => Undecodable) x ++ utf8_scan Start b)
              = kept (utf8_scan Start a)
                  ++ repeat REPLACEMENT (List.length x)
                  ++ replaced (utf8_scan Start b)).
      rewrite !replaced_app, replaced_undecodable, (replaced_valid _ Va).
      reflexivity.
Qed.

End ReadClaims.

Section ReadExamples.
#[local] Existing Instance utf8_stdout.
#[local] Existing Instance simple_os.

Lemma undecodable_bytes_are_dropped_witness :
  exists sb sb',
    utf8_decode Ignore [x42] (fresh disk_with_raw)
    = (Return sb, fresh disk_with_raw)
    /\ utf8_decode Replace [x42] (fresh disk_with_raw)
       = (Return sb', fresh disk_with_raw)
    /\ utf8_decode Ignore [x41; xff; x42] (fresh disk_with_raw)
       = (Return (u "A" ++ sb), fresh disk_with_raw)
    /\ utf8_decode Replace [x41; xff; x42] (fresh disk_with_raw)
       = (Return (u "A" ++ repeat REPLACEMENT (List.length [xff]) ++ sb'),
          fresh disk_with_raw).
Proof.
  refine (proj2 (proj2 (undecodable_bytes_are_dropped
                          (u "year2005.txt") [x41; xff; x42]
                          (fresh disk_with_raw) _))
            [x41] [xff] [x42] (u "A") _ _ _);
    reflexivity.
Defined.

(** C3, as the claim states it, fails on a file that holds the letter A,
    the byte FF and the letter B: the text read is AB, the byte is gone
    and no replacement character stands for it, as it would under the
    replacing handler. *)
Lemma undecodable_byte_counterexample :
  read_bytes disk_with_raw (u "year2005.txt") = ReadOk [x41; xff; x42]
  /\ open_read (u "year2005.txt") Ignore (fresh disk_with_raw)
     = (Return (u "AB"), fresh disk_with_raw)
  /\ open_read (u "year2005.txt") Replace (fresh disk_with_raw)
     = (Return (u "A" ++ [REPLACEMENT] ++ u "B"), fresh disk_with_raw)
  /\ u "AB" <> u "A" ++ [REPLACEMENT] ++ u "B"
  /\ ~ In REPLACEMENT (u "AB").
Proof.
  repeat split; try reflexivity; try discriminate.
  simpl. intros [E|[E|[]]]; discriminate E.
Defined.

End ReadExamples.

(* ------------------------------------------------------------------ *)
(** ** Further properties of [parse_mbox] *)
(* ------------------------------------------------------------------ *)

Lemma filter_nonblank_anchored (ps : list str) :
  Forall (fun p => startswith From_ p = true) ps -> filter nonblank ps = ps.
Proof.
  induction 1 as [|p ps Hp _ IH]; [reflexivity|].
  simpl. unfold nonblank at 1. rewrite (From_not_blank p Hp). simpl.
  f_equal. exact IH.
Qed.

Lemma re_split_From_pieces (s : str) :
  exists first rest,
    re_split_From s = first :: rest
    /\ Forall (fun p => startswith From_ p = true) rest
    /\ List.length rest = anchors true s
    /\ first ++ List.concat rest = s.
Proof.
  pose proof (re_split_at_anchored true s) as A.
  pose proof (re_split_at_concat true s) as C.
  pose proof (re_split_at_length true s) as L.
  pose proof (re_split_at_truthy true s) as T.
  unfold re_split_From.
  destruct (re_split_at true s) as [|first rest]; [discriminate T|].
  exists first, rest. simpl in *. repeat split; auto; lia.
Qed.

Lemma blank_app (a b : str) : blank (a ++ b) = blank a && blank b.
Proof. apply forallb_app. Qed.

Lemma records_of_blank (s : str) `{UnicodeDB} :
  blank s = true -> records_of s = [] /\ nothing_found s = true.
Proof.
  intros B. unfold records_of, nothing_found, re_split_From.
  rewrite (re_split_at_blank true s B). simpl. unfold nonblank.
  rewrite B. auto.
Qed.

Lemma records_of_nonblank (s : str) `{UnicodeDB} :
  blank s = false -> records_of s <> [] /\ nothing_found s = false.
Proof.
  intros B. destruct (re_split_From_pieces s) as [first [rest [E [A [_ C]]]]].
  unfold records_of, nothing_found. rewrite E. cbn [filter].
  rewrite (filter_nonblank_anchored rest A).
  destruct rest as [|p rest].
  - simpl in C. rewrite app_nil_r in C. subst first.
    unfold nonblank. rewrite B. simpl. split; [discriminate | reflexivity].
  - split; [|reflexivity].
    destruct (nonblank first); simpl; discriminate.
Qed.

Section MoreParseMbox.
Context `{UnicodeDB} {FS : Type} {out : Stdout}.

(** X1.  [parse_mbox] returns one record for each envelope line, and one
    more when the text before the first envelope line is not blank. *)
Theorem parse_mbox_record_count (mbox_content : str) (w : world FS) :
  exists emails w',
    parse_mbox mbox_content w = (Return emails, w')
    /\ List.length emails
       = anchors true mbox_content
         + (if blank (preamble mbox_content) then 0 else 1).
Proof.
  rewrite parse_mbox_run. do 2 eexists. split; [reflexivity|].
  destruct (re_split_From_pieces mbox_content)
    as [first [rest [E [A [L _]]]]].
  unfold records_of, preamble. rewrite E. cbn [filter hd].
  rewrite (filter_nonblank_anchored rest A), <- L.
  unfold nonblank. destruct (blank first); simpl; rewrite length_map; lia.
Qed.

(** X2.  On a blank text, and only then, [parse_mbox] returns the empty
    list, and it prints the diagnostic; on any other text it returns at
    least one record and prints nothing. *)
Theorem parse_mbox_empty_iff_blank (mbox_content : str) (w : world FS) :
  (blank mbox_content = true ->
   parse_mbox mbox_content w
   = (Return [], mk_world (trace w ++ [Print no_emails_found]) (disk w)))
  /\ (blank mbox_content = false ->
      exists e es, parse_mbox mbox_content w = (Return (e :: es), w)).
Proof.
  rewrite parse_mbox_run. split; intros B.
  - destruct (records_of_blank mbox_content B) as [-> ->]. reflexivity.
  - destruct (records_of_nonblank mbox_content B) as [Ne ->].
    destruct (records_of mbox_content) as [|e es]; [congruence|]. eauto.
Qed.

(** X3.  The records of two mailboxes put one after the other, the first
    ending where a line ends and the second starting with an envelope
    line, are the records of the first followed by those of the second. *)
Theorem parse_mbox_concatenation (a b : str) (w : world FS) :
  line_complete a = true -> startswith From_ b = true ->
  exists ra rb wa wb w',
    parse_mbox a w = (Return ra, wa)
    /\ parse_mbox b w = (Return rb, wb)
    /\ parse_mbox (a ++ b) w = (Return (ra ++ rb), w').
Proof.
  intros La Sb. rewrite !parse_mbox_run.
  exists (records_of a), (records_of b). do 3 eexists.
  split; [reflexivity|]. split; [reflexivity|]. f_equal.
  unfold records_of, re_split_From.
  rewrite (@re_split_at_app a b true La (fun _ => eq_refl) (or_intror Sb)).
  rewrite filter_app, map_app. f_equal. f_equal.
  pose proof (@re_split_at_head_anchor b Sb) as Hd.
  destruct (re_split_at true b) as [|p ps]; [reflexivity|].
  simpl in Hd. subst p. reflexivity.
Qed.

End MoreParseMbox.

(* ------------------------------------------------------------------ *)
(** ** Further properties of one message *)
(* ------------------------------------------------------------------ *)

Lemma splitlines_first_line (l rest : str) :
  one_line l = true ->
  splitlines (l ++ LF :: rest) = l :: splitlines rest.
Proof.
  unfold splitlines, one_line. induction l as [|c l IH]; intros O.
  - reflexivity.
  - cbn [forallb] in O. apply andb_true_iff in O as [Oc O].
    apply negb_true_iff in Oc.
    change ((c :: l) ++ LF :: rest) with (c :: (l ++ LF :: rest)).
    cbn [splitlines_from andb]. rewrite Oc, (IH O). reflexivity.
Qed.

Lemma splitlines_universal_newlines (s : str) :
  forall f, splitlines_from false (universal_newlines f s)
            = splitlines_from f s.
Proof.
  induction s as [|c s IH]; intros f; [reflexivity|].
  cbn [universal_newlines splitlines_from].
  destruct (f && char_eqb c LF) eqn:E; [apply IH|].
  destruct (char_eqb c CR) eqn:Ec.
  - apply char_eqb_eq in Ec. subst c.
    cbn [splitlines_from andb]. rewrite IH. reflexivity.
  - cbn [splitlines_from andb]. rewrite Ec, IH. reflexivity.
Qed.

Lemma blank_universal_newlines (s : str) :
  forall f, blank (universal_newlines f s) = blank s.
Proof.
  unfold blank. induction s as [|c s IH]; intros f; [reflexivity|].
  cbn [universal_newlines forallb].
  destruct (f && char_eqb c LF) eqn:E.
  - apply andb_true_iff in E as [_ E]. apply char_eqb_eq in E. subst c.
    rewrite IH. reflexivity.
  - destruct (char_eqb c CR) eqn:Ec.
    + apply char_eqb_eq in Ec. subst c. cbn [forallb]. rewrite IH.
      reflexivity.
    + cbn [forallb]. rewrite IH. reflexivity.
Qed.

Section MoreMessages.
Context `{UnicodeDB} {FS : Type} {out : Stdout}.

Lemma re_match_header_key (l k v : str) :
  re_match_header l = Some (k, v) ->
  k <> [] /\ forallb is_key_char k = true.
Proof.
  unfold re_match_header. intros E.
  pose proof (take_while_all is_key_char l) as A.
  destruct (take_while is_key_char l) as [|c key]; [discriminate|].
  destruct (drop_while is_key_char l) as [|x rest]; [discriminate|].
  destruct (char_eqb x COLON); [|discriminate].
  inversion E; subst k v. split; [discriminate|].
  apply forallb_forall. rewrite Forall_forall in A. exact A.
Qed.

Lemma header_fold_mem (ls : list str) (d : dict str) (cur : option str)
      (k : str) :
  dict_mem k d = true ->
  dict_mem k (fst (fold_left header_pure ls (d, cur))) = true.
Proof.
  unfold dict_mem at 1. intros M.
  destruct (dict_get d k) as [v|] eqn:G; [|discriminate].
  destruct (@header_fold_grows _ ls d cur k v G) as [cs [_ G']].
  unfold dict_mem. rewrite G'. reflexivity.
Qed.

Lemma header_fold_adds (ls : list str) :
  forall (d : dict str) (cur : option str) (l k : str),
    In l ls -> key_of l = Some k ->
    dict_mem k (fst (fold_left header_pure ls (d, cur))) = true.
Proof.
  induction ls as [|x ls IH]; intros d cur l k Hl Hk; [destruct Hl|].
  cbn [fold_left]. destruct Hl as [->|Hl].
  - unfold key_of in Hk.
    destruct (re_match_header l) as [[k' v]|] eqn:Hm; [|discriminate].
    simpl in Hk. inversion Hk; subst k'.
    destruct (@re_match_header_inv _ l k v Hm) as [_ [Cl _]].
    unfold header_pure. rewrite Cl, Hm.
    destruct (dict_mem k d) eqn:M; cbn [negb].
    + apply header_fold_mem. exact M.
    + apply header_fold_mem. unfold dict_mem.
      rewrite dict_get_set_same. reflexivity.
  - destruct (header_pure (d, cur) x) as [d' cur'].
    apply (IH d' cur' l k Hl Hk).
Qed.

Lemma record_of_headers (segment : str) :
  headers (record_of segment) = fst (parse_headers (header_block segment)).
Proof. reflexivity. Qed.

Lemma record_of_keys (segment : str) :
  NoDup (keys (headers (record_of segment)))
  /\ Forall (fun k => k <> [] /\ forallb is_key_char k = true)
            (keys (headers (record_of segment))).
Proof.
  rewrite record_of_headers. unfold parse_headers. split.
  - apply header_fold_NoDup. constructor.
  - apply Forall_forall. intros k Hk.
    apply header_fold_keys in Hk as [[]|[l [_ Hl]]].
    unfold key_of in Hl.
    destruct (re_match_header l) as [[k' v]|] eqn:Hm; [|discriminate].
    simpl in Hl. inversion Hl; subst k'.
    apply (re_match_header_key l k v Hm).
Qed.

(** X4.  In every record [parse_mbox] returns, no header name occurs
    twice, and every header name is a non-empty run of word characters
    and hyphens. *)
Theorem parse_mbox_header_names (mbox_content : str) (w : world FS) :
  exists emails w',
    parse_mbox mbox_content w = (Return emails, w')
    /\ Forall (fun e =>
                 NoDup (keys (headers e))
                 /\ Forall (fun k => k <> [] /\ forallb is_key_char k = true)
                           (keys (headers e)))
              emails.
Proof.
  rewrite parse_mbox_run. do 2 eexists. split; [reflexivity|].
  unfold records_of. apply Forall_forall. intros e He.
  apply in_map_iff in He as [p [<- _]]. apply record_of_keys.
Qed.

(** X5.  A name is among the headers of the record of a message exactly
    when some line of its header block (the lines after the envelope
    line, up to the first blank one) has the form [name: value]. *)
Theorem header_names_are_those_of_the_block
        (emails : list email) (segment : str) (w : world FS) :
  blank segment = false ->
  exists e,
    parse_part emails segment w = (Return (emails ++ [e]), w)
    /\ forall k,
         In k (keys (headers e))
         <-> exists l, In l (take_while nonblank (tl (splitlines segment)))
                       /\ option_map fst (re_match_header l) = Some k.
Proof.
  intros B. rewrite parse_part_run, B. eexists. split; [reflexivity|].
  intros k. rewrite record_of_headers. unfold parse_headers, header_block.
  split.
  - intros Hk. apply header_fold_keys in Hk as [[]|Hk]. exact Hk.
  - intros [l [Hl Hk]]. apply dict_mem_In.
    apply (header_fold_adds _ [] None l k Hl Hk).
Qed.

(** X6.  The envelope line leaves no trace in the record: two messages
    that differ in their first line only give the same record. *)
Theorem envelope_line_is_dropped
        (emails : list email) (env1 env2 rest : str) (w : world FS) :
  one_line env1 = true -> one_line env2 = true ->
  blank (env1 ++ LF :: rest) = false -> blank (env2 ++ LF :: rest) = false ->
  parse_part emails (env1 ++ LF :: rest) w
  = parse_part emails (env2 ++ LF :: rest) w.
Proof.
  intros O1 O2 B1 B2. rewrite !parse_part_run, B1, B2.
  unfold record_of. rewrite !splitlines_first_line by assumption.
  reflexivity.
Qed.

(** X7.  A message without a blank line after the envelope line has an
    empty body: all its lines are taken as header lines. *)
Theorem no_blank_line_no_body
        (emails : list email) (segment : str) (w : world FS) :
  blank segment = false ->
  Forall (fun l => blank l = false) (tl (splitlines segment)) ->
  exists e,
    parse_part emails segment w = (Return (emails ++ [e]), w)
    /\ body e = []
    /\ for_each (tl (splitlines segment)) header_step ([], None) w
       = (Return (parse_headers (tl (splitlines segment))), w)
    /\ headers e = fst (parse_headers (tl (splitlines segment))).
Proof.
  intros B F. rewrite parse_part_run, B. eexists. split; [reflexivity|].
  assert (F' : Forall (fun l => nonblank l = true) (tl (splitlines segment))).
  { eapply Forall_impl; [|exact F]. intros l Bl. unfold nonblank.
    rewrite Bl. reflexivity. }
  pose proof (@take_while_app _ nonblank (tl (splitlines segment)) [] F') as T.
  pose proof (@drop_while_app _ nonblank (tl (splitlines segment)) [] F') as D.
  rewrite app_nil_r in T, D. simpl in T, D. rewrite app_nil_r in T.
  unfold record_of. cbn [body headers]. rewrite T, D.
  split; [reflexivity|]. split; [|reflexivity].
  apply for_each_pure. intros. apply header_step_pure.
Qed.

(** X8.  The record of a message does not depend on how its lines end:
    with every carriage return and line feed pair, and every carriage
    return alone, turned into a line feed, as reading the file does, the
    message gives the same record. *)
Theorem line_endings_do_not_matter
        (emails : list email) (segment : str) (w : world FS) :
  parse_part emails (universal_newlines false segment) w
  = parse_part emails segment w.
Proof.
  rewrite !parse_part_run, blank_universal_newlines.
  unfold record_of, splitlines. rewrite splitlines_universal_newlines.
  reflexivity.
Qed.

End MoreMessages.

(* ------------------------------------------------------------------ *)
(** ** Further properties of [extract_emails_to_json] *)
(* ------------------------------------------------------------------ *)

Section MoreExtract.
Context `{UnicodeDB} {FS : Type} `{OS FS} {out : Stdout}.

(** The text read from a file that holds [raw]. *)
Lemma open_read_ignore (path : str) (raw : list byte) (w : world FS) :
  read_bytes (disk w) path = ReadOk raw ->
  open_read path Ignore w
  = (Return (universal_newlines false (kept (utf8_scan Start raw))), w).
Proof.
  intros R. unfold open_read, ask, bind. rewrite R. reflexivity.
Qed.

(** A handler prints one line. *)
Lemma extract_except_run (input_filename : str) (e : exn) (w : world FS) :
  extract_except input_filename e w
  = print (match e with
           | FileNotFoundError _ => input_not_found input_filename
           | _ => error_occurred (exn_text e)
           end) w.
Proof. destruct e; reflexivity. Qed.

(** The [try] block once the file has been read. *)
Lemma extract_try_read (input_filename output_filename : str)
      (raw : list byte) (w : world FS) :
  os_path_exists (disk w) input_filename = true ->
  read_bytes (disk w) input_filename = ReadOk raw ->
  extract_try input_filename output_filename w
  = let text := universal_newlines false (kept (utf8_scan Start raw)) in
    let emails_data := records_of text in
    (if negb (truthy emails_data)
     then print (u "No emails were parsed.")
     else
       r <- perform (DumpJson output_filename
                              (JArr (map json_of_email emails_data)))
                    (fun d => json_dump d output_filename
                                        (JArr (map json_of_email emails_data))) ;;
       check_io r ;;;
       print (u "Successfully extracted "
                ++ str_of_nat (List.length emails_data)
                ++ u " emails to '" ++ output_filename ++ u "'"))
      (if nothing_found text
       then mk_world (trace w ++ [Print no_emails_found]) (disk w)
       else w).
Proof.
  intros Ex Rd. unfold extract_try, ask. unfold bind at 1.
  rewrite Ex. cbn [negb].
  rewrite (bind_Return _ _ _ (open_read_ignore _ _ _ Rd)).
  rewrite (bind_Return _ _ _ (parse_mbox_run _ w)). reflexivity.
Qed.

(** X9.  When the input file is not there, [extract_emails_to_json]
    prints three lines (the error, the current directory, its files) and
    does nothing else; when the current directory cannot be found either,
    it prints the error line twice, once from the [try] block and once
    from the handler.  When the file is there but cannot be opened, it
    prints one line.  In all these cases it returns, and nothing is
    dumped.  The lines are taken to be ones standard output can encode. *)
Theorem extract_input_unreadable
        (input_filename output_filename : str) (w : world FS) :
  printable input_filename = true ->
  (forall cwd listing,
      os_path_exists (disk w) input_filename = false ->
      os_getcwd (disk w) = TextOk cwd ->
      os_listdir_text (disk w) = TextOk listing ->
      printable cwd = true -> printable listing = true ->
      extract_emails_to_json input_filename output_filename w
      = (Return tt,
         mk_world (trace w
                    ++ [Print (input_not_found input_filename);
                        Print (u "Current directory: " ++ cwd);
                        Print (u "Files in current directory: " ++ listing)])
                  (disk w)))
  /\ (forall m,
         os_path_exists (disk w) input_filename = false ->
         os_getcwd (disk w) = TextNotFound m ->
         extract_emails_to_json input_filename output_filename w
         = (Return tt,
            mk_world (trace w
                       ++ [Print (input_not_found input_filename);
                           Print (input_not_found input_filename)])
                     (disk w)))
  /\ (forall m,
         os_path_exists (disk w) input_filename = true ->
         read_bytes (disk w) input_filename = ReadNotFound m ->
         extract_emails_to_json input_filename output_filename w
         = (Return tt,
            mk_world (trace w ++ [Print (input_not_found input_filename)])
                     (disk w)))
  /\ (forall m,
         os_path_exists (disk w) input_filename = true ->
         read_bytes (disk w) input_filename = ReadFailed m ->
         printable m = true ->
         extract_emails_to_json input_filename output_filename w
         = (Return tt,
            mk_world (trace w ++ [Print (error_occurred m)]) (disk w))).
Proof.
  intros Pi.
  assert (Pl : printable (input_not_found input_filename) = true)
    by (unfold input_not_found; solve_printable).
  unfold extract_emails_to_json, try_except, extract_try, ask.
  fold (input_not_found input_filename).
  split; [|split; [|split]].
  - intros cwd listing Ex G L Pc Pg. unfold bind at 1. rewrite Ex. cbn [negb].
    unfold bind, ask_text. rewrite (print_run _ _ Pl). cbn [disk].
    rewrite G. rewrite print_run by solve_printable. cbn [disk].
    rewrite L. rewrite print_run by solve_printable. cbn [trace disk].
    rewrite <- !app_assoc. reflexivity.
  - intros m Ex G. unfold bind at 1. rewrite Ex. cbn [negb].
    unfold bind, ask_text. rewrite (print_run _ _ Pl). cbn [disk].
    rewrite G. cbv beta iota.
    rewrite extract_except_run, (print_run _ _ Pl).
    cbn [trace disk]. rewrite <- !app_assoc. reflexivity.
  - intros m Ex Rd. unfold bind at 1. rewrite Ex. cbn [negb].
    unfold open_read, ask, bind. rewrite Rd. unfold raise. cbv beta iota.
    rewrite extract_except_run. apply print_run. exact Pl.
  - intros m Ex Rd Pm. unfold bind at 1. rewrite Ex. cbn [negb].
    unfold open_read, ask, bind. rewrite Rd. unfold raise. cbv beta iota.
    rewrite extract_except_run. apply print_run.
    unfold error_occurred. cbn [exn_text]. solve_printable.
Qed.

(** X10.  When the input file holds a blank text (an empty file, or
    whitespace only), two lines are printed, the diagnostic of
    [parse_mbox] and that of the caller, and nothing is dumped: the output
    file is left as it was. *)
Theorem extract_blank_input
        (input_filename output_filename : str) (raw : list byte)
        (w : world FS) :
  os_path_exists (disk w) input_filename = true ->
  read_bytes (disk w) input_filename = ReadOk raw ->
  blank (universal_newlines false (kept (utf8_scan Start raw))) = true ->
  extract_emails_to_json input_filename output_filename w
  = (Return tt,
     mk_world (trace w ++ [Print no_emails_found;
                           Print (u "No emails were parsed.")])
              (disk w)).
Proof.
  intros Ex Rd B.
  unfold extract_emails_to_json, try_except.
  rewrite (extract_try_read _ output_filename _ _ Ex Rd). cbn zeta.
  destruct (records_of_blank _ B) as [-> ->]. cbn [truthy negb].
  rewrite print_run by reflexivity.
  cbn [trace disk]. rewrite <- app_assoc. reflexivity.
Qed.

(** X11.  When the input file holds a text that is not blank and the dump
    succeeds, the records of the text (undecodable bytes left out, line
    ends translated) are dumped once to the output file, and one line is
    printed, with their number and the name of the output file, which is
    taken to be one standard output can encode. *)
Theorem extract_success
        (input_filename output_filename : str) (raw : list byte)
        (w : world FS) (d' : FS) :
  os_path_exists (disk w) input_filename = true ->
  read_bytes (disk w) input_filename = ReadOk raw ->
  blank (universal_newlines false (kept (utf8_scan Start raw))) = false ->
  json_dump (disk w) output_filename
            (JArr (map json_of_email
                       (records_of (universal_newlines false
                                      (kept (utf8_scan Start raw))))))
  = (IoOk, d') ->
  printable output_filename = true ->
  extract_emails_to_json input_filename output_filename w
  = (Return tt,
     mk_world
       (trace w
          ++ [DumpJson output_filename
                (JArr (map json_of_email
                           (records_of (universal_newlines false
                                          (kept (utf8_scan Start raw))))));
              Print (u "Successfully extracted "
                       ++ str_of_nat
                            (List.length
                               (records_of (universal_newlines false
                                              (kept (utf8_scan Start raw)))))
                       ++ u " emails to '" ++ output_filename ++ u "'")])
       d').
Proof.
  intros Ex Rd B Dm Po.
  unfold extract_emails_to_json, try_except.
  rewrite (extract_try_read _ output_filename _ _ Ex Rd). cbn zeta.
  set (text := universal_newlines false (kept (utf8_scan Start raw))) in *.
  destruct (records_of_nonblank _ B) as [Ne ->].
  destruct (records_of text) as [|e es] eqn:Er; [congruence|].
  cbn [truthy negb]. unfold perform, bind. rewrite Dm.
  unfold check_io, ret. rewrite print_run by solve_printable.
  cbn [trace disk]. rewrite <- app_assoc. reflexivity.
Qed.

(** X12.  When the dump fails, the failure is printed and the run still
    returns, the line being one standard output can encode.  A
    [FileNotFoundError] raised for the output file is reported as the
    input file not being found, although the input file was there and
    was read. *)
Theorem extract_dump_failure
        (input_filename output_filename : str) (raw : list byte)
        (w : world FS) (r : io_result) (d' : FS) :
  os_path_exists (disk w) input_filename = true ->
  read_bytes (disk w) input_filename = ReadOk raw ->
  blank (universal_newlines false (kept (utf8_scan Start raw))) = false ->
  json_dump (disk w) output_filename
            (JArr (map json_of_email
                       (records_of (universal_newlines false
                                      (kept (utf8_scan Start raw))))))
  = (r, d') ->
  r <> IoOk ->
  printable (failure_line input_filename r) = true ->
  extract_emails_to_json input_filename output_filename w
  = (Return tt,
     mk_world
       (trace w
          ++ [DumpJson output_filename
                (JArr (map json_of_email
                           (records_of (universal_newlines false
                                          (kept (utf8_scan Start raw))))));
              Print (failure_line input_filename r)])
       d').
Proof.
  intros Ex Rd B Dm Nr Pl.
  unfold extract_emails_to_json, try_except.
  rewrite (extract_try_read _ output_filename _ _ Ex Rd). cbn zeta.
  set (text := universal_newlines false (kept (utf8_scan Start raw))) in *.
  destruct (records_of_nonblank _ B) as [Ne ->].
  destruct (records_of text) as [|e es] eqn:Er; [congruence|].
  cbn [truthy negb]. unfold perform, bind. rewrite Dm.
  destruct r; [congruence| | |];
    unfold check_io, raise; rewrite extract_except_run;
    cbn [failure_line io_message exn_text] in *;
    rewrite (print_run _ _ Pl); cbn [trace disk];
    rewrite <- app_assoc; reflexivity.
Qed.

(** What a run of the [try] block can do: print, and dump once to the
    output file. *)
Lemma extract_try_shape
      (input_filename output_filename : str) (w : world FS) :
  exists o w' es,
    extract_try input_filename output_filename w = (o, w')
    /\ trace w' = trace w ++ es
    /\ Forall (extract_event output_filename) es
    /\ List.length (dumps es) <= 1
    /\ (disk w' = disk w
        \/ exists v, disk w' = snd (json_dump (disk w) output_filename v)).
Proof.
  assert (Fin : forall (o : outcome unit) (es : list event) (d : FS),
             Forall (extract_event output_filename) es ->
             List.length (dumps es) <= 1 ->
             (d = disk w
              \/ exists v, d = snd (json_dump (disk w) output_filename v)) ->
             exists o' w' es',
               (o, mk_world (trace w ++ es) d) = (o', w')
               /\ trace w' = trace w ++ es'
               /\ Forall (extract_event output_filename) es'
               /\ List.length (dumps es') <= 1
               /\ (disk w' = disk w
                   \/ exists v,
                        disk w' = snd (json_dump (disk w) output_filename v))).
  { intros o es d F C D. exists o, (mk_world (trace w ++ es) d), es.
    repeat split; auto. }
  assert (W0 : w = mk_world (trace w ++ []) (disk w))
    by (rewrite app_nil_r; destruct w; reflexivity).
  assert (Fin0 : forall o : outcome unit,
             exists o' w' es',
               (o, w) = (o', w')
               /\ trace w' = trace w ++ es'
               /\ Forall (extract_event output_filename) es'
               /\ List.length (dumps es') <= 1
               /\ (disk w' = disk w
                   \/ exists v,
                        disk w' = snd (json_dump (disk w) output_filename v))).
  { intros o. exists o, w, []. rewrite app_nil_r. simpl.
    repeat split; auto. }
  unfold extract_try, ask. unfold bind at 1.
  destruct (os_path_exists (disk w) input_filename) eqn:Ex; cbn [negb].
  - destruct (read_bytes (disk w) input_filename) as [raw|m|m] eqn:Rd.
    + fold (extract_try input_filename output_filename).
      pose proof (extract_try_read _ output_filename _ _ Ex Rd) as E.
      unfold extract_try, ask in E. unfold bind at 1 in E.
      rewrite Ex in E. cbn [negb] in E. rewrite E. clear E. cbn zeta.
      set (text := universal_newlines false (kept (utf8_scan Start raw))).
      set (w1 := if nothing_found text
                 then mk_world (trace w ++ [Print no_emails_found]) (disk w)
                 else w).
      assert (T1 : exists es1, Forall (fun e => exists l, e = Print l) es1
                               /\ w1 = mk_world (trace w ++ es1) (disk w)).
      { unfold w1. destruct (nothing_found text).
        - eexists. split; [|reflexivity]. repeat constructor. eauto.
        - exists []. split; [constructor | exact W0]. }
      destruct T1 as [es1 [F1 ->]].
      assert (F1' : Forall (extract_event output_filename) es1).
      { eapply Forall_impl; [|exact F1]. intros e [l ->]. exact I. }
      assert (D1 : dumps es1 = []).
      { clear - F1. induction F1 as [|e es [l ->] _ IH]; [reflexivity|].
        exact IH. }
      destruct (records_of text) as [|e es] eqn:Er; cbn [truthy negb].
      * destruct (print_cases (u "No emails were parsed.")
                              (mk_world (trace w ++ es1) (disk w)))
          as [-> | [_ ->]]; cbn [trace disk]; rewrite <- ?app_assoc;
          apply Fin; auto; try (rewrite D1; simpl; lia).
        -- apply Forall_app. split; [exact F1' | repeat constructor].
        -- unfold dumps. rewrite filter_app. fold (dumps es1). rewrite D1.
           simpl. lia.
      * unfold perform, bind. cbn [trace disk].
        match goal with
        | |- context [json_dump ?d ?p ?v] =>
            destruct (json_dump d p v) as [r d1] eqn:Dm
        end.
        assert (Dk : d1 = disk w
                     \/ exists v,
                          d1 = snd (json_dump (disk w) output_filename v)).
        { right. eexists. exact (eq_sym (f_equal snd Dm)). }
        assert (Fd : forall l,
                   Forall (extract_event output_filename)
                          (es1 ++ DumpJson output_filename l :: nil)).
        { intros l. apply Forall_app. split; [exact F1'|].
          repeat constructor. }
        assert (Cd : forall l,
                   List.length (dumps (es1 ++ DumpJson output_filename l :: nil))
                   <= 1).
        { intros l. unfold dumps. rewrite filter_app. fold (dumps es1).
          rewrite D1. simpl. lia. }
        destruct r; unfold check_io, ret, raise; rewrite <- ?app_assoc;
          try (apply Fin; auto).
        match goal with
        | |- context [print ?l ?w0] =>
            destruct (print_cases l w0) as [-> | [_ ->]]
        end; cbn [trace disk]; rewrite <- ?app_assoc; apply Fin; auto.
        -- apply Forall_app. split; [exact F1'|]. repeat constructor.
        -- unfold dumps. rewrite filter_app. fold (dumps es1). rewrite D1.
           simpl. lia.
    + unfold open_read, ask, bind. rewrite Rd. apply Fin0.
    + unfold open_read, ask, bind. rewrite Rd. apply Fin0.
  - unfold bind, ask_text.
    match goal with
    | |- context [print ?l w] => destruct (print_cases l w) as [-> | [_ ->]]
    end.
    2:{ apply Fin0. }
    cbn [disk].
    destruct (os_getcwd (disk w)) as [cwd|m|m];
      try (apply Fin; [repeat constructor | simpl; lia | auto]).
    match goal with
    | |- context [print ?l ?w0] =>
        destruct (print_cases l w0) as [-> | [_ ->]]
    end.
    2:{ apply Fin; [repeat constructor | simpl; lia | auto]. }
    cbn [trace disk]. rewrite <- app_assoc.
    destruct (os_listdir_text (disk w)) as [listing|m|m];
      try (apply Fin; [repeat constructor | simpl; lia | auto]).
    match goal with
    | |- context [print ?l ?w0] =>
        destruct (print_cases l w0) as [-> | [_ ->]]
    end; cbn [trace disk]; rewrite <- ?app_assoc;
      (apply Fin; [repeat constructor | simpl; lia | auto]).
Qed.

(** What a whole run can do, and how it can end. *)
Lemma extract_run_shape
      (input_filename output_filename : str) (w : world FS) :
  exists o w' es,
    extract_emails_to_json input_filename output_filename w = (o, w')
    /\ trace w' = trace w ++ es
    /\ Forall (extract_event output_filename) es
    /\ List.length (dumps es) <= 1
    /\ (disk w' = disk w
        \/ exists v, disk w' = snd (json_dump (disk w) output_filename v))
    /\ (o = Return tt
        \/ exists line,
             printable line = false
             /\ (line = input_not_found input_filename
                 \/ exists m, line = error_occurred m)
             /\ o = Raise (UnicodeEncodeError (stdout_error_text line))).
Proof.
  destruct (extract_try_shape input_filename output_filename w)
    as [o [w1 [es [E [T [F [C D]]]]]]].
  unfold extract_emails_to_json, try_except. rewrite E.
  destruct o as [[]|e].
  - exists (Return tt), w1, es. auto 10.
  - rewrite extract_except_run.
    match goal with
    | |- context [print ?l w1] => set (line := l)
    end.
    assert (Hl : line = input_not_found input_filename
                 \/ exists m, line = error_occurred m)
      by (unfold line; destruct e; eauto).
    destruct (print_cases line w1) as [-> | [P ->]].
    + exists (Return tt), (mk_world (trace w1 ++ [Print line]) (disk w1)),
        (es ++ [Print line]).
      split; [reflexivity|].
      cbn [trace disk]. rewrite T, <- app_assoc.
      split; [reflexivity|]. split.
      { apply Forall_app. split; [exact F | repeat constructor]. }
      split.
      { unfold dumps in *. rewrite filter_app. simpl. rewrite app_nil_r.
        exact C. }
      split; [exact D | left; reflexivity].
    + do 2 eexists. exists es. split; [reflexivity|].
      split; [exact T|]. split; [exact F|]. split; [exact C|].
      split; [exact D|]. right. eexists. split; [exact P|].
      split; [exact Hl | reflexivity].
Qed.

(** X13.  Every exception raised inside the [try] block of
    [extract_emails_to_json] is caught: the run returns, unless the line a
    handler prints is one standard output cannot encode, and then it ends
    in the [UnicodeEncodeError] of that [print].  All it does is print
    lines and, at most once, dump to the output file. *)
Theorem extract_raises_only_from_a_handler
        (input_filename output_filename : str) (w : world FS) :
  exists o w' es,
    extract_emails_to_json input_filename output_filename w = (o, w')
    /\ trace w' = trace w ++ es
    /\ Forall (extract_event output_filename) es
    /\ List.length (dumps es) <= 1
    /\ (o = Return tt
        \/ exists line,
             printable line = false
             /\ (line = input_not_found input_filename
                 \/ exists m, line = error_occurred m)
             /\ o = Raise (UnicodeEncodeError (stdout_error_text line))).
Proof.
  destruct (extract_run_shape input_filename output_filename w)
    as [o [w' [es [E [T [F [C [_ O]]]]]]]].
  exists o, w', es. auto.
Qed.

End MoreExtract.

(* ------------------------------------------------------------------ *)
(** ** Further properties of [sanitize_filename] and the file name *)
(* ------------------------------------------------------------------ *)

(** X14.  On a falsy value ([None], zero, an empty string, list or
    object) [sanitize_filename] returns the empty string; on a truthy
    value that is not a string it raises [TypeError]. *)
Theorem sanitize_filename_edges (W : Type) (v : json) (w : W) :
  (json_truthy v = false -> sanitize_filename v w = (Return [], w))
  /\ (json_truthy v = true -> (forall s, v <> JStr s) ->
      sanitize_filename v w = (Raise TypeError, w)).
Proof.
  unfold sanitize_filename. split.
  - intros ->. reflexivity.
  - intros -> Ns. cbn [negb]. destruct v as [| | | |s| |]; try reflexivity.
    destruct (Ns s eq_refl).
Qed.

(** X15.  The strings [sanitize_filename] returns unchanged are exactly
    the clean ones: none of the stripped characters, no whitespace, at
    most 200 characters. *)
Theorem sanitize_filename_fixed_points (W : Type) (s : str) (w : W) :
  sanitize_filename (JStr s) w = (Return s, w) <-> clean_name s.
Proof.
  rewrite sanitize_filename_run. unfold clean_name. split.
  - intros E. inversion E as [E']. rewrite E'.
    rewrite <- E' at 1 2 3. apply sanitized_clean.
  - intros [V [S L]]. unfold sanitized.
    rewrite (remove_invalid_id V), (collapse_whitespace_id S).
    rewrite firstn_all2 by exact L. reflexivity.
Qed.

Section MoreFilenames.
Context {FS : Type} `{OS FS} `{PyBuiltins} {out : Stdout}.

(** X16.  For headers that are all strings, deriving the file name never
    raises, and the name is [.eml] after a base that is not empty. *)
Theorem filename_has_a_base (hdrs : dict json) (i : nat) (w : world FS) :
  string_valued hdrs = true ->
  exists base,
    base <> []
    /\ eml_filename_of hdrs i w = (Return (base ++ u ".eml"), w).
Proof.
  intros V. rewrite (filename_of_valid hdrs i w V). unfold filename_for.
  assert (Fb : exists base,
             base <> []
             /\ (Return (fallback_name i), w)
                = (Return (base ++ u ".eml"), w)).
  { exists (u "email_" ++ str_of_nat (i + 1)). split; [discriminate|].
    unfold fallback_name. rewrite <- app_assoc. reflexivity. }
  destruct (usable hdrs X_CCC_HASH) eqn:Uh.
  - unfold usable in Uh. unfold dict_get_default.
    destruct (dict_get hdrs X_CCC_HASH) as [v|] eqn:G; [|discriminate].
    destruct (string_valued_get hdrs X_CCC_HASH v V G) as [h ->].
    exists h. split; [|reflexivity]. intros ->. discriminate Uh.
  - destruct (dict_get hdrs Subject) as [[| | | |s| |]|]; try exact Fb.
    destruct (sanitized s) as [|c t] eqn:E; [exact Fb|].
    exists (c :: t). split; [discriminate | reflexivity].
Qed.

End MoreFilenames.

Section MoreFilenamesExamples.
#[local] Existing Instance utf8_stdout.
#[local] Existing Instance simple_os.
#[local] Existing Instance sample_builtins.

Lemma sanitize_filename_edges_witness :
  sanitize_filename JNull (fresh empty_fs) = (Return [], fresh empty_fs)
  /\ sanitize_filename (JInt 7) (fresh empty_fs)
     = (Raise TypeError, fresh empty_fs).
Proof.
  split.
  - apply (proj1 (sanitize_filename_edges _ JNull (fresh empty_fs))).
    reflexivity.
  - apply (proj2 (sanitize_filename_edges _ (JInt 7) (fresh empty_fs)));
      [reflexivity | discriminate].
Defined.

Lemma filename_has_a_base_witness :
  exists base,
    base <> []
    /\ eml_filename_of (string_headers [("Subject"%string, "?"%string)]) 2
                       (fresh empty_fs)
       = (Return (base ++ u ".eml"), fresh empty_fs).
Proof.
  apply (filename_has_a_base _ 2 (fresh empty_fs)). reflexivity.
Defined.

End MoreFilenamesExamples.

(* ------------------------------------------------------------------ *)
(** ** Further properties of [convert_json_to_eml] *)
(* ------------------------------------------------------------------ *)

Lemma for_each_app {W A S} (xs ys : list A) (body : S -> A -> Py W S) :
  forall (s : S) (w : W),
    for_each (xs ++ ys) body s w
    = match for_each xs body s w with
      | (Return s', w') => for_each ys body s' w'
      | (Raise e, w') => (Raise e, w')
      end.
Proof.
  induction xs as [|x xs IH]; intros s w; [reflexivity|].
  cbn [app for_each]. unfold bind.
  destruct (body s x w) as [[s'|e] w']; [apply IH | reflexivity].
Qed.

Lemma combine_seq_app {A} (a b : list A) :
  forall k,
    combine (seq k (List.length (a ++ b))) (a ++ b)
    = combine (seq k (List.length a)) a
      ++ combine (seq (k + List.length a) (List.length b)) b.
Proof.
  induction a as [|x a IH]; intros k.
  - simpl. rewrite Nat.add_0_r. reflexivity.
  - simpl. rewrite IH. rewrite <- Nat.add_succ_comm. reflexivity.
Qed.

Lemma bind_Raise {W A B} (c : Py W A) (k : A -> Py W B) (w : W)
      (e : exn) (w' : W) :
  c w = (Raise e, w') -> bind c k w = (Raise e, w').
Proof. intros E. unfold bind. rewrite E. reflexivity. Qed.


Section MoreConvertClaims.
Context {FS : Type} `{OS FS} `{PyBuiltins} {out : Stdout}.

Lemma sanitize_filename_raises (v : json) (w : world FS) :
  json_truthy v = true -> (forall s, v <> JStr s) ->
  sanitize_filename v w = (Raise TypeError, w).
Proof.
  intros Tv Ns. unfold sanitize_filename. rewrite Tv. cbn [negb].
  destruct v as [| | | |s| |]; try reflexivity. destruct (Ns s eq_refl).
Qed.

Lemma eml_filename_of_raises (hdrs : dict json) (i : nat) (v : json)
      (w : world FS) :
  usable hdrs X_CCC_HASH = false ->
  dict_get hdrs Subject = Some v ->
  json_truthy v = true -> (forall s, v <> JStr s) ->
  eml_filename_of hdrs i w = (Raise TypeError, w).
Proof.
  intros Uh Gs Tv Ns. unfold eml_filename_of.
  rewrite (bind_Return _ _ _ (present_and_truthy_run hdrs X_CCC_HASH w)), Uh.
  apply bind_Raise.
  rewrite (bind_Return _ _ _ (present_and_truthy_run hdrs Subject w)).
  unfold usable. rewrite Gs, Tv.
  unfold dict_getitem. rewrite Gs. unfold bind at 1, ret at 1.
  apply bind_Raise. apply sanitize_filename_raises; assumption.
Qed.

Lemma export_email_raises (output_dir : str) (i : nat)
      (obj hdrs : dict json) (v : json) (w : world FS) :
  headers_of obj = JObj hdrs ->
  usable hdrs X_CCC_HASH = false ->
  dict_get hdrs Subject = Some v ->
  json_truthy v = true -> (forall s, v <> JStr s) ->
  export_email output_dir tt (i, JObj obj) w = (Raise TypeError, w).
Proof.
  intros Ho Uh Gs Tv Ns. unfold export_email.
  unfold headers_of in Ho. rewrite Ho.
  apply bind_Raise. apply (eml_filename_of_raises hdrs i v w); assumption.
Qed.

(** An element on which the body of the loop raises ends the run there:
    the elements before it have been dealt with, those after it are
    never reached. *)
Lemma convert_aborts (Q : exn -> Prop) (ws : list (str * str))
      (json_file_path output_dir : str) (before after : list json)
      (item : json) (w : world FS) :
  json_load (disk w) json_file_path
  = Loaded (JArr (before ++ item :: after)) ->
  directory_ready (disk w) output_dir ->
  printable json_file_path = true ->
  printable output_dir = true ->
  Forall (fun r => valid_record r = true) before ->
  Forall (reportable output_dir) (enumerate before) ->
  (forall w2 : world FS, exists e w3 es3,
      export_email output_dir tt (List.length before, item) w2 = (Raise e, w3)
      /\ Q e /\ trace w3 = trace w2 ++ es3 /\ writes es3 = ws) ->
  exists e w' es,
    convert_json_to_eml json_file_path output_dir w = (Raise e, w')
    /\ Q e
    /\ trace w' = trace w ++ es
    /\ writes es = flat_map (write_for output_dir) (enumerate before) ++ ws
    /\ List.length (writes es) = List.length before + List.length ws.
Proof.
  intros L D Pj Po Fb Rb Ab.
  (* the export, from any world *)
  assert (Export : forall w1 : world FS, exists e w2 es,
             (print (u "Found "
                       ++ str_of_nat (List.length (before ++ item :: after))
                       ++ u " emails in '" ++ json_file_path
                       ++ u "'. Starting conversion...") ;;;
              export_all output_dir (before ++ item :: after) ;;;
              print (conversion_complete
                       (List.length (before ++ item :: after)) output_dir))
               w1
             = (Raise e, w2)
             /\ Q e
             /\ trace w2 = trace w1 ++ es
             /\ writes es
                = flat_map (write_for output_dir) (enumerate before) ++ ws
             /\ List.length (writes es)
                = List.length before + List.length ws).
  { intros w1. unfold bind at 1. rewrite print_run by solve_printable.
    assert (Fok : Forall (fun r => is_record r = false \/ valid_record r = true)
                         before).
    { eapply Forall_impl; [|exact Fb]. simpl. auto. }
    match goal with
    | |- context [mk_world (trace w1 ++ [?f]) (disk w1)] =>
        destruct (export_loop output_dir before 0
                    (mk_world (trace w1 ++ [f]) (disk w1)) Fok Rb)
          as [w2 [es [E [T [_ [Cf Cl]]]]]];
        destruct (Ab w2) as [e [w3 [es3 [E3 [Qe [T3 W3]]]]]];
        exists e, w3, (f :: es ++ es3)
    end.
    split.
    - apply bind_Raise. unfold export_all, enumerate.
      rewrite combine_seq_app, for_each_app, E.
      cbn [List.length seq combine for_each]. apply bind_Raise.
      exact E3.
    - split; [exact Qe|]. cbn [trace] in T.
      split; [rewrite T3, T, <- !app_assoc; reflexivity|].
      assert (Wr : forall l,
                 writes (Print l :: es ++ es3) = writes es ++ writes es3).
      { intros l. unfold writes. cbn [flat_map app]. apply flat_map_app. }
      rewrite Wr, W3. split; [rewrite Cf; reflexivity|].
      rewrite length_app, Cl. f_equal. f_equal. apply filter_all.
      eapply Forall_impl; [|exact Fb]. apply valid_is_record. }
  rewrite (convert_loaded _ output_dir _ _ L). cbn zeta.
  destruct (os_path_exists (disk w) output_dir) eqn:Ex.
  - apply Export.
  - destruct D as [D|D]; [congruence|].
    destruct (os_makedirs (disk w) output_dir) as [r d]. simpl in D. subst r.
    unfold bind at 1. rewrite print_run by solve_printable.
    cbn [trace disk]. rewrite <- app_assoc. cbn [app].
    match goal with
    | |- context [mk_world (trace w ++ [?a; ?b]) d] =>
        destruct (Export (mk_world (trace w ++ [a; b]) d))
          as [e [w' [es [E [Qe [T [Cf Cl]]]]]]];
        exists e, w', (a :: b :: es)
    end.
    split; [exact E|]. split; [exact Qe|]. cbn [trace] in T.
    split; [rewrite T, <- app_assoc; reflexivity|].
    split; [exact Cf | exact Cl].
Qed.

(** A line about a path that cannot be printed cannot be printed. *)
Lemma unprintable_line (a p b : str) :
  printable p = false -> printable (a ++ p ++ b) = false.
Proof.
  intros P. rewrite !printable_app, P. apply andb_false_r.
Qed.

(** X17.  A record whose [Subject] is a truthy value that is not a
    string, and that has no usable [X-CCC-HASH], aborts the whole run with
    an uncaught [TypeError]: the records before it (records with string
    headers, the lines about them being ones standard output can encode)
    have been written, and none of those after it is. *)
Theorem non_string_subject_aborts
        (json_file_path output_dir : str) (before after : list json)
        (obj hdrs : dict json) (v : json) (w : world FS) :
  json_load (disk w) json_file_path
  = Loaded (JArr (before ++ JObj obj :: after)) ->
  directory_ready (disk w) output_dir ->
  printable json_file_path = true ->
  printable output_dir = true ->
  Forall (fun r => valid_record r = true) before ->
  Forall (reportable output_dir) (enumerate before) ->
  headers_of obj = JObj hdrs ->
  usable hdrs X_CCC_HASH = false ->
  dict_get hdrs Subject = Some v ->
  json_truthy v = true -> (forall s, v <> JStr s) ->
  exists w' es,
    convert_json_to_eml json_file_path output_dir w = (Raise TypeError, w')
    /\ trace w' = trace w ++ es
    /\ writes es = flat_map (write_for output_dir) (enumerate before)
    /\ List.length (writes es) = List.length before.
Proof.
  intros L D Pj Po Fb Rb Ho Uh Gs Tv Ns.
  destruct (convert_aborts (fun e => e = TypeError) []
              json_file_path output_dir before after (JObj obj) w
              L D Pj Po Fb Rb)
    as [e [w' [es [E [-> [T [Wr Ln]]]]]]].
  { intros w2. exists TypeError, w2, []. rewrite app_nil_r.
    split; [|auto].
    apply (export_email_raises output_dir _ obj hdrs v w2); assumption. }
  exists w', es. split; [exact E|]. split; [exact T|].
  rewrite app_nil_r in Wr. simpl in Ln. rewrite Nat.add_0_r in Ln.
  split; [exact Wr | exact Ln].
Qed.

(** X25.  A record whose file has a path that standard output cannot
    encode aborts the whole run: whatever becomes of the write, the line
    about it is refused, in the handler at the latest, and the
    [UnicodeEncodeError] leaves the function.  The records before it have
    been written, the write of the record itself has been called for, and
    the records after it are never reached. *)
Theorem unprintable_path_aborts
        (json_file_path output_dir : str) (before after : list json)
        (v : json) (p c : str) (w : world FS) :
  json_load (disk w) json_file_path = Loaded (JArr (before ++ v :: after)) ->
  directory_ready (disk w) output_dir ->
  printable json_file_path = true ->
  printable output_dir = true ->
  Forall (fun r => valid_record r = true) before ->
  Forall (reportable output_dir) (enumerate before) ->
  valid_record v = true ->
  write_for output_dir (List.length before, v) = [(p, c)] ->
  printable p = false ->
  exists m w' es,
    convert_json_to_eml json_file_path output_dir w
    = (Raise (UnicodeEncodeError m), w')
    /\ trace w' = trace w ++ es
    /\ writes es
       = flat_map (write_for output_dir) (enumerate before) ++ [(p, c)]
    /\ List.length (writes es) = List.length before + 1.
Proof.
  intros L D Pj Po Fb Rb V Wf Pp.
  destruct (convert_aborts (fun e => exists m, e = UnicodeEncodeError m)
              [(p, c)] json_file_path output_dir before after v w
              L D Pj Po Fb Rb)
    as [e [w' [es [E [[m ->] [T [Wr Ln]]]]]]].
  { intros w2. unfold export_email. unfold write_for in Wf.
    cbn [snd fst] in Wf.
    destruct v as [| | | | | |members]; try discriminate V.
    simpl in V. unfold headers_of, body_of in *.
    destruct (dict_get_default members (u "headers") (JObj [])) as
      [| | | | | |hdrs]; try discriminate V.
    inversion Wf as [[Ep Ec]]. clear Wf.
    erewrite bind_Return by (apply filename_of_valid; exact V).
    rewrite Ep, Ec.
    unfold try_except, perform, bind. cbn [disk trace].
    destruct (write_text (disk w2) p c) as [r d].
    destruct r; unfold check_io, ret, raise;
      repeat rewrite print_refused by (apply unprintable_line; exact Pp);
      do 2 eexists; exists [WriteFile p c];
      (split; [reflexivity|]); (split; [eexists; reflexivity|]);
      split; reflexivity. }
  exists m, w', es. split; [exact E|]. split; [exact T|].
  split; [exact Wr | exact Ln].
Qed.

(** X18.  When the document cannot be loaded, or is not an array, one
    line is printed and nothing else happens: no directory is made and no
    file is written.  The path, and the text of a failure that is neither
    a missing file nor a decoding error, are taken to be ones standard
    output can encode. *)
Theorem convert_unusable_document
        (json_file_path output_dir : str) (w : world FS) :
  (forall emails_data,
      json_load (disk w) json_file_path <> Loaded (JArr emails_data)) ->
  printable json_file_path = true ->
  (forall m, json_load (disk w) json_file_path = LoadFailed m ->
             printable m = true) ->
  exists line,
    convert_json_to_eml json_file_path output_dir w
    = (Return tt, mk_world (trace w ++ [Print line]) (disk w))
    /\ is_warning (Print line) = false.
Proof.
  intros N Pj Pm. unfold convert_json_to_eml, ask. unfold bind at 1.
  destruct (json_load (disk w) json_file_path) as [v| | |m] eqn:L.
  - destruct v;
      try (eexists; split; [apply print_run; reflexivity | reflexivity]).
    destruct (N items eq_refl).
  - eexists; split; [apply print_run; solve_printable | reflexivity].
  - eexists; split; [apply print_run; solve_printable | reflexivity].
  - specialize (Pm m eq_refl).
    eexists; split; [apply print_run; solve_printable | reflexivity].
Qed.

(** X19.  When the output directory is missing and cannot be made, no
    record is exported, whatever the array holds: an [OSError] is printed
    (the directory and the text of the error being ones standard output
    can encode) and the run returns, any other exception leaves the run
    uncaught. *)
Theorem convert_directory_failure
        (json_file_path output_dir : str) (emails_data : list json)
        (w : world FS) (r : io_result) (d : FS) :
  json_load (disk w) json_file_path = Loaded (JArr emails_data) ->
  os_path_exists (disk w) output_dir = false ->
  os_makedirs (disk w) output_dir = (r, d) ->
  r <> IoOk ->
  printable output_dir = true ->
  printable (io_message r) = true ->
  exists o es,
    convert_json_to_eml json_file_path output_dir w
    = (o, mk_world (trace w ++ Makedirs output_dir :: es) d)
    /\ writes es = []
    /\ match r with
       | IoException e => o = Raise (Exception e) /\ es = []
       | IoFileNotFound e | IoOSError e =>
           o = Return tt
           /\ es = [Print (u "Error creating output directory '"
                             ++ output_dir ++ u "': " ++ e)]
       | IoOk => False
       end.
Proof.
  intros L Ex Mk Nr Po Pm. rewrite (convert_loaded _ output_dir _ _ L).
  cbn zeta. rewrite Ex, Mk.
  destruct r; [congruence| | |]; cbn [io_message] in Pm;
    try rewrite print_run by solve_printable;
    cbn [trace disk]; rewrite <- ?app_assoc;
    do 2 eexists;
    (split; [reflexivity|]); split; try reflexivity; split; reflexivity.
Qed.

(** X20.  On an array of which every element is either no record or a
    record with string headers, with the output directory there or made,
    and with every line of the run one that standard output can encode,
    the run returns; it prints one warning for each element that is no
    record and calls for one file for each record, in the order of the
    array; the closing line counts the elements of the array, skipped
    ones included. *)
Theorem convert_counts
        (json_file_path output_dir : str) (emails_data : list json)
        (w : world FS) :
  json_load (disk w) json_file_path = Loaded (JArr emails_data) ->
  directory_ready (disk w) output_dir ->
  printable json_file_path = true ->
  printable output_dir = true ->
  Forall (fun v => is_record v = false \/ valid_record v = true)
         emails_data ->
  Forall (reportable output_dir) (enumerate emails_data) ->
  exists w' es,
    convert_json_to_eml json_file_path output_dir w = (Return tt, w')
    /\ trace w' = trace w ++ es
    /\ List.length (filter is_warning es)
       = List.length (filter (fun v => negb (is_record v)) emails_data)
    /\ writes es = flat_map (write_for output_dir) (enumerate emails_data)
    /\ List.length (writes es) = List.length (filter is_record emails_data)
    /\ last (printed es) []
       = conversion_complete (List.length emails_data) output_dir.
Proof. apply convert_records_run. Qed.

Lemma json_of_email_valid `{UnicodeDB} (e : email) :
  valid_record (json_of_email e) = true.
Proof.
  unfold json_of_email, valid_record, headers_of, dict_get_default.
  cbn [dict_get]. rewrite str_eqb_refl. unfold string_valued.
  induction (headers e) as [|kv hs IH]; [reflexivity|]. exact IH.
Qed.

Lemma eml_content_of_email (e : email) :
  eml_content_of (json_headers e) (JStr (body e)) = eml_text e.
Proof.
  unfold eml_content_of, eml_text, json_headers. f_equal.
  induction (headers e) as [|kv hs IH]; [reflexivity|].
  cbn [map flat_map fst snd header_text]. rewrite IH, <- !app_assoc.
  reflexivity.
Qed.

Lemma write_for_email `{UnicodeDB} (output_dir : str) (emails : list email) :
  forall k,
    flat_map (write_for output_dir)
             (combine (seq k (List.length (map json_of_email emails)))
                      (map json_of_email emails))
    = map (fun ie => (os_path_join (FS := FS) output_dir
                        (filename_for (json_headers (snd ie)) (fst ie)),
                      eml_text (snd ie)))
          (combine (seq k (List.length emails)) emails).
Proof.
  induction emails as [|e emails IH]; intros k; [reflexivity|].
  cbn [map List.length seq combine flat_map fst snd]. rewrite IH.
  unfold write_for at 1. cbn [snd fst]. unfold json_of_email at 1.
  unfold headers_of, body_of, dict_get_default. cbn [dict_get].
  rewrite str_eqb_refl.
  replace (str_eqb (u "headers") (u "body")) with false by reflexivity.
  rewrite str_eqb_refl. fold (json_headers e).
  rewrite eml_content_of_email. reflexivity.
Qed.

(** X21.  What [extract_emails_to_json] dumps, [convert_json_to_eml]
    takes without a warning: on the array made of parsed records, the
    lines about them being ones standard output can encode, it calls for
    one file for each, in order, whose text is the headers of the record,
    one [name: value] line each, a blank line, and the body. *)
Theorem convert_parsed_records `{UnicodeDB}
        (json_file_path output_dir : str) (emails : list email)
        (w : world FS) :
  json_load (disk w) json_file_path
  = Loaded (JArr (map json_of_email emails)) ->
  directory_ready (disk w) output_dir ->
  printable json_file_path = true ->
  printable output_dir = true ->
  Forall (reportable output_dir) (enumerate (map json_of_email emails)) ->
  exists w' es,
    convert_json_to_eml json_file_path output_dir w = (Return tt, w')
    /\ trace w' = trace w ++ es
    /\ filter is_warning es = []
    /\ writes es
       = map (fun ie => (os_path_join (FS := FS) output_dir
                           (filename_for (json_headers (snd ie)) (fst ie)),
                         eml_text (snd ie)))
             (enumerate emails).
Proof.
  intros L D Pj Po Rp.
  assert (V : Forall (fun v => valid_record v = true)
                     (map json_of_email emails)).
  { apply Forall_forall. intros v Hv. apply in_map_iff in Hv as [e [<- _]].
    apply json_of_email_valid. }
  destruct (convert_records_run json_file_path output_dir _ w L D Pj Po)
    as [w' [es [E [T [Cw [Cf _]]]]]]; [|exact Rp|].
  { eapply Forall_impl; [|exact V]. simpl. auto. }
  exists w', es. split; [exact E|]. split; [exact T|]. split.
  - rewrite filter_none in Cw.
    + destruct (filter is_warning es); [reflexivity | discriminate Cw].
    + eapply Forall_impl; [|exact V]. apply valid_is_record.
  - rewrite Cf. unfold enumerate. apply write_for_email.
Qed.

(** X22.  The value of [X-CCC-HASH] goes into the path as it is.  Where
    joining a directory and an absolute name gives the name, as on POSIX,
    a hash that starts with a slash sends the file outside the output
    directory: the one write of the record goes to the hash followed by
    [.eml]; and the record is reported with one line, and the loop goes
    on, when the hash and the text of a failed write are ones standard
    output can encode. *)
Theorem absolute_hash_leaves_the_directory
        (output_dir h : str) (i : nat) (obj hdrs : dict json)
        (w : world FS) :
  (forall a b, startswith [SLASH] b = true ->
               os_path_join (FS := FS) a b = b) ->
  headers_of obj = JObj hdrs ->
  dict_get hdrs X_CCC_HASH = Some (JStr h) ->
  startswith [SLASH] h = true ->
  exists o es d,
    export_email output_dir tt (i, JObj obj) w
    = (o, mk_world (trace w ++ WriteFile (h ++ u ".eml")
                                         (eml_content_of hdrs (body_of obj))
                            :: es) d)
    /\ writes es = []
    /\ (printable h = true ->
        printable (io_message
                     (fst (write_text (disk w) (h ++ u ".eml")
                                      (eml_content_of hdrs (body_of obj)))))
        = true ->
        o = Return tt /\ exists line, es = [Print line]).
Proof.
  intros J Ho G Sh. unfold export_email.
  unfold headers_of in Ho. rewrite Ho. fold (body_of obj).
  erewrite bind_Return; cycle 1.
  { eapply filename_by_hash; [exact G|].
    destruct h; [discriminate Sh | reflexivity]. }
  cbn [str_of]. rewrite J.
  2:{ destruct h as [|c h]; [discriminate Sh|]. exact Sh. }
  unfold try_except, perform, bind. cbn [trace disk].
  destruct (write_text (disk w) _ _) as [r d]. cbn [fst].
  assert (Fin : forall (o : outcome unit) (es : list event),
             writes es = [] ->
             (printable h = true -> printable (io_message r) = true ->
              o = Return tt /\ exists line, es = [Print line]) ->
             exists o' es' d',
               (o, mk_world ((trace w ++ [WriteFile (h ++ u ".eml")
                                 (eml_content_of hdrs (body_of obj))]) ++ es) d)
               = (o', mk_world (trace w ++ WriteFile (h ++ u ".eml")
                                  (eml_content_of hdrs (body_of obj)) :: es') d')
               /\ writes es' = []
               /\ (printable h = true -> printable (io_message r) = true ->
                   o' = Return tt /\ exists line, es' = [Print line])).
  { intros o es Wn P. exists o, es, d. rewrite <- app_assoc.
    split; [reflexivity|]. split; assumption. }
  assert (Nil : forall o : outcome unit,
             (o, mk_world (trace w ++ [WriteFile (h ++ u ".eml")
                              (eml_content_of hdrs (body_of obj))]) d)
             = (o, mk_world ((trace w ++ [WriteFile (h ++ u ".eml")
                              (eml_content_of hdrs (body_of obj))]) ++ []) d)).
  { intros o. rewrite app_nil_r. reflexivity. }
  destruct r; unfold check_io, ret, raise; cbn [io_message exn_text].
  - (* the write went through *)
    match goal with
    | |- context [print ?l ?w0] =>
        destruct (print_cases l w0) as [-> | [P ->]]
    end.
    + cbn [trace disk]. apply Fin; [reflexivity|]. eauto.
    + cbn [exn_text].
      match goal with
      | |- context [print ?l ?w0] =>
          destruct (print_cases l w0) as [-> | [P' ->]]
      end.
      * cbn [trace disk]. apply Fin; [reflexivity|]. intros Ph _.
        exfalso. revert P. rewrite !printable_app, Ph. discriminate.
      * rewrite Nil. apply Fin; [reflexivity|]. intros Ph _.
        exfalso. revert P. rewrite !printable_app, Ph. discriminate.
  - match goal with
    | |- context [print ?l ?w0] =>
        destruct (print_cases l w0) as [-> | [P ->]]
    end.
    + cbn [trace disk]. apply Fin; [reflexivity|]. eauto.
    + rewrite Nil. apply Fin; [reflexivity|]. intros Ph Pm.
      cbn [io_message] in Pm.
      exfalso. revert P. rewrite !printable_app, Ph, Pm. discriminate.
  - match goal with
    | |- context [print ?l ?w0] =>
        destruct (print_cases l w0) as [-> | [P ->]]
    end.
    + cbn [trace disk]. apply Fin; [reflexivity|]. eauto.
    + rewrite Nil. apply Fin; [reflexivity|]. intros Ph Pm.
      cbn [io_message] in Pm.
      exfalso. revert P. rewrite !printable_app, Ph, Pm. discriminate.
  - match goal with
    | |- context [print ?l ?w0] =>
        destruct (print_cases l w0) as [-> | [P ->]]
    end.
    + cbn [trace disk]. apply Fin; [reflexivity|]. eauto.
    + rewrite Nil. apply Fin; [reflexivity|]. intros Ph Pm.
      cbn [io_message] in Pm.
      exfalso. revert P. rewrite !printable_app, Ph, Pm. discriminate.
Qed.

End MoreConvertClaims.

(* ------------------------------------------------------------------ *)
(** ** The two scripts run one after the other *)
(* ------------------------------------------------------------------ *)

Section MoreMainBlocks.
Context `{UnicodeDB} {FS : Type} `{OS FS} `{PyBuiltins} {out : Stdout}.

(** X23.  The two scripts as they stand do not chain.  The first dumps to
    [emails.json] and the second reads [emails_filtered.json]: where
    writing the one file does not make the other appear, a run of the
    first script, however it ends, followed by a run of the second, in a
    directory without [emails_filtered.json], ends with the second
    printing its two lines about the missing input, and converting
    nothing. *)
Theorem scripts_do_not_chain (w : world FS) :
  (forall d v,
      os_path_exists (snd (json_dump d OUTPUT_JSON_FILE v)) INPUT_JSON_FILE
      = os_path_exists d INPUT_JSON_FILE) ->
  os_path_exists (disk w) INPUT_JSON_FILE = false ->
  exists o w1,
    extract_main w = (o, w1)
    /\ json_to_eml_main w1
       = (Return tt,
          mk_world
            (trace w1
               ++ [Print (u "Error: Input JSON file '" ++ INPUT_JSON_FILE
                            ++ u "' not found in the current directory.");
                   Print (u "Please make sure the file exists or provide the correct path.")])
            (disk w1)).
Proof.
  intros Fr Ex. unfold extract_main.
  destruct (extract_run_shape INPUT_MBOX_FILE OUTPUT_JSON_FILE w)
    as [o [w1 [es [E [_ [_ [_ [D _]]]]]]]].
  exists o, w1. split; [exact E|].
  assert (Ex1 : os_path_exists (disk w1) INPUT_JSON_FILE = false).
  { destruct D as [->|[v ->]]; [exact Ex | rewrite Fr; exact Ex]. }
  unfold json_to_eml_main, ask. unfold bind at 1. rewrite Ex1. cbn [negb].
  unfold bind. rewrite print_run by reflexivity.
  rewrite print_run by reflexivity.
  cbn [trace disk]. rewrite <- app_assoc. reflexivity.
Qed.

End MoreMainBlocks.

(* ------------------------------------------------------------------ *)
(** ** Worked examples on the further properties *)
(* ------------------------------------------------------------------ *)

Section MoreParseExamples.
#[local] Existing Instance utf8_stdout.
#[local] Existing Instance ascii_only.

Lemma parse_mbox_empty_iff_blank_witness :
  parse_mbox [SPACE; LF] (fresh empty_fs)
  = (Return [], mk_world ([] ++ [Print no_emails_found]) empty_fs)
  /\ exists e es,
       parse_mbox (u "hello") (fresh empty_fs) = (Return (e :: es), fresh empty_fs).
Proof.
  split.
  - apply (proj1 (parse_mbox_empty_iff_blank (H := ascii_only)
                    [SPACE; LF] (fresh empty_fs))). reflexivity.
  - apply (proj2 (parse_mbox_empty_iff_blank (H := ascii_only)
                    (u "hello") (fresh empty_fs))). reflexivity.
Defined.

Lemma parse_mbox_concatenation_witness :
  exists ra rb wa wb w',
    parse_mbox (nth 0 sample_segments []) (fresh empty_fs) = (Return ra, wa)
    /\ parse_mbox (nth 1 sample_segments []) (fresh empty_fs) = (Return rb, wb)
    /\ parse_mbox (nth 0 sample_segments [] ++ nth 1 sample_segments [])
                  (fresh empty_fs)
       = (Return (ra ++ rb), w').
Proof.
  apply (parse_mbox_concatenation (H := ascii_only)); reflexivity.
Defined.

Lemma header_names_are_those_of_the_block_witness :
  exists e,
    parse_part [] folded_message (fresh empty_fs)
    = (Return ([] ++ [e]), fresh empty_fs)
    /\ forall k,
         In k (keys (headers e))
         <-> exists l, In l (take_while nonblank (tl (splitlines folded_message)))
                       /\ option_map fst (re_match_header l) = Some k.
Proof.
  apply (header_names_are_those_of_the_block (H := ascii_only)).
  reflexivity.
Defined.

Lemma envelope_line_is_dropped_witness :
  parse_part [] (u "From alice" ++ LF :: u "Subject: x") (fresh empty_fs)
  = parse_part [] (u "From bob" ++ LF :: u "Subject: x") (fresh empty_fs).
Proof.
  apply (envelope_line_is_dropped (H := ascii_only)); reflexivity.
Defined.

Lemma no_blank_line_no_body_witness :
  exists e,
    parse_part [] duplicate_message (fresh empty_fs)
    = (Return ([] ++ [e]), fresh empty_fs)
    /\ body e = []
    /\ for_each (tl (splitlines duplicate_message)) header_step ([], None)
                (fresh empty_fs)
       = (Return (parse_headers (tl (splitlines duplicate_message))),
          fresh empty_fs)
    /\ headers e = fst (parse_headers (tl (splitlines duplicate_message))).
Proof.
  apply (no_blank_line_no_body (H := ascii_only)).
  - reflexivity.
  - repeat constructor.
Defined.

End MoreParseExamples.

Section MoreExtractExamples.
#[local] Existing Instance utf8_stdout.
#[local] Existing Instance ascii_only.

Lemma extract_input_unreadable_witness :
  extract_emails_to_json (H0 := simple_os) (u "year2005.txt")
                         (u "emails.json") (fresh empty_fs)
  = (Return tt,
     mk_world [Print (input_not_found (u "year2005.txt"));
               Print (u "Current directory: /");
               Print (u "Files in current directory: []")]
              empty_fs)
  /\ extract_emails_to_json (H0 := adrift_os) (u "year2005.txt")
                            (u "emails.json") (fresh empty_fs)
     = (Return tt,
        mk_world [Print (input_not_found (u "year2005.txt"));
                  Print (input_not_found (u "year2005.txt"))]
                 empty_fs).
Proof.
  split.
  - apply (proj1 (extract_input_unreadable (H := ascii_only) (H0 := simple_os)
                    (u "year2005.txt") (u "emails.json") (fresh empty_fs)
                    eq_refl)
             (u "/") (u "[]")); reflexivity.
  - apply (proj1 (proj2 (extract_input_unreadable
                           (H := ascii_only) (H0 := adrift_os)
                           (u "year2005.txt") (u "emails.json")
                           (fresh empty_fs) eq_refl))
             (u "[Errno 2] No such file or directory")); reflexivity.
Defined.

Lemma extract_blank_input_witness :
  extract_emails_to_json (H0 := simple_os) (u "year2005.txt")
                         (u "emails.json") (fresh (disk_with_file [x20; x0a]))
  = (Return tt,
     mk_world ([] ++ [Print no_emails_found;
                      Print (u "No emails were parsed.")])
              (disk_with_file [x20; x0a])).
Proof.
  apply (extract_blank_input (H := ascii_only) (H0 := simple_os)
           (u "year2005.txt") (u "emails.json") [x20; x0a]
           (fresh (disk_with_file [x20; x0a])));
    reflexivity.
Defined.

Lemma extract_success_witness :
  exists w',
    extract_emails_to_json (H0 := simple_os) (u "year2005.txt")
                           (u "emails.json") (fresh disk_with_raw)
    = (Return tt, w')
    /\ List.length (documents (disk w')) = 1.
Proof.
  eexists. split.
  - eapply (extract_success (H := ascii_only) (H0 := simple_os)
              (u "year2005.txt") (u "emails.json") [x41; xff; x42]
              (fresh disk_with_raw));
      reflexivity.
  - reflexivity.
Defined.

Lemma extract_dump_failure_witness :
  extract_emails_to_json (H0 := readonly_os) (u "year2005.txt")
                         (u "emails.json") (fresh disk_with_raw)
  = (Return tt,
     mk_world
       ([] ++ [DumpJson (u "emails.json")
                 (JArr (map json_of_email
                            (records_of (universal_newlines false
                               (kept (utf8_scan Start [x41; xff; x42]))))));
               Print (error_occurred read_only)])
       disk_with_raw).
Proof.
  apply (extract_dump_failure (H := ascii_only) (H0 := readonly_os)
           (u "year2005.txt") (u "emails.json") [x41; xff; x42]
           (fresh disk_with_raw) (IoOSError read_only) disk_with_raw);
    try reflexivity.
  discriminate.
Defined.

End MoreExtractExamples.

Section MoreConvertExamples.
#[local] Existing Instance utf8_stdout.
#[local] Existing Instance sample_builtins.

Open Scope string_scope.

Lemma non_string_subject_aborts_witness :
  exists w' es,
    convert_json_to_eml (H := simple_os) (u "emails.json") (u "eml_files")
      (fresh (disk_with ([record [("Subject", "one")] "1"]
                           ++ JObj numeric_subject
                           :: [record [("Subject", "two")] "2"])%list))
    = (Raise TypeError, w')
    /\ trace w' = ([] ++ es)%list
    /\ writes es
       = flat_map (write_for (H := simple_os) (u "eml_files"))
                  (enumerate [record [("Subject", "one")] "1"])
    /\ List.length (writes es) = 1.
Proof.
  apply (non_string_subject_aborts (H := simple_os)
           (u "emails.json") (u "eml_files")
           [record [("Subject", "one")] "1"]
           [record [("Subject", "two")] "2"]
           numeric_subject [(u "Subject", JInt 5)] (JInt 5)).
  - reflexivity.
  - right. reflexivity.
  - reflexivity.
  - reflexivity.
  - repeat constructor.
  - solve_reportable.
  - reflexivity.
  - reflexivity.
  - reflexivity.
  - reflexivity.
  - discriminate.
Defined.

Lemma unprintable_path_aborts_witness :
  exists m w' es,
    convert_json_to_eml (H := strict_os) (u "emails.json") (u "eml_files")
      (fresh (disk_with ([record [("Subject", "one")] "1"]
                           ++ surrogate_record
                           :: [record [("Subject", "two")] "2"])%list))
    = (Raise (UnicodeEncodeError m), w')
    /\ trace w' = ([] ++ es)%list
    /\ writes es
       = (flat_map (write_for (H := strict_os) (u "eml_files"))
                   (enumerate [record [("Subject", "one")] "1"])
          ++ [((u "eml_files/" ++ [0xD800%N] ++ u ".eml")%list,
               eml_content_of [(u "Subject", JStr [0xD800%N])]
                              (JStr (u "x")))])%list
    /\ List.length (writes es) = 1 + 1.
Proof.
  apply (unprintable_path_aborts (H := strict_os)
           (u "emails.json") (u "eml_files")
           [record [("Subject", "one")] "1"]
           [record [("Subject", "two")] "2"]
           surrogate_record).
  - reflexivity.
  - right. reflexivity.
  - reflexivity.
  - reflexivity.
  - repeat constructor.
  - solve_reportable.
  - reflexivity.
  - reflexivity.
  - reflexivity.
Defined.

Lemma convert_unusable_document_witness :
  exists line,
    convert_json_to_eml (H := simple_os) (u "emails.json") (u "eml_files")
                        (fresh empty_fs)
    = (Return tt, mk_world ([] ++ [Print line])%list empty_fs)
    /\ is_warning (Print line) = false.
Proof.
  apply (convert_unusable_document (H := simple_os)
           (u "emails.json") (u "eml_files") (fresh empty_fs)).
  - discriminate.
  - reflexivity.
  - intros m E. discriminate E.
Defined.

Lemma convert_directory_failure_witness :
  exists o es,
    convert_json_to_eml (H := readonly_os) (u "emails.json") (u "eml_files")
                        (fresh (disk_with clashing_records))
    = (o, mk_world ([] ++ Makedirs (u "eml_files") :: es)%list
                   (disk_with clashing_records))
    /\ writes es = []
    /\ (o = Return tt
        /\ es = [Print (u "Error creating output directory '"
                          ++ u "eml_files" ++ u "': " ++ read_only)%list]).
Proof.
  apply (convert_directory_failure (H := readonly_os)
           (u "emails.json") (u "eml_files") clashing_records
           (fresh (disk_with clashing_records))
           (IoOSError read_only) (disk_with clashing_records));
    try reflexivity.
  discriminate.
Defined.

Lemma convert_counts_witness :
  exists w' es,
    convert_json_to_eml (H := simple_os) (u "emails.json") (u "eml_files")
                        (fresh (disk_with (JNull :: JInt 7 :: clashing_records)))
    = (Return tt, w')
    /\ trace w' = ([] ++ es)%list
    /\ List.length (filter is_warning es)
       = List.length (filter (fun v => negb (is_record v))
                             (JNull :: JInt 7 :: clashing_records))
    /\ writes es
       = flat_map (write_for (H := simple_os) (u "eml_files"))
                  (enumerate (JNull :: JInt 7 :: clashing_records))
    /\ List.length (writes es)
       = List.length (filter is_record (JNull :: JInt 7 :: clashing_records))
    /\ last (printed es) []
       = conversion_complete
           (List.length (JNull :: JInt 7 :: clashing_records)) (u "eml_files").
Proof.
  apply (convert_counts (H := simple_os) (u "emails.json") (u "eml_files")
           (JNull :: JInt 7 :: clashing_records)).
  - reflexivity.
  - right. reflexivity.
  - reflexivity.
  - reflexivity.
  - repeat constructor; (left; reflexivity) || (right; reflexivity).
  - solve_reportable.
Defined.

Lemma convert_parsed_records_witness :
  exists w' es,
    convert_json_to_eml (H := simple_os) (u "emails.json") (u "eml_files")
      (fresh (disk_with (map json_of_email
                             [mk_email [(u "Subject", u "Hi")] (u "Hello")])))
    = (Return tt, w')
    /\ trace w' = ([] ++ es)%list
    /\ filter is_warning es = []
    /\ writes es
       = map (fun ie => (os_path_join (OS := simple_os) (u "eml_files")
                           (filename_for (json_headers (snd ie)) (fst ie)),
                         eml_text (snd ie)))
             (enumerate [mk_email [(u "Subject", u "Hi")] (u "Hello")]).
Proof.
  apply (convert_parsed_records (H := simple_os) (H1 := ascii_only)
           (u "emails.json") (u "eml_files")
           [mk_email [(u "Subject", u "Hi")] (u "Hello")]).
  - reflexivity.
  - right. reflexivity.
  - reflexivity.
  - reflexivity.
  - solve_reportable.
Defined.

Lemma absolute_hash_leaves_the_directory_witness :
  exists o es d,
    export_email (H := simple_os) (u "eml_files") tt
      (0, JObj [(u "headers", JObj (string_headers [("X-CCC-HASH", "/tmp/x")]))])
      (fresh empty_fs)
    = (o,
       mk_world ([] ++ WriteFile (u "/tmp/x" ++ u ".eml")
                         (eml_content_of
                            (string_headers [("X-CCC-HASH", "/tmp/x")])
                            (body_of [(u "headers",
                                       JObj (string_headers
                                               [("X-CCC-HASH", "/tmp/x")]))]))
                    :: es)%list d)
    /\ writes es = []
    /\ o = Return tt
    /\ exists line, es = [Print line].
Proof.
  destruct (absolute_hash_leaves_the_directory (H := simple_os)
              (u "eml_files") (u "/tmp/x") 0
              [(u "headers", JObj (string_headers [("X-CCC-HASH", "/tmp/x")]))]
              (string_headers [("X-CCC-HASH", "/tmp/x")])
              (fresh empty_fs))
    as [o [es [d [E [Wn P]]]]].
  - intros a b Hb. simpl. unfold posix_join. rewrite Hb. reflexivity.
  - reflexivity.
  - reflexivity.
  - reflexivity.
  - exists o, es, d. split; [exact E|]. split; [exact Wn|].
    apply P; reflexivity.
Defined.

Close Scope string_scope.

End MoreConvertExamples.

Section MoreMainBlocksExamples.
#[local] Existing Instance utf8_stdout.
#[local] Existing Instance ascii_only.
#[local] Existing Instance sample_builtins.

Lemma scripts_do_not_chain_witness :
  exists o w1,
    extract_main (H0 := simple_os) (fresh disk_with_raw) = (o, w1)
    /\ List.length
         (trace (snd (json_to_eml_main (H0 := simple_os) w1)))
       = List.length (trace w1) + 2.
Proof.
  destruct (scripts_do_not_chain (H := ascii_only) (H0 := simple_os)
              (fresh disk_with_raw)) as [o [w1 [E J]]].
  - intros d v. cbn [os_path_exists json_dump simple_os snd directories
                      raw_files documents text_files].
    unfold dict_mem.
    rewrite (dict_get_set_other (documents d) v (k := OUTPUT_JSON_FILE)
               (k' := INPUT_JSON_FILE)) by discriminate.
    reflexivity.
  - reflexivity.
  - exists o, w1. split; [exact E|].
    rewrite J. cbn [snd trace]. rewrite length_app. reflexivity.
Defined.

End MoreMainBlocksExamples.
